(** * docsai: ingestion pipeline and hybrid retrieval, a shallow embedding

    The development follows the Python sources:
    - [docsai/retriever/ingest.py]   ([_hash], [_chunk], [_is_allowed_path],
      [_robots_allowed], [crawl_website], the identifier loop of
      [ingest_profile]);
    - [docsai/document_intelligence.py] ([DocumentIntelligence.categorize_document],
      [SmartChunker]);
    - [docsai/ingestion_manager.py]  ([IngestionManager.start_ingestion], the
      identifier loop of [_run_ingestion]);
    - [docsai/incremental_updater.py] ([check_url_changes], [scan_for_changes]);
    - [docsai/retriever/search.py]   ([search]).

    Python [str] values are modelled as [string], holding the UTF-8
    encoding of the text: [Py.chars] gives its characters, and what Python
    does by character (white space, case, length, slices, regular
    expressions) is done on them; Python [int] as [Z], dictionaries as
    [gmap] when only lookups matter and as association lists when the
    insertion order is observable. *)

From Stdlib Require Import ZArith List Ascii String Bool Lia QArith Qminmax Sorted Permutation.
From stdpp Require Import base option list strings pretty gmap.

Import ListNotations.
Local Open Scope string_scope.
Local Open Scope list_scope.
Local Open Scope Z_scope.

(** ** Python primitives used by the sources *)

Module Py.

(** *** Texts

    A [str] is held as its UTF-8 encoding (a lone surrogate, which a [str]
    may hold, as the three bytes its code takes).  What Python does
    character by character is done on [chars], the encodings of the
    successive characters of the text. *)

Definition byte (c : ascii) : N := N_of_ascii c.

(** [lo <= n <= hi] *)
Definition in_range (lo hi n : N) : bool := ((lo <=? n) && (n <=? hi))%N.

Definition in_ranges (ranges : list (N * N)) (n : N) : bool :=
  existsb (fun r => in_range (fst r) (snd r) n) ranges.

(** A continuation byte, [10xxxxxx]. *)
Definition is_cont (c : ascii) : bool := ((128 <=? byte c) && (byte c <? 192))%N.

(** The number of continuation bytes a first byte announces. *)
Definition width (c : ascii) : nat :=
  let n := byte c in
  if (n <? 192)%N then 0
  else if (n <? 224)%N then 1
  else if (n <? 240)%N then 2
  else if (n <? 248)%N then 3
  else 0.

Definition snoc (s : string) (c : ascii) : string := s +:+ String c "".

(** The character [ch], which still expects [k] continuation bytes, in
    front of the characters [l]: it takes the continuation bytes that
    follow it, as many as it expects. *)
Fixpoint gather (k : nat) (ch : string) (l : list string) : list string :=
  match k, l with
  | S k', String c EmptyString :: l' =>
      if is_cont c then gather k' (snoc ch c) l' else ch :: l
  | _, _ => ch :: l
  end.

(** The characters of a text, in order. *)
Fixpoint chars (s : string) : list string :=
  match s with
  | EmptyString => []
  | String c s' => gather (width c) (String c "") (chars s')
  end.

(** The value [code] gives to bytes that encode no character. *)
Definition NOT_A_CHARACTER : N := 0x110000.

(** [ord(ch)] *)
Definition code (ch : string) : N :=
  let cont b := ((128 <=? b) && (b <? 192))%N in
  match map byte (list_ascii_of_string ch) with
  | [a] => if (a <? 128)%N then a else NOT_A_CHARACTER
  | [a; b] =>
      if ((194 <=? a) && (a <? 224) && cont b)%N
      then ((a - 192) * 64 + (b - 128))%N
      else NOT_A_CHARACTER
  | [a; b; c] =>
      let n := ((a - 224) * 4096 + (b - 128) * 64 + (c - 128))%N in
      if ((224 <=? a) && (a <? 240) && cont b && cont c && (2048 <=? n))%N
      then n else NOT_A_CHARACTER
  | [a; b; c; d] =>
      let n := ((a - 240) * 262144 + (b - 128) * 4096 + (c - 128) * 64 + (d - 128))%N in
      if ((240 <=? a) && (a <? 248) && cont b && cont c && cont d
          && (65536 <=? n) && (n <? 1114112))%N
      then n else NOT_A_CHARACTER
  | _ => NOT_A_CHARACTER
  end.

(** [chr(n)] *)
Definition encode (n : N) : string :=
  if (n <? 128)%N then String (ascii_of_N n) ""
  else if (n <? 2048)%N then
    String (ascii_of_N (192 + n / 64)) (String (ascii_of_N (128 + n mod 64)) "")
  else if (n <? 65536)%N then
    String (ascii_of_N (224 + n / 4096))
      (String (ascii_of_N (128 + (n / 64) mod 64))
         (String (ascii_of_N (128 + n mod 64)) ""))
  else
    String (ascii_of_N (240 + n / 262144))
      (String (ascii_of_N (128 + (n / 4096) mod 64))
         (String (ascii_of_N (128 + (n / 64) mod 64))
            (String (ascii_of_N (128 + n mod 64)) ""))).

(** [str.isspace]: the characters [str.split], [str.strip] and [\s] take
    for white space. *)
Definition space_code (n : N) : bool :=
  in_range 9 13 n || in_range 28 32 n || (n =? 0x85)%N || (n =? 0xA0)%N
  || (n =? 0x1680)%N || in_range 0x2000 0x200A n || (n =? 0x2028)%N
  || (n =? 0x2029)%N || (n =? 0x202F)%N || (n =? 0x205F)%N || (n =? 0x3000)%N.

Definition is_space (ch : string) : bool := space_code (code ch).

(** [s.split()]: maximal runs of characters that are not white space, in
    order.  [cur] is the word being read. *)
Fixpoint split_go (cur : string) (l : list string) : list string :=
  match l with
  | [] => if String.eqb cur "" then [] else [cur]
  | ch :: l' =>
      if is_space ch
      then (if String.eqb cur "" then split_go "" l' else cur :: split_go "" l')
      else split_go (cur +:+ ch) l'
  end.

Definition split (s : string) : list string := split_go "" (chars s).

(** [sep.join(l)] *)
Definition join (sep : string) (l : list string) : string := String.concat sep l.

(** [len(l)] *)
Definition len {A} (l : list A) : Z := Z.of_nat (List.length l).

(** [len(s)] for a text: the number of its characters. *)
Definition str_len (s : string) : Z := len (chars s).

(** Normalisation of one slice bound against a sequence of length [n]:
    negative bounds count from the end, everything is clamped to [0..n]. *)
Definition clamp (n i : Z) : Z :=
  if i <? 0 then Z.max 0 (i + n) else Z.min i n.

(** [l[lo:hi]] *)
Definition slice {A} (l : list A) (lo hi : Z) : list A :=
  let a := clamp (len l) lo in
  let b := clamp (len l) hi in
  firstn (Z.to_nat (b - a)) (skipn (Z.to_nat a) l).

(** [l[:hi]] *)
Definition slice_to {A} (l : list A) (hi : Z) : list A := slice l 0 hi.

(** Exceptions the modelled code can raise. *)
Inductive exn := ValueError | IndexError.

Inductive result (A : Type) :=
| Ok (a : A)
| Raise (e : exn).
Arguments Ok {A} a.
Arguments Raise {A} e.

(** [str(e)] *)
Definition str_exn (e : exn) : string :=
  match e with
  | ValueError => "range() arg 3 must not be zero"
  | IndexError => "list index out of range"
  end.

(** [list(range(start, stop, step))]; a zero step raises [ValueError]. *)
Definition range_len (start stop step : Z) : Z :=
  if 0 <? step then
    (if start <? stop then (stop - start - 1) / step + 1 else 0)
  else
    (if stop <? start then (start - stop - 1) / (- step) + 1 else 0).

Definition range (start stop step : Z) : result (list Z) :=
  if step =? 0 then Raise ValueError
  else Ok (map (fun k : nat => start + Z.of_nat k * step)
               (seq 0 (Z.to_nat (range_len start stop step)))).

(** [s.startswith(p)] *)
Definition startswith (s p : string) : bool := String.prefix p s.

(** [p in s] for texts *)
Fixpoint contains (s p : string) : bool :=
  String.prefix p s ||
  match s with
  | EmptyString => false
  | String _ s' => contains s' p
  end.

(** The lower-case mappings of the Unicode character database (14.0):
    [(first, last, stride, target)] sends [first], [first + stride], ...
    up to [last] to [target], [target + stride], ... *)
Definition LOWER : list (N * N * N * N) :=
  [
    (65, 90, 1, 97); (192, 214, 1, 224); (216, 222, 1, 248); (256, 302, 2, 257);
    (306, 310, 2, 307); (313, 327, 2, 314); (330, 374, 2, 331); (376, 376, 1, 255);
    (377, 381, 2, 378); (385, 385, 1, 595); (386, 388, 2, 387); (390, 390, 1, 596);
    (391, 391, 1, 392); (393, 394, 1, 598); (395, 395, 1, 396); (398, 398, 1, 477);
    (399, 399, 1, 601); (400, 400, 1, 603); (401, 401, 1, 402); (403, 403, 1, 608);
    (404, 404, 1, 611); (406, 406, 1, 617); (407, 407, 1, 616); (408, 408, 1, 409);
    (412, 412, 1, 623); (413, 413, 1, 626); (415, 415, 1, 629); (416, 420, 2, 417);
    (422, 422, 1, 640); (423, 423, 1, 424); (425, 425, 1, 643); (428, 428, 1, 429);
    (430, 430, 1, 648); (431, 431, 1, 432); (433, 434, 1, 650); (435, 437, 2, 436);
    (439, 439, 1, 658); (440, 440, 1, 441); (444, 444, 1, 445); (452, 452, 1, 454);
    (453, 453, 1, 454); (455, 455, 1, 457); (456, 456, 1, 457); (458, 458, 1, 460);
    (459, 475, 2, 460); (478, 494, 2, 479); (497, 497, 1, 499); (498, 500, 2, 499);
    (502, 502, 1, 405); (503, 503, 1, 447); (504, 542, 2, 505); (544, 544, 1, 414);
    (546, 562, 2, 547); (570, 570, 1, 11365); (571, 571, 1, 572); (573, 573, 1, 410);
    (574, 574, 1, 11366); (577, 577, 1, 578); (579, 579, 1, 384); (580, 580, 1, 649);
    (581, 581, 1, 652); (582, 590, 2, 583); (880, 882, 2, 881); (886, 886, 1, 887);
    (895, 895, 1, 1011); (902, 902, 1, 940); (904, 906, 1, 941); (908, 908, 1, 972);
    (910, 911, 1, 973); (913, 929, 1, 945); (931, 939, 1, 963); (975, 975, 1, 983);
    (984, 1006, 2, 985); (1012, 1012, 1, 952); (1015, 1015, 1, 1016); (1017, 1017, 1, 1010);
    (1018, 1018, 1, 1019); (1021, 1023, 1, 891); (1024, 1039, 1, 1104); (1040, 1071, 1, 1072);
    (1120, 1152, 2, 1121); (1162, 1214, 2, 1163); (1216, 1216, 1, 1231); (1217, 1229, 2, 1218);
    (1232, 1326, 2, 1233); (1329, 1366, 1, 1377); (4256, 4293, 1, 11520); (4295, 4295, 1, 11559);
    (4301, 4301, 1, 11565); (5024, 5103, 1, 43888); (5104, 5109, 1, 5112); (7312, 7354, 1, 4304);
    (7357, 7359, 1, 4349); (7680, 7828, 2, 7681); (7838, 7838, 1, 223); (7840, 7934, 2, 7841);
    (7944, 7951, 1, 7936); (7960, 7965, 1, 7952); (7976, 7983, 1, 7968); (7992, 7999, 1, 7984);
    (8008, 8013, 1, 8000); (8025, 8031, 2, 8017); (8040, 8047, 1, 8032); (8072, 8079, 1, 8064);
    (8088, 8095, 1, 8080); (8104, 8111, 1, 8096); (8120, 8121, 1, 8112); (8122, 8123, 1, 8048);
    (8124, 8124, 1, 8115); (8136, 8139, 1, 8050); (8140, 8140, 1, 8131); (8152, 8153, 1, 8144);
    (8154, 8155, 1, 8054); (8168, 8169, 1, 8160); (8170, 8171, 1, 8058); (8172, 8172, 1, 8165);
    (8184, 8185, 1, 8056); (8186, 8187, 1, 8060); (8188, 8188, 1, 8179); (8486, 8486, 1, 969);
    (8490, 8490, 1, 107); (8491, 8491, 1, 229); (8498, 8498, 1, 8526); (8544, 8559, 1, 8560);
    (8579, 8579, 1, 8580); (9398, 9423, 1, 9424); (11264, 11311, 1, 11312); (11360, 11360, 1, 11361);
    (11362, 11362, 1, 619); (11363, 11363, 1, 7549); (11364, 11364, 1, 637); (11367, 11371, 2, 11368);
    (11373, 11373, 1, 593); (11374, 11374, 1, 625); (11375, 11375, 1, 592); (11376, 11376, 1, 594);
    (11378, 11378, 1, 11379); (11381, 11381, 1, 11382); (11390, 11391, 1, 575); (11392, 11490, 2, 11393);
    (11499, 11501, 2, 11500); (11506, 11506, 1, 11507); (42560, 42604, 2, 42561); (42624, 42650, 2, 42625);
    (42786, 42798, 2, 42787); (42802, 42862, 2, 42803); (42873, 42875, 2, 42874); (42877, 42877, 1, 7545);
    (42878, 42886, 2, 42879); (42891, 42891, 1, 42892); (42893, 42893, 1, 613); (42896, 42898, 2, 42897);
    (42902, 42920, 2, 42903); (42922, 42922, 1, 614); (42923, 42923, 1, 604); (42924, 42924, 1, 609);
    (42925, 42925, 1, 620); (42926, 42926, 1, 618); (42928, 42928, 1, 670); (42929, 42929, 1, 647);
    (42930, 42930, 1, 669); (42931, 42931, 1, 43859); (42932, 42946, 2, 42933); (42948, 42948, 1, 42900);
    (42949, 42949, 1, 642); (42950, 42950, 1, 7566); (42951, 42953, 2, 42952); (42960, 42960, 1, 42961);
    (42966, 42968, 2, 42967); (42997, 42997, 1, 42998); (65313, 65338, 1, 65345); (66560, 66599, 1, 66600);
    (66736, 66771, 1, 66776); (66928, 66938, 1, 66967); (66940, 66954, 1, 66979); (66956, 66962, 1, 66995);
    (66964, 66965, 1, 67003); (68736, 68786, 1, 68800); (71840, 71871, 1, 71872); (93760, 93791, 1, 93792);
    (125184, 125217, 1, 125218) ]%N.

(** The characters with the property Case_Ignorable. *)
Definition CASE_IGNORABLE : list (N * N) :=
  [
    (39, 39); (46, 46); (58, 58); (94, 94); (96, 96); (168, 168);
    (173, 173); (175, 175); (180, 180); (183, 184); (688, 879); (884, 885);
    (890, 890); (900, 901); (903, 903); (1155, 1161); (1369, 1369); (1375, 1375);
    (1425, 1469); (1471, 1471); (1473, 1474); (1476, 1477); (1479, 1479); (1524, 1524);
    (1536, 1541); (1552, 1562); (1564, 1564); (1600, 1600); (1611, 1631); (1648, 1648);
    (1750, 1757); (1759, 1768); (1770, 1773); (1807, 1807); (1809, 1809); (1840, 1866);
    (1958, 1968); (2027, 2037); (2042, 2042); (2045, 2045); (2070, 2093); (2137, 2139);
    (2184, 2184); (2192, 2193); (2200, 2207); (2249, 2306); (2362, 2362); (2364, 2364);
    (2369, 2376); (2381, 2381); (2385, 2391); (2402, 2403); (2417, 2417); (2433, 2433);
    (2492, 2492); (2497, 2500); (2509, 2509); (2530, 2531); (2558, 2558); (2561, 2562);
    (2620, 2620); (2625, 2626); (2631, 2632); (2635, 2637); (2641, 2641); (2672, 2673);
    (2677, 2677); (2689, 2690); (2748, 2748); (2753, 2757); (2759, 2760); (2765, 2765);
    (2786, 2787); (2810, 2815); (2817, 2817); (2876, 2876); (2879, 2879); (2881, 2884);
    (2893, 2893); (2901, 2902); (2914, 2915); (2946, 2946); (3008, 3008); (3021, 3021);
    (3072, 3072); (3076, 3076); (3132, 3132); (3134, 3136); (3142, 3144); (3146, 3149);
    (3157, 3158); (3170, 3171); (3201, 3201); (3260, 3260); (3263, 3263); (3270, 3270);
    (3276, 3277); (3298, 3299); (3328, 3329); (3387, 3388); (3393, 3396); (3405, 3405);
    (3426, 3427); (3457, 3457); (3530, 3530); (3538, 3540); (3542, 3542); (3633, 3633);
    (3636, 3642); (3654, 3662); (3761, 3761); (3764, 3772); (3782, 3782); (3784, 3789);
    (3864, 3865); (3893, 3893); (3895, 3895); (3897, 3897); (3953, 3966); (3968, 3972);
    (3974, 3975); (3981, 3991); (3993, 4028); (4038, 4038); (4141, 4144); (4146, 4151);
    (4153, 4154); (4157, 4158); (4184, 4185); (4190, 4192); (4209, 4212); (4226, 4226);
    (4229, 4230); (4237, 4237); (4253, 4253); (4348, 4348); (4957, 4959); (5906, 5908);
    (5938, 5939); (5970, 5971); (6002, 6003); (6068, 6069); (6071, 6077); (6086, 6086);
    (6089, 6099); (6103, 6103); (6109, 6109); (6155, 6159); (6211, 6211); (6277, 6278);
    (6313, 6313); (6432, 6434); (6439, 6440); (6450, 6450); (6457, 6459); (6679, 6680);
    (6683, 6683); (6742, 6742); (6744, 6750); (6752, 6752); (6754, 6754); (6757, 6764);
    (6771, 6780); (6783, 6783); (6823, 6823); (6832, 6862); (6912, 6915); (6964, 6964);
    (6966, 6970); (6972, 6972); (6978, 6978); (7019, 7027); (7040, 7041); (7074, 7077);
    (7080, 7081); (7083, 7085); (7142, 7142); (7144, 7145); (7149, 7149); (7151, 7153);
    (7212, 7219); (7222, 7223); (7288, 7293); (7376, 7378); (7380, 7392); (7394, 7400);
    (7405, 7405); (7412, 7412); (7416, 7417); (7468, 7530); (7544, 7544); (7579, 7679);
    (8125, 8125); (8127, 8129); (8141, 8143); (8157, 8159); (8173, 8175); (8189, 8190);
    (8203, 8207); (8216, 8217); (8228, 8228); (8231, 8231); (8234, 8238); (8288, 8292);
    (8294, 8303); (8305, 8305); (8319, 8319); (8336, 8348); (8400, 8432); (11388, 11389);
    (11503, 11505); (11631, 11631); (11647, 11647); (11744, 11775); (11823, 11823); (12293, 12293);
    (12330, 12333); (12337, 12341); (12347, 12347); (12441, 12446); (12540, 12542); (40981, 40981);
    (42232, 42237); (42508, 42508); (42607, 42610); (42612, 42621); (42623, 42623); (42652, 42655);
    (42736, 42737); (42752, 42785); (42864, 42864); (42888, 42890); (42994, 42996); (43000, 43001);
    (43010, 43010); (43014, 43014); (43019, 43019); (43045, 43046); (43052, 43052); (43204, 43205);
    (43232, 43249); (43263, 43263); (43302, 43309); (43335, 43345); (43392, 43394); (43443, 43443);
    (43446, 43449); (43452, 43453); (43471, 43471); (43493, 43494); (43561, 43566); (43569, 43570);
    (43573, 43574); (43587, 43587); (43596, 43596); (43632, 43632); (43644, 43644); (43696, 43696);
    (43698, 43700); (43703, 43704); (43710, 43711); (43713, 43713); (43741, 43741); (43756, 43757);
    (43763, 43764); (43766, 43766); (43867, 43871); (43881, 43883); (44005, 44005); (44008, 44008);
    (44013, 44013); (64286, 64286); (64434, 64450); (65024, 65039); (65043, 65043); (65056, 65071);
    (65106, 65106); (65109, 65109); (65279, 65279); (65287, 65287); (65294, 65294); (65306, 65306);
    (65342, 65342); (65344, 65344); (65392, 65392); (65438, 65439); (65507, 65507); (65529, 65531);
    (66045, 66045); (66272, 66272); (66422, 66426); (67456, 67461); (67463, 67504); (67506, 67514);
    (68097, 68099); (68101, 68102); (68108, 68111); (68152, 68154); (68159, 68159); (68325, 68326);
    (68900, 68903); (69291, 69292); (69446, 69456); (69506, 69509); (69633, 69633); (69688, 69702);
    (69744, 69744); (69747, 69748); (69759, 69761); (69811, 69814); (69817, 69818); (69821, 69821);
    (69826, 69826); (69837, 69837); (69888, 69890); (69927, 69931); (69933, 69940); (70003, 70003);
    (70016, 70017); (70070, 70078); (70089, 70092); (70095, 70095); (70191, 70193); (70196, 70196);
    (70198, 70199); (70206, 70206); (70367, 70367); (70371, 70378); (70400, 70401); (70459, 70460);
    (70464, 70464); (70502, 70508); (70512, 70516); (70712, 70719); (70722, 70724); (70726, 70726);
    (70750, 70750); (70835, 70840); (70842, 70842); (70847, 70848); (70850, 70851); (71090, 71093);
    (71100, 71101); (71103, 71104); (71132, 71133); (71219, 71226); (71229, 71229); (71231, 71232);
    (71339, 71339); (71341, 71341); (71344, 71349); (71351, 71351); (71453, 71455); (71458, 71461);
    (71463, 71467); (71727, 71735); (71737, 71738); (71995, 71996); (71998, 71998); (72003, 72003);
    (72148, 72151); (72154, 72155); (72160, 72160); (72193, 72202); (72243, 72248); (72251, 72254);
    (72263, 72263); (72273, 72278); (72281, 72283); (72330, 72342); (72344, 72345); (72752, 72758);
    (72760, 72765); (72767, 72767); (72850, 72871); (72874, 72880); (72882, 72883); (72885, 72886);
    (73009, 73014); (73018, 73018); (73020, 73021); (73023, 73029); (73031, 73031); (73104, 73105);
    (73109, 73109); (73111, 73111); (73459, 73460); (78896, 78904); (92912, 92916); (92976, 92982);
    (92992, 92995); (94031, 94031); (94095, 94111); (94176, 94177); (94179, 94180); (110576, 110579);
    (110581, 110587); (110589, 110590); (113821, 113822); (113824, 113827); (118528, 118573); (118576, 118598);
    (119143, 119145); (119155, 119170); (119173, 119179); (119210, 119213); (119362, 119364); (121344, 121398);
    (121403, 121452); (121461, 121461); (121476, 121476); (121499, 121503); (121505, 121519); (122880, 122886);
    (122888, 122904); (122907, 122913); (122915, 122916); (122918, 122922); (123184, 123197); (123566, 123566);
    (123628, 123631); (125136, 125142); (125252, 125259); (127995, 127999); (917505, 917505); (917536, 917631);
    (917760, 917999) ]%N.

(** The characters with the property Cased, those of [CASE_IGNORABLE]
    left out. *)
Definition CASED : list (N * N) :=
  [
    (65, 90); (97, 122); (170, 170); (181, 181); (186, 186); (192, 214);
    (216, 246); (248, 442); (444, 447); (452, 659); (661, 687); (880, 883);
    (886, 887); (891, 893); (895, 895); (902, 902); (904, 906); (908, 908);
    (910, 929); (931, 1013); (1015, 1153); (1162, 1327); (1329, 1366); (1376, 1416);
    (4256, 4293); (4295, 4295); (4301, 4301); (4304, 4346); (4349, 4351); (5024, 5109);
    (5112, 5117); (7296, 7304); (7312, 7354); (7357, 7359); (7424, 7467); (7531, 7543);
    (7545, 7578); (7680, 7957); (7960, 7965); (7968, 8005); (8008, 8013); (8016, 8023);
    (8025, 8025); (8027, 8027); (8029, 8029); (8031, 8061); (8064, 8116); (8118, 8124);
    (8126, 8126); (8130, 8132); (8134, 8140); (8144, 8147); (8150, 8155); (8160, 8172);
    (8178, 8180); (8182, 8188); (8450, 8450); (8455, 8455); (8458, 8467); (8469, 8469);
    (8473, 8477); (8484, 8484); (8486, 8486); (8488, 8488); (8490, 8493); (8495, 8500);
    (8505, 8505); (8508, 8511); (8517, 8521); (8526, 8526); (8544, 8575); (8579, 8580);
    (9398, 9449); (11264, 11387); (11390, 11492); (11499, 11502); (11506, 11507); (11520, 11557);
    (11559, 11559); (11565, 11565); (42560, 42605); (42624, 42651); (42786, 42863); (42865, 42887);
    (42891, 42894); (42896, 42954); (42960, 42961); (42963, 42963); (42965, 42969); (42997, 42998);
    (43002, 43002); (43824, 43866); (43872, 43880); (43888, 43967); (64256, 64262); (64275, 64279);
    (65313, 65338); (65345, 65370); (66560, 66639); (66736, 66771); (66776, 66811); (66928, 66938);
    (66940, 66954); (66956, 66962); (66964, 66965); (66967, 66977); (66979, 66993); (66995, 67001);
    (67003, 67004); (68736, 68786); (68800, 68850); (71840, 71903); (93760, 93823); (119808, 119892);
    (119894, 119964); (119966, 119967); (119970, 119970); (119973, 119974); (119977, 119980); (119982, 119993);
    (119995, 119995); (119997, 120003); (120005, 120069); (120071, 120074); (120077, 120084); (120086, 120092);
    (120094, 120121); (120123, 120126); (120128, 120132); (120134, 120134); (120138, 120144); (120146, 120485);
    (120488, 120512); (120514, 120538); (120540, 120570); (120572, 120596); (120598, 120628); (120630, 120654);
    (120656, 120686); (120688, 120712); (120714, 120744); (120746, 120770); (120772, 120779); (122624, 122633);
    (122635, 122654); (125184, 125251); (127280, 127305); (127312, 127337); (127344, 127369) ]%N.

(** The lower-case mapping of one character, when it is one character. *)
Definition lower_code (n : N) : N :=
  match List.find (fun r => let '(first, last, stride, _) := r in
                            in_range first last n && ((n - first) mod stride =? 0)%N)
                  LOWER with
  | Some (first, _, _, target) => (target + (n - first))%N
  | None => n
  end.

(** After a capital sigma: the next character that is not case-ignorable is
    cased. *)
Fixpoint cased_ahead (l : list string) : bool :=
  match l with
  | [] => false
  | ch :: l' =>
      if in_ranges CASE_IGNORABLE (code ch) then cased_ahead l'
      else in_ranges CASED (code ch)
  end.

(** [s.lower()], character by character.  [after_cased]: the last character
    read that is not case-ignorable is cased.  A capital sigma becomes a
    final sigma after a cased letter and not before one; a capital I with dot
    above becomes [i] and a combining dot. *)
Fixpoint lower_go (after_cased : bool) (l : list string) : list string :=
  match l with
  | [] => []
  | ch :: l' =>
      let n := code ch in
      (if (n =? 0x3A3)%N
       then encode (if after_cased && negb (cased_ahead l') then 0x3C2 else 0x3C3)
       else if (n =? 0x130)%N then "i" +:+ encode 0x307
       else if (lower_code n =? n)%N then ch
       else encode (lower_code n))
      :: lower_go (if in_ranges CASE_IGNORABLE n then after_cased else in_ranges CASED n) l'
  end.

(** [s.lower()] *)
Definition lower (s : string) : string := String.concat "" (lower_go false (chars s)).

(** [s[:n]] for texts, [0 <= n]: the first [n] characters. *)
Definition take (n : nat) (s : string) : string := String.concat "" (firstn n (chars s)).

(** [s.strip()] *)
Fixpoint lstrip_chars (l : list string) : list string :=
  match l with
  | [] => []
  | ch :: l' => if is_space ch then lstrip_chars l' else l
  end.

Definition strip (s : string) : string :=
  String.concat "" (rev (lstrip_chars (rev (lstrip_chars (chars s))))).

(** The decimal digits ([\d], and what [int] reads): runs of the ten
    digits of a script, from zero to nine. *)
Definition DIGITS : list (N * N) :=
  [
    (48, 57); (1632, 1641); (1776, 1785); (1984, 1993); (2406, 2415); (2534, 2543);
    (2662, 2671); (2790, 2799); (2918, 2927); (3046, 3055); (3174, 3183); (3302, 3311);
    (3430, 3439); (3558, 3567); (3664, 3673); (3792, 3801); (3872, 3881); (4160, 4169);
    (4240, 4249); (6112, 6121); (6160, 6169); (6470, 6479); (6608, 6617); (6784, 6793);
    (6800, 6809); (6992, 7001); (7088, 7097); (7232, 7241); (7248, 7257); (42528, 42537);
    (43216, 43225); (43264, 43273); (43472, 43481); (43504, 43513); (43600, 43609); (44016, 44025);
    (65296, 65305); (66720, 66729); (68912, 68921); (69734, 69743); (69872, 69881); (69942, 69951);
    (70096, 70105); (70384, 70393); (70736, 70745); (70864, 70873); (71248, 71257); (71360, 71369);
    (71472, 71481); (71904, 71913); (72016, 72025); (72784, 72793); (73040, 73049); (73120, 73129);
    (92768, 92777); (92864, 92873); (93008, 93017); (120782, 120831); (123200, 123209); (123632, 123641);
    (125264, 125273); (130032, 130041) ]%N.

Definition is_digit (n : N) : bool := in_ranges DIGITS n.

Definition digit_value (n : N) : Z :=
  match List.find (fun r => in_range (fst r) (snd r) n) DIGITS with
  | Some (first, _) => Z.of_N ((n - first) mod 10)
  | None => 0
  end.

(** [s.split(sep)] for a separator of one byte; [cur] is the piece being
    read. *)
Fixpoint split_on (sep : ascii) (cur : string) (s : string) : list string :=
  match s with
  | EmptyString => [cur]
  | String c s' =>
      if Ascii.eqb c sep then cur :: split_on sep "" s'
      else split_on sep (snoc cur c) s'
  end.

(** [l[lo:]] *)
Definition slice_from {A} (l : list A) (lo : Z) : list A := slice l lo (len l).

(** Bind of the exception monad. *)
Definition bind {A B} (x : result A) (f : A -> result B) : result B :=
  match x with
  | Ok a => f a
  | Raise e => Raise e
  end.

(** [pathlib.PurePosixPath(p).name]: the last component, empty and [.]
    components being dropped. *)
Definition path_name (p : string) : string :=
  List.last (List.filter (fun c => negb (String.eqb c "") && negb (String.eqb c "."))
                         (split_on "/" "" p)) "".

(** Position of the last [c] in [s], counting bytes from 0. *)
Fixpoint rfind (c : ascii) (s : string) : option nat :=
  match s with
  | EmptyString => None
  | String d s' =>
      match rfind c s' with
      | Some i => Some (S i)
      | None => if Ascii.eqb c d then Some O else None
      end
  end.

(** [s] without its first [n] bytes. *)
Fixpoint drop (n : nat) (s : string) : string :=
  match n, s with
  | O, _ => s
  | _, EmptyString => EmptyString
  | S n', String _ s' => drop n' s'
  end.

(** [pathlib.PurePosixPath(p).suffix]: the name from its last dot on, when
    that dot is neither the first nor the last character of the name (the
    dot is found, and the name measured, in bytes). *)
Definition path_suffix (p : string) : string :=
  let name := path_name p in
  match rfind "." name with
  | Some i => if (0 <? i)%nat && (i <? String.length name - 1)%nat then drop i name else ""
  | None => ""
  end.

(** [str(n)] for a non-negative count *)
Definition str_of_nat (n : nat) : string := pretty (N.of_nat n).

(** What reading a file in text mode gives: each line ending, CR LF or CR
    alone, comes as one newline. *)
Fixpoint universal_newlines (s : string) : string :=
  match s with
  | EmptyString => EmptyString
  | String c s' =>
      if Ascii.eqb c (ascii_of_nat 13) then
        String (ascii_of_nat 10)
               match s' with
               | String d s'' =>
                   if Ascii.eqb d (ascii_of_nat 10) then universal_newlines s''
                   else universal_newlines s'
               | EmptyString => EmptyString
               end
      else String c (universal_newlines s')
  end.

End Py.

(** ** SHA-1 ([hashlib.sha1(...).hexdigest()], FIPS 180-4)

    32-bit words are [Z] values kept below [2^32]. *)

Module Sha1.

Definition w32 (x : Z) : Z := x mod 2 ^ 32.

Definition rotl (n x : Z) : Z :=
  w32 (Z.lor (Z.shiftl x n) (Z.shiftr x (32 - n))).

Definition bytes_of (s : string) : list Z :=
  map (fun c => Z.of_nat (nat_of_ascii c)) (list_ascii_of_string s).

(** Big-endian bytes of [x], [n] of them. *)
Fixpoint be_bytes (n : nat) (x : Z) : list Z :=
  match n with
  | O => []
  | S n' => Z.shiftr x (8 * Z.of_nat n') mod 256 :: be_bytes n' x
  end.

(** Message, 0x80, zeros up to 56 modulo 64, bit length on 64 bits. *)
Definition pad (msg : list Z) : list Z :=
  let l := Z.of_nat (List.length msg) in
  let zeros := Z.to_nat ((55 - l) mod 64) in
  msg ++ [128] ++ repeat 0 zeros ++ be_bytes 8 (8 * l).

Fixpoint words (fuel : nat) (bs : list Z) : list Z :=
  match fuel, bs with
  | S f, b0 :: b1 :: b2 :: b3 :: bs' =>
      (((b0 * 256 + b1) * 256 + b2) * 256 + b3) :: words f bs'
  | _, _ => []
  end.

Fixpoint blocks (fuel : nat) (ws : list Z) : list (list Z) :=
  match fuel, ws with
  | O, _ => []
  | _, [] => []
  | S f, _ => firstn 16 ws :: blocks f (skipn 16 ws)
  end.

(** Message schedule; [rw] holds the words computed so far, newest first. *)
Fixpoint schedule (n : nat) (rw : list Z) : list Z :=
  match n with
  | O => rw
  | S n' =>
      let x := Z.lxor (Z.lxor (nth 2 rw 0) (nth 7 rw 0))
                      (Z.lxor (nth 13 rw 0) (nth 15 rw 0)) in
      schedule n' (rotl 1 x :: rw)
  end.

Record state := St { ha : Z; hb : Z; hc : Z; hd : Z; he : Z }.

Definition init : state :=
  St 0x67452301 0xEFCDAB89 0x98BADCFE 0x10325476 0xC3D2E1F0.

Definition f_k (t : nat) (b c d : Z) : Z * Z :=
  if (t <? 20)%nat then
    (Z.lor (Z.land b c) (Z.land (Z.lxor b 0xFFFFFFFF) d), 0x5A827999)
  else if (t <? 40)%nat then
    (Z.lxor (Z.lxor b c) d, 0x6ED9EBA1)
  else if (t <? 60)%nat then
    (Z.lor (Z.lor (Z.land b c) (Z.land b d)) (Z.land c d), 0x8F1BBCDC)
  else
    (Z.lxor (Z.lxor b c) d, 0xCA62C1D6).

Definition round (s : state) (tw : nat * Z) : state :=
  let '(t, w) := tw in
  let '(f, k) := f_k t (hb s) (hc s) (hd s) in
  St (w32 (rotl 5 (ha s) + f + he s + k + w)) (ha s) (rotl 30 (hb s)) (hc s) (hd s).

Definition compress (h : state) (block : list Z) : state :=
  let w := rev (schedule 64 (rev block)) in
  let s := fold_left round (combine (seq 0 80) w) h in
  St (w32 (ha h + ha s)) (w32 (hb h + hb s)) (w32 (hc h + hc s))
     (w32 (hd h + hd s)) (w32 (he h + he s)).

Definition digest (msg : list Z) : state :=
  let bs := pad msg in
  let ws := words (List.length bs) bs in
  fold_left compress (blocks (List.length ws) ws) init.

Definition hex_digit (x : Z) : ascii :=
  ascii_of_nat (Z.to_nat (if x <? 10 then 48 + x else 87 + x)).

Fixpoint hex (n : nat) (x : Z) : string :=
  match n with
  | O => ""
  | S n' => String (hex_digit (Z.shiftr x (4 * Z.of_nat n') mod 16)) (hex n' x)
  end.

Definition hexdigest (s : string) : string :=
  let d := digest (bytes_of s) in
  hex 8 (ha d) +:+ hex 8 (hb d) +:+ hex 8 (hc d) +:+ hex 8 (hd d) +:+ hex 8 (he d).

End Sha1.

(** ** The fragment of Python's [re] the sources use

    A backtracking matcher with Python's priorities: alternatives left to
    right, greedy repetitions longest first, lazy ones shortest first.  The
    subject is read character by character ([Py.chars]), a class is a set
    of character codes, and a position is the character before it (if any)
    and the characters after it. *)

Module Re.

Inductive re :=
| Eps
| Cls (p : N -> bool)
| Seq (a b : re)
| Alt (a b : re)
| Rep (greedy : bool) (lo : nat) (hi : option nat) (a : re)
| Bol
| Eol
| Grp (n : nat) (a : re)
| Ahead (a : re).

Definition pos : Type := option string * list string.
Definition caps : Type := list (nat * string).

Definition nl : ascii := ascii_of_nat 10.
Definition newline : string := String nl "".

(** [^]: start of the text, or (MULTILINE) just after a newline. *)
Definition at_bol (multiline : bool) (p : pos) : bool :=
  match fst p with
  | None => true
  | Some ch => multiline && String.eqb ch newline
  end.

(** [$]: end of the text, just before a final newline, or (MULTILINE) just
    before any newline. *)
Definition at_eol (multiline : bool) (p : pos) : bool :=
  match snd p with
  | [] => true
  | ch :: rest =>
      String.eqb ch newline && (multiline || match rest with [] => true | _ => false end)
  end.

(** The text between position [p] and a later position [q]. *)
Definition between (p q : pos) : string :=
  String.concat "" (firstn (List.length (snd p) - List.length (snd q)) (snd p)).

Definition under (count : nat) (hi : option nat) : bool :=
  match hi with
  | None => true
  | Some h => (count <? h)%nat
  end.

Definition orelse {A} (x y : option A) : option A :=
  match x with Some _ => x | None => y end.

Fixpoint m (ml : bool) (r : re) (p : pos) (cs : caps)
         (k : pos -> caps -> option (pos * caps)) {struct r} : option (pos * caps) :=
  match r with
  | Eps => k p cs
  | Cls f =>
      match snd p with
      | ch :: rest => if f (Py.code ch) then k (Some ch, rest) cs else None
      | [] => None
      end
  | Seq a b => m ml a p cs (fun p' cs' => m ml b p' cs' k)
  | Alt a b => orelse (m ml a p cs k) (m ml b p cs k)
  | Bol => if at_bol ml p then k p cs else None
  | Eol => if at_eol ml p then k p cs else None
  | Grp n a => m ml a p cs (fun p' cs' => k p' ((n, between p p') :: cs'))
  | Ahead a =>
      match m ml a p cs (fun p' cs' => Some (p', cs')) with
      | Some (_, cs') => k p cs'
      | None => None
      end
  | Rep greedy lo hi a =>
      (fix loop (budget count : nat) (p : pos) (cs : caps) {struct budget}
         : option (pos * caps) :=
         let stop := if (lo <=? count)%nat then k p cs else None in
         match budget with
         | O => stop
         | S budget' =>
             let more :=
               if under count hi then
                 m ml a p cs (fun p' cs' =>
                   if (List.length (snd p') <? List.length (snd p))%nat
                   then loop budget' (S count) p' cs'
                   else None)
               else None in
             if greedy then orelse more stop else orelse stop more
         end) (List.length (snd p)) O p cs
  end.

(** One match: text before it, matched text, groups, position after it. *)
Record found := Found {
  before : string;
  matched : string;
  groups : caps;
  after : pos
}.

Definition match_at (ml : bool) (r : re) (p : pos) : option (pos * caps) :=
  m ml r p [] (fun p' cs' => Some (p', cs')).

(** Leftmost match at or after [p]; [skipped] is the text passed over. *)
Fixpoint search_from (ml : bool) (r : re) (skipped : string) (prev : option string)
         (rest : list string) {struct rest} : option found :=
  match match_at ml r (prev, rest) with
  | Some (q, cs) => Some (Found skipped (between (prev, rest) q) cs q)
  | None =>
      match rest with
      | [] => None
      | ch :: rest' => search_from ml r (skipped +:+ ch) (Some ch) rest'
      end
  end.

(** [re.search(r, s)] *)
Definition search (ml : bool) (r : re) (s : string) : option found :=
  search_from ml r "" None (Py.chars s).

(** [bool(re.match(r, s))]: a match at the start of [s]. *)
Definition matches (ml : bool) (r : re) (s : string) : bool :=
  match match_at ml r (None, Py.chars s) with Some _ => true | None => false end.

(** Group [n] of a match ([""] stands for a group that did not take part;
    every group of the patterns below takes part in every match). *)
Definition group (cs : caps) (n : nat) : string :=
  match List.find (fun c => Nat.eqb (fst c) n) cs with
  | Some c => snd c
  | None => ""
  end.

(** The successive non-overlapping matches from [p] on.  The patterns of
    this program never match the empty text, so each match shortens the
    remaining text and [fuel = 1 + length] is never exhausted. *)
Fixpoint finditer (fuel : nat) (ml : bool) (r : re) (prev : option string)
         (rest : list string) : list found * string :=
  match fuel with
  | O => ([], String.concat "" rest)
  | S fuel' =>
      match search_from ml r "" prev rest with
      | None => ([], String.concat "" rest)
      | Some f =>
          let '(fs, tail) := finditer fuel' ml r (fst (after f)) (snd (after f)) in
          (f :: fs, tail)
      end
  end.

(** All the matches of [r] in [s], and the text after the last one. *)
Definition scan (ml : bool) (r : re) (s : string) : list found * string :=
  finditer (S (List.length (Py.chars s))) ml r None (Py.chars s).

(** [re.split(r, s)] for a pattern with [ngroups] groups: the texts between
    the matches, each match contributing its groups in order. *)
Definition split (ml : bool) (ngroups : nat) (r : re) (s : string) : list string :=
  let '(fs, tail) := scan ml r s in
  flat_map (fun f => before f :: map (fun n => group (groups f) (S n)) (seq 0 ngroups)) fs
  ++ [tail].

(** [re.findall(r, s)] for a pattern with one group. *)
Definition findall1 (ml : bool) (r : re) (s : string) : list string :=
  map (fun f => group (groups f) 1) (fst (scan ml r s)).

(** [re.findall(r, s)] for a pattern with two groups. *)
Definition findall2 (ml : bool) (r : re) (s : string) : list (string * string) :=
  map (fun f => (group (groups f) 1, group (groups f) 2)) (fst (scan ml r s)).

(** [re.sub(r, '', s)] *)
Definition remove (ml : bool) (r : re) (s : string) : string :=
  let '(fs, tail) := scan ml r s in
  String.concat "" (map before fs) +:+ tail.

(** *** Pattern syntax *)

Definition chr (c : ascii) : re := Cls (N.eqb (Py.byte c)).
Definition upper (n : N) : bool := Py.in_range 65 90 n.                    (* [A-Z] *)
Definition alpha (n : N) : bool := Py.in_range 65 90 n || Py.in_range 97 122 n.
Definition digit : re := Cls Py.is_digit.                                (* \d *)
Definition space : re := Cls Py.space_code.                               (* \s *)
Definition nonspace : re := Cls (fun n => negb (Py.space_code n)).        (* \S *)
Definition dot : re := Cls (fun n => negb (n =? 10)%N).                   (* .  *)
Definition any : re := Cls (fun _ => true).                               (* . under DOTALL *)
Definition plus (a : re) : re := Rep true 1 None a.                      (* a+ *)
Definition star (a : re) : re := Rep true 0 None a.                      (* a* *)
Definition lazy_plus (a : re) : re := Rep false 1 None a.                (* a+? *)
Definition times (n : nat) (a : re) : re := Rep true n (Some n) a.       (* a{n} *)

Fixpoint lit (s : string) : re :=
  match s with
  | EmptyString => Eps
  | String c EmptyString => chr c
  | String c s' => Seq (chr c) (lit s')
  end.

(** The lower-case mapping IGNORECASE compares with: one character for
    every character. *)
Definition simple_lower (n : N) : N := if (n =? 0x130)%N then 0x69 else Py.lower_code n.

(** A literal of one byte under IGNORECASE: the characters of the same
    lower case, and with [i] the dotless i, with [s] the long s. *)
Definition ichr (c : ascii) : re :=
  let lo := simple_lower (Py.byte c) in
  Cls (fun n => (simple_lower n =? lo)%N
                || ((lo =? 0x69) && (n =? 0x131))%N
                || ((lo =? 0x73) && (n =? 0x17F))%N).

Fixpoint ilit (s : string) : re :=
  match s with
  | EmptyString => Eps
  | String c EmptyString => ichr c
  | String c s' => Seq (ichr c) (ilit s')
  end.

Fixpoint seqs (l : list re) : re :=
  match l with
  | [] => Eps
  | [a] => a
  | a :: l' => Seq a (seqs l')
  end.

Fixpoint alts (a : re) (l : list re) : re :=
  match l with
  | [] => a
  | b :: l' => Alt a (alts b l')
  end.

End Re.

(** ** docsai/retriever/ingest.py *)

Module Ingest.

(** [_hash(text)]: [hashlib.sha1(text.encode("utf-8")).hexdigest()] *)
Definition _hash (text : string) : string := Sha1.hexdigest text.

(** The [while i < len(words)] loop of [_chunk].  [fuel] bounds the number
    of iterations; [chunk_loop_fuel] shows that [len(words)] iterations
    always reach the loop's own exit. *)
Fixpoint chunk_loop (fuel : nat) (words : list string) (tok step i : Z) : list string :=
  match fuel with
  | O => []
  | S fuel' =>
      if i <? Py.len words
      then Py.join " " (Py.slice words i (i + tok))
           :: chunk_loop fuel' words tok step (i + step)
      else []
  end.

(** [_chunk(md, tok, overlap)] *)
Definition _chunk (md : string) (tok overlap : Z) : list string :=
  let words := Py.split md in
  if Py.len words <? 50 then []
  else
    let step := Z.max (tok - overlap) 1 in
    chunk_loop (List.length words) words tok step 0.

(** The identifier f-string [f"{origin_hash}_{idx}_{_hash(chunk)[:8]}"]. *)
Definition cid (origin_hash : string) (idx : nat) (chunk : string) : string :=
  origin_hash +:+ "_" +:+ Py.str_of_nat idx +:+ "_" +:+ Py.take 8 (_hash chunk).

(** [cfg["ingest"]] *)
Record ingest_cfg := IngestCfg {
  chunk_tokens : Z;
  chunk_overlap : Z;
  min_text_len : Z
}.

(** One entry of [docs]: identifier, text, and the metadata fields. *)
Record doc := Doc {
  doc_id : string;
  doc_text : string;
  doc_source : string;
  doc_chunk_index : nat;
  doc_source_type : string
}.

(** [enumerate(chunks)] *)
Definition enumerate {A} (l : list A) : list (nat * A) :=
  combine (seq 0 (List.length l)) l.

(** The [for idx, chunk in enumerate(chunks)] loop shared by the web and
    local branches of [ingest_profile]: chunks shorter than
    [min_text_len] are skipped, the others get their identifier. *)
Definition docs_of_chunks (cfg : ingest_cfg) (origin shown source_type : string)
           (chunks : list string) : list doc :=
  let origin_hash := _hash origin in
  flat_map (fun '(idx, chunk) =>
              if Py.str_len chunk <? min_text_len cfg then []
              else [Doc (cid origin_hash idx chunk)
                        (chunk +:+ String Re.nl (String Re.nl "(Source: " +:+ shown +:+ ")"))
                        origin idx source_type])
           (enumerate chunks).

Section Profile.
(** [_html_to_md] (BeautifulSoup and markdownify) and
    [FileParser.parse_file] are external: a page's markdown, and a
    file's content and displayed name when it parses. *)
Variable _html_to_md : string -> string.
Variable parse_file : string -> option (string * string).

(** [ingest_profile], web branch: the loop over [raw.items()]. *)
Definition web_docs (cfg : ingest_cfg) (raw : list (string * string)) : list doc :=
  flat_map (fun '(url, html) =>
              let md := _html_to_md html in
              if Py.str_len md <? 100 then []
              else docs_of_chunks cfg url url "web"
                     (_chunk md (chunk_tokens cfg) (chunk_overlap cfg)))
           raw.

(** [ingest_profile], local branch: the loop over the scanned files. *)
Definition local_docs (cfg : ingest_cfg) (files : list string) : list doc :=
  flat_map (fun filepath =>
              match parse_file filepath with
              | Some (content, filename) =>
                  if Py.str_len content <? 100 then []
                  else docs_of_chunks cfg filepath filename "local"
                         (_chunk content (chunk_tokens cfg) (chunk_overlap cfg))
              | None => []
              end)
           files.

(** The final pass of [ingest_profile]: keep the first entry of each
    identifier. *)
Fixpoint dedup_docs (seen : list string) (docs : list doc) : list doc :=
  match docs with
  | [] => []
  | d :: docs' =>
      if existsb (String.eqb (doc_id d)) seen then dedup_docs seen docs'
      else d :: dedup_docs (doc_id d :: seen) docs'
  end.

(** What [ingest_profile] says of an identifier: it comes from a crawled
    page or from a parsed local file, and from one of its chunks. *)
Definition profile_identifier (cfg : ingest_cfg) (raw : list (string * string))
           (files : list string) (identifier : string) : Prop :=
  (exists url html idx chunk,
      In (url, html) raw
      /\ nth_error (_chunk (_html_to_md html) (chunk_tokens cfg) (chunk_overlap cfg)) idx
         = Some chunk
      /\ identifier = cid (_hash url) idx chunk)
  \/ (exists filepath content filename idx chunk,
         In filepath files
         /\ parse_file filepath = Some (content, filename)
         /\ nth_error (_chunk content (chunk_tokens cfg) (chunk_overlap cfg)) idx
            = Some chunk
         /\ identifier = cid (_hash filepath) idx chunk).

(** The identifiers [ingest_profile] upserts for a mixed source. *)
Definition ingest_profile_ids (cfg : ingest_cfg) (raw : list (string * string))
           (files : list string) : list string :=
  map doc_id (dedup_docs [] (web_docs cfg raw ++ local_docs cfg files)).
End Profile.

(** *** The crawler *)

(** [HEADERS["User-Agent"]] *)
Definition USER_AGENT : string := "DocsAI/0.1 (+local; respectful crawler)".

(** A [requests] response: status, [Content-Type] header ([""] when
    absent), body. *)
Record response := Response {
  status_code : Z;
  content_type : string;
  body : string
}.

(** Network requests, in the order they are issued. *)
Inductive request :=
| GetRobots (url : string)
| GetPage (url : string).

Section Crawler.
(** [urllib.parse.urlparse]: the three components the crawler reads. *)
Variable url_scheme : string -> string.
Variable url_netloc : string -> string.
Variable url_path : string -> string.
(** [urllib.parse.urljoin] *)
Variable urljoin : string -> string -> string.
(** [urllib.robotparser]: parsing the body of robots.txt, and [can_fetch]. *)
Variable robots : Type.
Variable robots_parse : string -> robots.
Variable can_fetch : robots -> string -> string -> bool.
(** The network: [requests.get]; [None] is a raised exception. *)
Variable http_get : string -> option response.
(** The [href] attributes of the anchors of a page (BeautifulSoup),
    already stripped. *)
Variable hrefs : string -> list string.

(** [_is_allowed_path(url, start_domain, allowed_paths)] *)
Definition _is_allowed_path (url start_domain : string) (allowed_paths : list string) : bool :=
  if negb (String.eqb (url_netloc url) (url_netloc start_domain)) then false
  else
    match allowed_paths with
    | [] => true
    | _ =>
        let path := if String.eqb (url_path url) "" then "/" else url_path url in
        existsb (fun p => Py.startswith path p) allowed_paths
    end.

(** [_robots_cache]: host key to parsed rules, [None] meaning "no valid
    robots.txt, allow all". *)
Abbreviation robots_cache := (gmap string (option robots)).

(** [domain_key = f"{parsed.scheme}://{parsed.netloc}"] *)
Definition domain_key (start_domain : string) : string :=
  url_scheme start_domain +:+ "://" +:+ url_netloc start_domain.

Definition robots_url (key : string) : string := key +:+ "/robots.txt".

(** The [try] block of [_robots_allowed]: the cache entry made from the
    response to the robots.txt request.  Rules are kept only for a 200
    response whose Content-Type does not contain text/html; any other
    response, and any exception, gives [None]. *)
Definition fetch_robots (key : string) : option robots :=
  match http_get (robots_url key) with
  | Some r =>
      if (status_code r =? 200) && negb (Py.contains (content_type r) "text/html")
      then Some (robots_parse (body r))
      else None
  | None => None
  end.

(** The answer read from a cache entry: [rp.can_fetch(UA, url)], or
    [True] when the entry is [None]. *)
Definition verdict (entry : option robots) (url : string) : bool :=
  match entry with
  | Some rp => can_fetch rp USER_AGENT url
  | None => true
  end.

(** [_robots_allowed(start_domain, url, respect)]: the answer, the cache
    afterwards, and the requests issued. *)
Definition _robots_allowed (cache : robots_cache) (start_domain url : string)
           (respect : bool) : bool * robots_cache * list request :=
  if negb respect then (true, cache, [])
  else
    let key := domain_key start_domain in
    let '(cache, reqs) :=
      match cache !! key with
      | Some _ => (cache, [])
      | None => (<[key := fetch_robots key]> cache, [GetRobots (robots_url key)])
      end in
    match cache !! key with
    | Some entry => (verdict entry url, cache, reqs)
    | None => (true, cache, reqs)
    end.

(** The on-disk cache: file name to the text the file holds. *)
Definition cache_file (url : string) : string := _hash url +:+ ".html".

(** [_read_cache(cache_dir, url)]: the text [read_text] gives, its line
    endings translated; a file that cannot be read counts as absent. *)
Definition _read_cache (cache_dir : gmap string string) (url : string) : option string :=
  Py.universal_newlines <$> cache_dir !! cache_file url.

(** [_write_cache(cache_dir, url, html)], the write succeeding (a write
    that fails is passed over in silence and may leave the file absent or
    cut short), where the line separator is the newline. *)
Definition _write_cache (cache_dir : gmap string string) (url html : string)
  : gmap string string :=
  <[cache_file url := html]> cache_dir.

(** The state of [crawl_website]'s loop, with the module-level robots
    cache, the cache directory and the requests issued so far. *)
Record crawl_state := Crawl {
  frontier : list (string * Z);
  seen : gset string;
  out : list (string * string);
  rcache : robots_cache;
  cache_dir : gmap string string;
  requests : list request
}.

Definition skip_href (href : string) : bool :=
  Py.startswith href "#" || Py.startswith href "mailto:" || Py.startswith href "javascript:".

(** The links of an accepted page that are enqueued. *)
Definition discovered (base_domain : string) (allowed_paths : list string)
           (url html : string) (depth : Z) : list (string * Z) :=
  flat_map (fun href =>
              if skip_href href then []
              else
                let nxt := urljoin url href in
                if _is_allowed_path nxt base_domain allowed_paths
                then [(nxt, depth + 1)] else [])
           (hrefs html).

(** "load cached or fetch": the page if one is accepted, the cache
    directory afterwards, the request issued on a cache miss.  Only a
    200 response of type text/html is accepted and cached. *)
Definition load_page (cd : gmap string string) (url : string)
  : option string * gmap string string * list request :=
  match _read_cache cd url with
  | Some html => (Some html, cd, [])
  | None =>
      match http_get url with
      | Some r =>
          if negb (status_code r =? 200)
             || negb (Py.contains (content_type r) "text/html")
          then (None, cd, [GetPage url])
          else (Some (body r), _write_cache cd url (body r), [GetPage url])
      | None => (None, cd, [GetPage url])
      end
  end.

(** One iteration of [while frontier] (without an [on_page] callback). *)
Definition crawl_step (base_domain : string) (allowed_paths : list string)
           (max_depth : Z) (st : crawl_state) : crawl_state :=
  match frontier st with
  | [] => st
  | (url, depth) :: rest =>
      if decide (url ∈ seen st) then
        Crawl rest (seen st) (out st) (rcache st) (cache_dir st) (requests st)
      else
        let seen' := {[url]} ∪ seen st in
        if negb (_is_allowed_path url base_domain allowed_paths) then
          Crawl rest seen' (out st) (rcache st) (cache_dir st) (requests st)
        else
          let '(ok, rc, reqs) := _robots_allowed (rcache st) base_domain url true in
          if negb ok then
            Crawl rest seen' (out st) rc (cache_dir st) (requests st ++ reqs)
          else
            let '(page, cd, reqs') := load_page (cache_dir st) url in
            match page with
            | None =>
                Crawl rest seen' (out st) rc cd (requests st ++ reqs ++ reqs')
            | Some html =>
                let out' := out st ++ [(url, html)] in
                let more := if max_depth <=? depth then []
                            else discovered base_domain allowed_paths url html depth in
                Crawl (rest ++ more) seen' out' rc cd (requests st ++ reqs ++ reqs')
            end
  end.

Definition is_robots_request (r : request) : bool :=
  match r with GetRobots _ => true | GetPage _ => false end.

(** The robots.txt requests among [reqs]. *)
Definition robots_requests (reqs : list request) : list request :=
  List.filter is_robots_request reqs.

Fixpoint crawl_loop (fuel : nat) (base_domain : string) (allowed_paths : list string)
         (max_depth : Z) (st : crawl_state) : crawl_state :=
  match fuel with
  | O => st
  | S fuel' =>
      match frontier st with
      | [] => st
      | _ => crawl_loop fuel' base_domain allowed_paths max_depth
               (crawl_step base_domain allowed_paths max_depth st)
      end
  end.

(** [crawl_website(start_url, allowed_paths, max_depth, cache_dir)], run
    for at most [fuel] iterations from the given robots and disk
    caches. *)
Definition crawl_website (fuel : nat) (rc : robots_cache) (cd : gmap string string)
           (start_url : string) (allowed_paths : list string) (max_depth : Z) : crawl_state :=
  let base_domain := url_scheme start_url +:+ "://" +:+ url_netloc start_url in
  crawl_loop fuel base_domain allowed_paths max_depth
             (Crawl [(start_url, 0)] ∅ [] rc cd []).
(** *** Vocabulary of the crawler's properties *)

(** The path the prefixes are compared with: [u.path or "/"]. *)
Definition effective_path (url : string) : string :=
  if String.eqb (url_path url) "" then "/" else url_path url.

(** Gate (a), as the claim words it, relative to the URL [origin]. *)
Definition same_host_and_prefix (origin : string) (allowed_paths : list string)
           (url : string) : Prop :=
  url_netloc url = url_netloc origin
  /\ (allowed_paths = []
      \/ exists p, In p allowed_paths /\ Py.startswith (effective_path url) p = true).

(** The entry that decides the robots gate during a crawl that starts with
    the robots cache [rc]: the cached one, or else the one fetched. *)
Definition rules (rc : robots_cache) (key : string) : option robots :=
  match rc !! key with
  | Some entry => entry
  | None => fetch_robots key
  end.

(** What holds of the crawl state all along: every page request passed both
    gates, and the robots cache is the initial one, with the host's entry
    added by the single robots.txt request if one was made. *)
Record crawl_inv (rc : robots_cache) (base_domain : string)
       (allowed_paths : list string) (st : crawl_state) : Prop := {
  inv_pages : forall u, In (GetPage u) (requests st) ->
              _is_allowed_path u base_domain allowed_paths = true
              /\ verdict (rules rc (domain_key base_domain)) u = true;
  inv_robots :
    (robots_requests (requests st) = [] /\ rcache st = rc)
    \/ (robots_requests (requests st) = [GetRobots (robots_url (domain_key base_domain))]
        /\ rc !! domain_key base_domain = None
        /\ rcache st
           = <[domain_key base_domain := fetch_robots (domain_key base_domain)]> rc)
}.

End Crawler.

End Ingest.

(** ** docsai/document_intelligence.py *)

Module DocIntel.
Import Py Re.

(** *** DocumentIntelligence *)

Record category := Category {
  cat_name : string;
  patterns : list string;
  extensions : list string;
  cat_strategy : string;
  cat_chunk_size : Z
}.

(** [self.categories], in insertion order. *)
Definition categories : list category :=
  [ Category "technical"
      ["manual"; "guide"; "documentation"; "readme"; "install"; "setup"; "config"]
      [".md"; ".txt"; ".pdf"] "section_aware" 1000;
    Category "conversation"
      ["transcript"; "chat"; "conversation"; "meeting"; "call"; "interview"]
      [".txt"; ".json"; ".csv"] "conversation_aware" 800;
    Category "correspondence"
      ["email"; "memo"; "letter"; "message"]
      [".eml"; ".msg"; ".txt"] "message_boundary" 600;
    Category "reference"
      ["api"; "reference"; "specification"; "schema"]
      [".json"; ".yaml"; ".md"] "endpoint_aware" 500;
    Category "literature"
      ["book"; "chapter"; "article"; "paper"; "journal"]
      [".epub"; ".pdf"; ".txt"] "chapter_aware" 1200;
    Category "data"
      ["report"; "analysis"; "statistics"; "metrics"; "log"]
      [".csv"; ".json"; ".log"; ".txt"] "record_aware" 400;
    Category "media"
      ["subtitle"; "caption"; "lyrics"; "script"]
      [".srt"; ".vtt"; ".txt"] "time_aware" 300 ].

Definition count_in (pats : list string) (s : string) : Z :=
  len (List.filter (fun pat => contains s pat) pats).

(** The score of one category in [categorize_document]. *)
Definition score (filepath content : string) (c : category) : Z :=
  let filename_lower := lower (path_name filepath) in
  let content_sample := lower (take 1000 content) in
  10 * count_in (patterns c) filename_lower
  + (if existsb (String.eqb (lower (path_suffix filepath))) (extensions c) then 5 else 0)
  + 3 * count_in (patterns c) content_sample.

(** [max(items, key=lambda x: x[1])]: the first item of maximal key. *)
Definition max_by_snd {A} (first : A * Z) (others : list (A * Z)) : A * Z :=
  fold_left (fun best x => if snd best <? snd x then x else best) others first.

(** [_get_extractors] *)
Definition _get_extractors (name : string) : list string :=
  if String.eqb name "technical" then ["version"; "product"; "sections"]
  else if String.eqb name "conversation" then ["participants"; "datetime"; "topics"]
  else if String.eqb name "correspondence" then ["sender"; "recipient"; "date"; "subject"]
  else if String.eqb name "reference" then ["endpoints"; "methods"; "parameters"]
  else if String.eqb name "literature" then ["author"; "title"; "chapters"]
  else if String.eqb name "data" then ["date_range"; "metrics"; "summary"]
  else if String.eqb name "media" then ["duration"; "speakers"; "timestamps"]
  else ["basic"].

(** The dictionary [categorize_document] returns; [confidence] is the
    exact rational the float denotes. *)
Record categorization := Categorization {
  category_of : string;
  confidence : Q;
  chunk_strategy : string;
  chunk_size_of : Z;
  metadata_extractors : list string
}.

Definition general : categorization :=
  Categorization "general" (3 # 10) "sliding_window" 800 ["basic"].

Definition FLOOR : Z := 5.
Definition CEILING : Z := 20.

Definition scores (filepath content : string) : list (category * Z) :=
  map (fun c => (c, score filepath content c)) categories.

Definition best_category (filepath content : string) : category * Z :=
  match scores filepath content with
  | [] => (Category "" [] [] "" 0, 0)
  | first :: others => max_by_snd first others
  end.

(** [categorize_document(filepath, content)] *)
Definition categorize_document (filepath content : string) : categorization :=
  let best := best_category filepath content in
  if snd best <? FLOOR then general
  else
    let c := fst best in
    Categorization (cat_name c)
                   (Qmin (inject_Z (snd best) / inject_Z CEILING) 1)
                   (cat_strategy c) (cat_chunk_size c)
                   (_get_extractors (cat_name c)).

(** *** SmartChunker *)

Inductive pyval :=
| VStr (s : string)
| VInt (z : Z)
| VBool (b : bool)
| VNone.

(** A chunk dictionary: its [text] and [type] entries, then the other
    entries in insertion order. *)
Record chunk_dict := Chunk {
  text : string;
  type : string;
  fields : list (string * pyval)
}.

Definition nonempty {A} (l : list A) : bool :=
  match l with [] => false | _ => true end.

Definition NL : string := String nl "".

(** The dictionary appended for the window starting at word [i]. *)
Definition window (words : list string) (chunk_size i : Z) : chunk_dict :=
  Chunk (join " " (slice words i (i + chunk_size))) "sliding_window"
        [("start_idx", VInt i); ("end_idx", VInt (Z.min (i + chunk_size) (len words)))].

(** [chunk_sliding_window(content, chunk_size, overlap)] *)
Definition chunk_sliding_window (content : string) (chunk_size overlap : Z)
  : result (list chunk_dict) :=
  let words := Py.split content in
  bind (range 0 (len words) (chunk_size - overlap)) (fun starts =>
  Ok (map (window words chunk_size) starts)).

(** [re.search(pattern, content)] finds something. *)
Definition found (multiline : bool) (pattern : re) (content : string) : bool :=
  match search multiline pattern content with
  | Some _ => true
  | None => false
  end.

(** [section_pattern] = (^#{1,6}\s+.+$|^=+$|^-+$|\n\n\n+), MULTILINE *)
Definition section_pattern : re :=
  Grp 1 (alts (seqs [Bol; Rep true 1 (Some 6%nat) (chr "#"); plus space; plus dot; Eol])
              [seqs [Bol; plus (chr "="); Eol];
               seqs [Bol; plus (chr "-"); Eol];
               seqs [chr nl; chr nl; plus (chr nl)]]).

Definition section_chunk (current_chunk : list string) (boundary : string) : chunk_dict :=
  Chunk (join " " current_chunk) "section" [("boundary", VStr boundary)].

(** The body of [for section in sections], on
    [(chunks, current_chunk, current_size)]. *)
Definition sections_step (chunk_size overlap : Z)
           (st : list chunk_dict * list string * Z) (section : string)
  : list chunk_dict * list string * Z :=
  let '(chunks, current_chunk, current_size) := st in
  let section_words := Py.split section in
  let section_size := len section_words in
  let '(chunks, current_chunk, current_size) :=
    if (chunk_size <? current_size + section_size) && nonempty current_chunk then
      let kept := if (0 <? overlap) && (overlap <? len current_chunk)
                  then slice_from current_chunk (- overlap) else [] in
      (chunks ++ [section_chunk current_chunk "section_end"], kept, len kept)
    else (chunks, current_chunk, current_size) in
  (chunks, current_chunk ++ section_words, current_size + section_size).

(** [chunk_by_sections(content, chunk_size, overlap)] *)
Definition chunk_by_sections (content : string) (chunk_size overlap : Z)
  : result (list chunk_dict) :=
  let sections := Re.split true 1 section_pattern content in
  let '(chunks, current_chunk, _) :=
    fold_left (sections_step chunk_size overlap) sections ([], [], 0) in
  let chunks := if nonempty current_chunk
                then chunks ++ [section_chunk current_chunk "document_end"]
                else chunks in
  if nonempty chunks then Ok chunks
  else chunk_sliding_window content chunk_size overlap.

(** [turn_pattern] = ^([A-Z][A-Za-z\s]+):\s*(.+?)(?=^[A-Z][A-Za-z\s]+:|$),
    MULTILINE | DOTALL *)
Definition speaker_chars : re := plus (Cls (fun n => alpha n || space_code n)).

Definition turn_pattern : re :=
  seqs [Bol; Grp 1 (Seq (Cls upper) speaker_chars); chr ":"; star space;
        Grp 2 (lazy_plus any);
        Ahead (Alt (seqs [Bol; Cls upper; speaker_chars; chr ":"]) Eol)].

(** [current_speakers.add(speaker)]; the order in which Python lists a set
    is unspecified, insertion order is used here. *)
Definition set_add (x : string) (l : list string) : list string :=
  if existsb (String.eqb x) l then l else l ++ [x].

Definition conversation_chunk (current_chunk current_speakers : list string) : chunk_dict :=
  Chunk (join NL current_chunk) "conversation"
        [("speakers", VStr (join ", " current_speakers))].

Definition conversation_step (chunk_size overlap : Z)
           (st : list chunk_dict * list string * list string * Z) (turn : string * string)
  : list chunk_dict * list string * list string * Z :=
  let '(chunks, current_chunk, current_speakers, current_size) := st in
  let '(speaker, txt) := turn in
  let turn_size := len (Py.split txt) in
  let '(chunks, current_chunk, current_speakers, current_size) :=
    if (chunk_size <? current_size + turn_size) && nonempty current_chunk then
      let chunks' := chunks ++ [conversation_chunk current_chunk current_speakers] in
      if 0 <? overlap
      then (chunks', [speaker +:+ ": " +:+ take (Z.to_nat overlap) txt], [speaker],
            Z.min overlap turn_size)
      else (chunks', [], [], 0)
    else (chunks, current_chunk, current_speakers, current_size) in
  (chunks, current_chunk ++ [speaker +:+ ": " +:+ txt], set_add speaker current_speakers,
   current_size + turn_size).

(** [chunk_by_conversation(content, chunk_size, overlap)] *)
Definition chunk_by_conversation (content : string) (chunk_size overlap : Z)
  : result (list chunk_dict) :=
  let turns := findall2 true turn_pattern content in
  if negb (nonempty turns) then chunk_sliding_window content chunk_size overlap
  else
    let '(chunks, current_chunk, current_speakers, _) :=
      fold_left (conversation_step chunk_size overlap) turns ([], [], [], 0) in
    Ok (if nonempty current_chunk
        then chunks ++ [conversation_chunk current_chunk current_speakers]
        else chunks).

(** [message_boundary] = (From:|Subject:|Date:|---+|===+|\n\n\n+) *)
Definition message_boundary : re :=
  Grp 1 (alts (lit "From:")
              [lit "Subject:"; lit "Date:";
               Seq (lit "--") (plus (chr "-"));
               Seq (lit "==") (plus (chr "="));
               seqs [chr nl; chr nl; plus (chr nl)]]).

Definition message_chunk (current_chunk : list string) (boundary : string) : chunk_dict :=
  Chunk (join " " current_chunk) "message" [("boundary", VStr boundary)].

Definition messages_step (chunk_size : Z)
           (st : list chunk_dict * list string * Z) (msg : string)
  : list chunk_dict * list string * Z :=
  let '(chunks, current_chunk, current_size) := st in
  let msg_size := len (Py.split msg) in
  let '(chunks, current_chunk, current_size) :=
    if (chunk_size <? current_size + msg_size) && nonempty current_chunk
    then (chunks ++ [message_chunk current_chunk "message_end"], [], 0)
    else (chunks, current_chunk, current_size) in
  if negb (String.eqb (strip msg) "")
  then (chunks, current_chunk ++ [msg], current_size + msg_size)
  else (chunks, current_chunk, current_size).

(** [chunk_by_messages(content, chunk_size, overlap)] *)
Definition chunk_by_messages (content : string) (chunk_size overlap : Z)
  : result (list chunk_dict) :=
  let messages := Re.split false 1 message_boundary content in
  let '(chunks, current_chunk, _) :=
    fold_left (messages_step chunk_size) messages ([], [], 0) in
  let chunks := if nonempty current_chunk
                then chunks ++ [message_chunk current_chunk "thread_end"]
                else chunks in
  if nonempty chunks then Ok chunks
  else chunk_sliding_window content chunk_size overlap.

(** [endpoint_patterns], each wrapped in the group [re.split] adds:
    (^(GET|POST|PUT|DELETE|PATCH)\s+/\S+), (^### .+ Endpoint), (^## /\S+) *)
Definition endpoint_patterns : list (re * nat) :=
  [ (Grp 1 (seqs [Bol;
                  Grp 2 (alts (lit "GET") [lit "POST"; lit "PUT"; lit "DELETE"; lit "PATCH"]);
                  plus space; chr "/"; plus nonspace]), 2%nat);
    (Grp 1 (seqs [Bol; lit "### "; plus dot; lit " Endpoint"]), 1%nat);
    (Grp 1 (seqs [Bol; lit "## /"; plus nonspace]), 1%nat) ].

Definition endpoint_chunk (current_chunk : list string) (current_endpoint : pyval) : chunk_dict :=
  Chunk (join NL current_chunk) "api_endpoint" [("endpoint", current_endpoint)].

Definition endpoints_step (pattern : re)
           (st : list chunk_dict * list string * pyval) (part : string)
  : list chunk_dict * list string * pyval :=
  let '(chunks, current_chunk, current_endpoint) := st in
  if matches false pattern part then
    ((if nonempty current_chunk
      then chunks ++ [endpoint_chunk current_chunk current_endpoint] else chunks),
     [part], VStr (strip part))
  else (chunks, current_chunk ++ [part], current_endpoint).

(** [chunk_by_endpoints(content, chunk_size, overlap)] *)
Definition chunk_by_endpoints (content : string) (chunk_size overlap : Z)
  : result (list chunk_dict) :=
  match List.find (fun p => found true (fst p) content) endpoint_patterns with
  | Some (pattern, ngroups) =>
      let endpoints := Re.split true ngroups pattern content in
      let '(chunks, current_chunk, current_endpoint) :=
        fold_left (endpoints_step pattern) endpoints ([], [], VNone) in
      Ok (if nonempty current_chunk
          then chunks ++ [endpoint_chunk current_chunk current_endpoint]
          else chunks)
  | None => chunk_by_sections content chunk_size overlap
  end.

(** [chapter_patterns], wrapped: (^Chapter\s+\d+), (^CHAPTER\s+[IVX]+),
    (^\d+\.\s+[A-Z]) *)
Definition roman (n : N) : bool :=
  (n =? byte "I")%N || (n =? byte "V")%N || (n =? byte "X")%N.

Definition chapter_patterns : list re :=
  [ Grp 1 (seqs [Bol; lit "Chapter"; plus space; plus digit]);
    Grp 1 (seqs [Bol; lit "CHAPTER"; plus space; plus (Cls roman)]);
    Grp 1 (seqs [Bol; plus digit; chr "."; plus space; Cls upper]) ].

(** The body of [for i in range(0, len(chapters), 2)]. *)
Definition chapters_step (content_parts : list string) (chunk_size overlap : Z)
           (acc : result (list chunk_dict)) (i : Z) : result (list chunk_dict) :=
  bind acc (fun chunks =>
  if i + 1 <? len content_parts then
    let at_ k := nth (Z.to_nat k) content_parts "" in
    let chapter_title := if 0 <? i then VStr (at_ i) else VNone in
    let chapter_content := if i =? 0 then at_ (i + 1) else at_ i +:+ at_ (i + 1) in
    if chunk_size <? len (Py.split chapter_content) then
      bind (chunk_sliding_window chapter_content chunk_size overlap) (fun sub_chunks =>
      Ok (chunks ++ map (fun c => Chunk (text c) "chapter_section"
                                        (fields c ++ [("chapter", chapter_title)]))
                        sub_chunks))
    else Ok (chunks ++ [Chunk chapter_content "chapter" [("chapter", chapter_title)]])
  else Ok chunks).

(** [chunk_by_chapters(content, chunk_size, overlap)] *)
Definition chunk_by_chapters (content : string) (chunk_size overlap : Z)
  : result (list chunk_dict) :=
  match List.find (fun p => found true p content) chapter_patterns with
  | Some pattern =>
      let chapters := Re.split true 1 pattern content in
      bind (range 0 (len chapters) 2) (fun idxs =>
      fold_left (chapters_step chapters chunk_size overlap) idxs (Ok []))
  | None => chunk_by_sections content chunk_size overlap
  end.

Definition records_chunk (header : string) (current_chunk : list string) : chunk_dict :=
  Chunk (header +:+ NL +:+ join NL current_chunk) "records"
        [("record_count", VInt (len current_chunk))].

Definition records_step (header : string) (chunk_size : Z)
           (st : list chunk_dict * list string) (line : string) : list chunk_dict * list string :=
  let '(chunks, current_chunk) := st in
  let current_chunk := current_chunk ++ [line] in
  if chunk_size <? len (Py.split (join NL current_chunk))
  then (chunks ++ [records_chunk header current_chunk], [])
  else (chunks, current_chunk).

Definition TAB : string := String (ascii_of_nat 9) "".

(** The test [len(lines) > 1 and all(',' in line or '\t' in line for line
    in lines[:5])]. *)
Definition looks_structured (lines : list string) : bool :=
  (1 <? len lines)
  && forallb (fun line => contains line "," || contains line TAB) (slice_to lines 5).

(** [chunk_by_records(content, chunk_size, overlap)] *)
Definition chunk_by_records (content : string) (chunk_size overlap : Z)
  : result (list chunk_dict) :=
  let lines := split_on nl "" content in
  if looks_structured lines then
    let header := nth 0 lines "" in
    let '(chunks, current_chunk) :=
      fold_left (records_step header chunk_size) (slice_from lines 1) ([], []) in
    Ok (if nonempty current_chunk
        then chunks ++ [records_chunk header current_chunk] else chunks)
  else chunk_sliding_window content chunk_size overlap.

(** [timestamp_patterns]: (\d{2}:\d{2}:\d{2}), (\[\d{2}:\d{2}\]), (\d{2}:\d{2}) *)
Definition dd : re := times 2 digit.

Definition timestamp_patterns : list re :=
  [ Grp 1 (seqs [dd; chr ":"; dd; chr ":"; dd]);
    Grp 1 (seqs [chr "["; dd; chr ":"; dd; chr "]"]);
    Grp 1 (seqs [dd; chr ":"; dd]) ].

Definition timed_chunk (current_chunk : list string) : chunk_dict :=
  Chunk (join " " current_chunk) "timed_content" [("has_timestamps", VBool true)].

Definition timestamps_step (pattern : re) (chunk_size : Z)
           (st : list chunk_dict * list string * option string) (part : string)
  : list chunk_dict * list string * option string :=
  let '(chunks, current_chunk, current_time) := st in
  if matches false pattern part then (chunks, current_chunk, Some part)
  else
    let entry := match current_time with
                 | Some t => if String.eqb t "" then part else t +:+ " " +:+ part
                 | None => part
                 end in
    let current_chunk := current_chunk ++ [entry] in
    if chunk_size <? len (Py.split (join " " current_chunk))
    then (chunks ++ [timed_chunk current_chunk], [], current_time)
    else (chunks, current_chunk, current_time).

(** [chunk_by_timestamps(content, chunk_size, overlap)] *)
Definition chunk_by_timestamps (content : string) (chunk_size overlap : Z)
  : result (list chunk_dict) :=
  match List.find (fun p => found false p content) timestamp_patterns with
  | Some pattern =>
      let parts := Re.split false 1 pattern content in
      let '(chunks, current_chunk, _) :=
        fold_left (timestamps_step pattern chunk_size) parts ([], [], None) in
      Ok (if nonempty current_chunk
          then chunks ++ [timed_chunk current_chunk] else chunks)
  | None => chunk_sliding_window content chunk_size overlap
  end.

(** [self.strategies], the dispatch table. *)
Definition strategies : list (string * (string -> Z -> Z -> result (list chunk_dict))) :=
  [ ("sliding_window", chunk_sliding_window);
    ("section_aware", chunk_by_sections);
    ("conversation_aware", chunk_by_conversation);
    ("message_boundary", chunk_by_messages);
    ("endpoint_aware", chunk_by_endpoints);
    ("chapter_aware", chunk_by_chapters);
    ("record_aware", chunk_by_records);
    ("time_aware", chunk_by_timestamps) ].

(** [chunk(content, strategy, chunk_size, overlap)]:
    [self.strategies.get(strategy, self.chunk_sliding_window)] applied. *)
Definition chunk (content strategy : string) (chunk_size overlap : Z)
  : result (list chunk_dict) :=
  match List.find (fun e => String.eqb (fst e) strategy) strategies with
  | Some (_, chunk_func) => chunk_func content chunk_size overlap
  | None => chunk_sliding_window content chunk_size overlap
  end.

End DocIntel.

(** ** docsai/ingestion_manager.py *)

Module Manager.
Import Py.

Inductive IngestionStatus :=
| IDLE | PREPARING | SCANNING | PROCESSING | INDEXING
| COMPLETED | FAILED | CANCELLED.

(** [status in [COMPLETED, FAILED, CANCELLED]] *)
Definition terminal (s : IngestionStatus) : bool :=
  match s with
  | COMPLETED | FAILED | CANCELLED => true
  | _ => false
  end.

(** The fields of [IngestionTask] the manager reads or writes. *)
Record IngestionTask := Task {
  id : string;
  profile_name : string;
  status : IngestionStatus;
  cancel_requested : bool
}.

(** [IngestionManager]: [tasks] by identifier; [active_task] refers to the
    task object stored under that identifier, so it is held as the
    identifier; [drawn] counts the calls of [uuid.uuid4]. *)
Record manager := Manager_ {
  tasks : gmap string IngestionTask;
  active_task : option string;
  drawn : nat
}.

(** The state after [__init__]. *)
Definition fresh : manager := Manager_ ∅ None 0.

(** The object [self.active_task] refers to. *)
Definition active (m : manager) : option IngestionTask :=
  match active_task m with
  | Some i => tasks m !! i
  | None => None
  end.

Section Start.
(** [str(uuid.uuid4())], as the sequence of identifiers drawn. *)
Variable uuid4 : nat -> string.

(** [start_ingestion(profile_name, config)]: the identifier returned and
    the manager afterwards. *)
Definition start_ingestion (m : manager) (profile : string) : string * manager :=
  let create :=
    let task_id := uuid4 (drawn m) in
    let task := Task task_id profile PREPARING false in
    (task_id, Manager_ (<[task_id := task]> (tasks m)) (Some task_id) (S (drawn m))) in
  match active m with
  | Some t =>
      if String.eqb (profile_name t) profile && negb (terminal (status t))
      then (id t, m)
      else create
  | None => create
  end.
End Start.

(** [cancel_task(task_id)] *)
Definition cancel_task (m : manager) (task_id : string) : bool * manager :=
  match tasks m !! task_id with
  | Some t =>
      match status t with
      | SCANNING | PROCESSING | INDEXING =>
          (true, Manager_ (<[task_id := Task (id t) (profile_name t) (status t) true]> (tasks m))
                          (active_task m) (drawn m))
      | _ => (false, m)
      end
  | None => (false, m)
  end.

(** The status changes the worker thread [_run_ingestion] makes. *)
Inductive advance : IngestionStatus -> IngestionStatus -> Prop :=
| adv_scan : advance PREPARING SCANNING
| adv_process : advance SCANNING PROCESSING
| adv_index : advance PROCESSING INDEXING
| adv_complete : advance INDEXING COMPLETED
| adv_cancel_scan : advance SCANNING CANCELLED
| adv_cancel_process : advance PROCESSING CANCELLED
| adv_cancel_index : advance INDEXING CANCELLED
| adv_fail s : terminal s = false -> advance s FAILED.

(** The non-terminal tasks of a profile. *)
Definition running (m : manager) (profile : string) : list IngestionTask :=
  List.filter (fun t => String.eqb (profile_name t) profile && negb (terminal (status t)))
              (map snd (map_to_list (tasks m))).

(** *** The PROCESSING phase of [_run_ingestion] *)

(** An entry of [all_files]. *)
Record file_info := FileInfo {
  f_type : string;
  f_path : string;
  f_content : string
}.

(** An entry of [all_chunks]: identifier, text and the metadata entries
    [source], [chunk_type], [chunk_index]. *)
Record chunk_record := ChunkRecord {
  chunk_id : string;
  chunk_text : string;
  source : string;
  chunk_type : string;
  chunk_index : nat
}.

Record processing := Processing {
  all_chunks : list chunk_record;
  errors : list string;
  warnings : list string
}.

(** [filename] in [_run_ingestion]: the URL of a page, the last component
    of the path of a local file ([Path(file_info['path']).name]). *)
Definition filename_of (file : file_info) : string :=
  if String.eqb (f_type file) "web" then f_path file else path_name (f_path file).

(** What [_run_ingestion] says of its [k]-th chunk record. *)
Definition run_identifier (all_files : list file_info) (k : nat) (c : chunk_record) : Prop :=
  chunk_id c = Ingest.cid (Ingest._hash (source c)) k (chunk_text c)
  /\ chunk_index c = k
  /\ exists file, In file all_files /\ source c = filename_of file.

Definition run_identifiers (all_files : list file_info) (all : list chunk_record) : Prop :=
  forall k c, nth_error all k = Some c -> run_identifier all_files k c.

Section Run.
(** [_html_to_md] and [FileParser.parse_file(path)['content']] are
    external. *)
Variable _html_to_md : string -> string.
Variable parse_file : string -> option string.

(** The records appended for the chunks of one document:
    [chunk_id = f"{_hash(filename)}_{len(all_chunks)}_{_hash(chunk_data['text'])[:8]}"]. *)
Fixpoint append_chunks (filename : string) (chunks : list DocIntel.chunk_dict)
         (all : list chunk_record) : list chunk_record :=
  match chunks with
  | [] => all
  | chunk_data :: chunks' =>
      let n := List.length all in
      append_chunks filename chunks'
        (all ++ [ChunkRecord (Ingest.cid (Ingest._hash filename) n (DocIntel.text chunk_data))
                             (DocIntel.text chunk_data) filename
                             (DocIntel.type chunk_data) n])
  end.

(** The body of [for i, file_info in enumerate(all_files)] with no
    cancellation requested, for names and texts that UTF-8 can encode (on
    a lone surrogate [_hash] raises, which ends the loop over the chunks of
    the file with an error entry). *)
Definition process_file (st : processing) (file : file_info) : processing :=
  let loaded :=
    if String.eqb (f_type file) "web"
    then Some (_html_to_md (f_content file), f_path file)
    else match parse_file (f_path file) with
         | Some content => if String.eqb content "" then None
                           else Some (content, path_name (f_path file))
         | None => None
         end in
  match loaded with
  | None =>
      Processing (all_chunks st) (errors st)
                 (warnings st ++ ["Failed to parse: " +:+ f_path file])
  | Some (content, filename) =>
      if str_len content <? 100 then st
      else
        let doc_category := DocIntel.categorize_document filename content in
        match DocIntel.chunk content (DocIntel.chunk_strategy doc_category)
                                  (DocIntel.chunk_size_of doc_category) 120 with
        | Ok chunks =>
            Processing (append_chunks filename chunks (all_chunks st))
                       (errors st) (warnings st)
        | Raise e =>
            Processing (all_chunks st)
                       (errors st ++ ["Error processing " +:+ f_path file +:+ ": "
                                      +:+ str_exn e])
                       (warnings st)
        end
  end.

Definition process_files (all_files : list file_info) : processing :=
  fold_left process_file all_files (Processing [] [] []).
End Run.

End Manager.

(** ** docsai/incremental_updater.py *)

Module Updater.
Import Py Re.

(** A call that may raise: the value, or [str(e)] of the exception. *)
Inductive outcome (A : Type) :=
| Got (a : A)
| Failed (msg : string).
Arguments Got {A} a.
Arguments Failed {A} msg.

(** A row of [document_metadata], as the SELECT of [check_url_changes]
    reads it. *)
Record row := Row {
  content_hash : string;
  last_modified : option string;
  etag : option string;
  content_length : option Z
}.

(** The headers of the HEAD response that are read. *)
Record headers := Headers {
  h_etag : option string;
  h_last_modified : option string;
  h_content_length : option string
}.

(** [changes['metadata']] *)
Record metadata := Metadata {
  m_content_hash : string;
  m_last_modified : option string;
  m_etag : option string;
  m_content_length : option Z;
  m_content : string
}.

(** The dictionary [check_url_changes] returns; [has_changed = None] is
    the unknown state, an entry that was never set is [None]. *)
Record changes := Changes {
  url : string;
  has_changed : option bool;
  is_new : bool;
  confidence : Q;
  old_hash : option string;
  new_hash : option string;
  signals : option (list string);
  new_metadata : option metadata;
  error : option string
}.

(** A row of [change_log] ([detected_at] is the wall clock, [processed]
    starts at 0). *)
Record change_record := ChangeRecord {
  c_url : string;
  c_change_type : string;
  c_old_hash : option string;
  c_new_hash : option string
}.

Definition DQ : ascii := ascii_of_nat 34.

Definition hexchar (n : N) : bool :=
  in_range 48 57 n || in_range 97 102 n || in_range 65 70 n.

(** The [patterns] of [_remove_dynamic_content], under IGNORECASE. *)
Definition dynamic_patterns : list re :=
  [ seqs [times 4 digit; chr "-"; times 2 digit; chr "-"; times 2 digit; ichr "T";
          times 2 digit; chr ":"; times 2 digit; chr ":"; times 2 digit];
    Seq (ilit "generated on ") (plus dot);
    Seq (ilit "last updated: ") (plus dot);
    seqs [lit "<!--"; Rep false 0 None dot; lit "-->"];
    seqs [ilit "data-timestamp="; chr DQ; star (Cls (fun n => negb (n =? byte DQ)%N)); chr DQ];
    seqs [ilit "id="; chr DQ; Rep true 8 None (Cls hexchar); chr DQ] ].

(** [_remove_dynamic_content(content)] *)
Definition _remove_dynamic_content (content : string) : string :=
  fold_left (fun content pattern => remove false pattern content) dynamic_patterns content.

(** Truth value of an optional header: present and not empty. *)
Definition truthy (h : option string) : bool :=
  match h with
  | Some s => negb (String.eqb s "")
  | None => false
  end.

Definition opt_eqb {A} (eqb : A -> A -> bool) (x y : option A) : bool :=
  match x, y with
  | Some a, Some b => eqb a b
  | None, None => true
  | _, _ => false
  end.

Section Check.
(** [hashlib.sha256(s.encode()).hexdigest()], [int] on a header value,
    the stored rows, and the network ([requests.head], [requests.get]
    giving the response text). *)
Variable sha256 : string -> string.
Variable int_of_str : string -> outcome Z.
Variable db : gmap string row.
Variable http_head : string -> outcome headers.
Variable http_get : string -> outcome string.

(** [calculate_content_hash(content)] *)
Definition calculate_content_hash (content : string) : string :=
  sha256 (_remove_dynamic_content (lower (strip content))).

(** The three header checks, in order; [int(current_length)] may raise. *)
Definition header_signals (existing : option row) (h : headers)
  : outcome (list (string * Q)) :=
  match existing with
  | None => Got []
  | Some r =>
      let s1 := if truthy (h_etag h) && negb (opt_eqb String.eqb (h_etag h) (etag r))
                then [("etag", 9 # 10)] else [] in
      let s2 := if truthy (h_last_modified h)
                   && negb (opt_eqb String.eqb (h_last_modified h) (last_modified r))
                then [("last_modified", 8 # 10)] else [] in
      if truthy (h_content_length h) then
        match int_of_str (default "" (h_content_length h)) with
        | Got n =>
            Got (s1 ++ s2 ++ (if negb (opt_eqb Z.eqb (Some n) (content_length r))
                              then [("content_length", 5 # 10)] else []))
        | Failed msg => Failed msg
        end
      else Got (s1 ++ s2)
  end.

(** [max(s[1] for s in signals)] for a non-empty list. *)
Definition max_weight (sigs : list (string * Q)) : Q :=
  fold_left (fun acc s => Qmax acc (snd s)) sigs 0%Q.

Definition failed (c : changes) (msg : string) : changes :=
  Changes (url c) None (is_new c) (confidence c) (old_hash c) (new_hash c)
          (signals c) (new_metadata c) (Some msg).

(** [check_url_changes(url)] *)
Definition check_url_changes (u : string) : changes :=
  let existing := db !! u in
  let changes0 :=
    Changes u (Some false) (bool_decide (existing = None)) 0%Q None None None None None in
  match http_head u with
  | Failed msg => failed changes0 msg
  | Got h =>
      match header_signals existing h with
      | Failed msg => failed changes0 msg
      | Got sigs =>
          if DocIntel.nonempty sigs || is_new changes0 then
            match http_get u with
            | Failed msg => failed changes0 msg
            | Got content =>
                let current_hash := calculate_content_hash content in
                let '(sigs, changed, old, new) :=
                  match existing with
                  | Some r =>
                      if negb (String.eqb current_hash (content_hash r))
                      then (sigs ++ [("content_hash", 1%Q)], true,
                            Some (content_hash r), Some current_hash)
                      else (sigs, false, None, None)
                  | None => (sigs, true, None, Some current_hash)
                  end in
                let c :=
                  Changes u (Some changed) (is_new changes0)
                          (if DocIntel.nonempty sigs then max_weight sigs else 0%Q)
                          old new
                          (if DocIntel.nonempty sigs then Some (map fst sigs) else None)
                          None None in
                let length :=
                  if truthy (h_content_length h)
                  then match int_of_str (default "" (h_content_length h)) with
                       | Got n => Got (Some n)
                       | Failed msg => Failed msg
                       end
                  else Got None in
                match length with
                | Failed msg => failed c msg
                | Got n =>
                    Changes u (Some changed) (is_new c) (confidence c) old new (signals c)
                            (Some (Metadata current_hash (h_last_modified h) (h_etag h) n content))
                            None
                end
            end
          else changes0
      end
  end.

(** [results] of [scan_for_changes], with the change log. *)
Record scan := Scan {
  unchanged : list string;
  updated : list string;
  new : list string;
  scan_errors : list string;
  change_log : list change_record
}.

(** The body of [for i, url in enumerate(urls, 1)]. *)
Definition scan_step (st : scan) (u : string) : scan :=
  let change_info := check_url_changes u in
  if truthy (error change_info) then
    Scan (unchanged st) (updated st) (new st) (scan_errors st ++ [u]) (change_log st)
  else if is_new change_info then
    Scan (unchanged st) (updated st) (new st ++ [u]) (scan_errors st) (change_log st)
  else if bool_decide (has_changed change_info = Some true) then
    Scan (unchanged st) (updated st ++ [u]) (new st) (scan_errors st)
         (change_log st ++ [ChangeRecord u "content" (old_hash change_info)
                                         (new_hash change_info)])
  else
    Scan (unchanged st ++ [u]) (updated st) (new st) (scan_errors st) (change_log st).

(** [scan_for_changes(urls)], from the change log [log]. *)
Definition scan_for_changes (log : list change_record) (urls : list string) : scan :=
  fold_left scan_step urls (Scan [] [] [] [] log).
End Check.

End Updater.

(** ** docsai/retriever/search.py *)

Module Search.
Import Py.

(** [cfg["retrieval"]] *)
Record retrieval_cfg := RetrievalCfg {
  k_bm25 : Z;
  k_embed : Z;
  combine_top_k : Z
}.

(** What [search] calls, in order. *)
Inductive call :=
| Count
| Get (limit : Z)
| LoadEmbedder
| Bm25Rank (top_k : Z)
| EmbedRank (top_k : Z).

Definition is_ranker (c : call) : bool :=
  match c with
  | Bm25Rank _ | EmbedRank _ => true
  | _ => false
  end.

(** [list(dict.fromkeys(l))]: the keys in order of first insertion. *)
Definition fromkeys (l : list nat) : list nat :=
  fold_left (fun keys x => if existsb (Nat.eqb x) keys then keys else keys ++ [x]) l [].

Section Search.
(** Chunk metadata dictionaries, and the empty one. *)
Variable meta : Type.
Variable no_meta : meta.
(** [np.argsort] of the BM25 scores, and of the cosine similarities. *)
Variable bm25_argsort : string -> list string -> list nat.
Variable embed_argsort : string -> list string -> list nat.
(** The index store: [coll.count()] and [coll.get(limit=n)] giving
    [ids], [documents], [metadatas]. *)
Variable count : Z.
Variable get : Z -> list string * list string * list meta.

(** [_bm25_rank(query, corpus, top_k)]: [argsort(scores)[::-1][:top_k]] *)
Definition _bm25_rank (query : string) (corpus : list string) (top_k : Z) : list nat :=
  slice_to (rev (bm25_argsort query corpus)) top_k.

(** [_top_k_embed(query, corpus, top_k, embedder)] *)
Definition _top_k_embed (query : string) (corpus : list string) (top_k : Z) : list nat :=
  slice_to (rev (embed_argsort query corpus)) top_k.

(** [(ids[i], docs[i], metadatas[i] if i < len(metadatas) else {})] *)
Definition hit (ids docs : list string) (metadatas : list meta) (i : nat)
  : result (string * string * meta) :=
  match nth_error ids i, nth_error docs i with
  | Some id, Some d => Ok (id, d, nth i metadatas no_meta)
  | _, _ => Raise IndexError
  end.

Fixpoint hits (ids docs : list string) (metadatas : list meta) (merged : list nat)
  : result (list (string * string * meta)) :=
  match merged with
  | [] => Ok []
  | i :: merged' =>
      bind (hit ids docs metadatas i) (fun h =>
      bind (hits ids docs metadatas merged') (fun hs => Ok (h :: hs)))
  end.

Definition merged_indices (cfg : retrieval_cfg) (question : string) (docs : list string)
  : list nat :=
  let bm_idx := _bm25_rank question docs (Z.min (k_bm25 cfg) (len docs)) in
  let em_idx := _top_k_embed question docs (Z.min (k_embed cfg) (len docs)) in
  slice_to (fromkeys (bm_idx ++ em_idx)) (combine_top_k cfg).

(** [search(cfg, paths, question)]: the result and the calls made. *)
Definition search (cfg : retrieval_cfg) (question : string)
  : result (list (string * string * meta)) * list call :=
  if count =? 0 then (Ok [], [Count])
  else
    let limit := Z.min 200 count in
    let '(ids, docs, metadatas) := get limit in
    match docs with
    | [] => (Ok [], [Count; Get limit])
    | _ =>
        (hits ids docs metadatas (merged_indices cfg question docs),
         [Count; Get limit; LoadEmbedder;
          Bm25Rank (Z.min (k_bm25 cfg) (len docs));
          EmbedRank (Z.min (k_embed cfg) (len docs))])
    end.
End Search.

End Search.

(** ** A concrete world for the examples

    Absolute [scheme://host/path] URLs, robots.txt rules addressed to every
    agent, and documents of a given number of words. *)

Module Fixture.
Import Py.

(** [s] cut at the first occurrence of [sep]. *)
Fixpoint cut (sep : string) (before : string) (s : string) : option (string * string) :=
  if String.prefix sep s then Some (before, drop (String.length sep) s)
  else match s with
       | EmptyString => None
       | String c s' => cut sep (snoc before c) s'
       end.

(** The prefix of [s] before the first character satisfying [stop]. *)
Fixpoint until (stop : ascii -> bool) (s : string) : string :=
  match s with
  | EmptyString => EmptyString
  | String c s' => if stop c then EmptyString else String c (until stop s')
  end.

Definition ends_netloc (c : ascii) : bool :=
  Ascii.eqb c "/" || Ascii.eqb c "?" || Ascii.eqb c "#".
Definition ends_path (c : ascii) : bool :=
  Ascii.eqb c "?" || Ascii.eqb c "#".

Definition url_scheme (u : string) : string :=
  match cut "://" "" u with Some (sch, _) => lower sch | None => "" end.

Definition url_netloc (u : string) : string :=
  match cut "://" "" u with Some (_, rest) => until ends_netloc rest | None => "" end.

Definition url_path (u : string) : string :=
  match cut "://" "" u with
  | Some (_, rest) => until ends_path (drop (String.length (until ends_netloc rest)) rest)
  | None => until ends_path u
  end.

(** Links are absolute URLs or absolute paths. *)
Definition urljoin (base href : string) : string :=
  if String.prefix "/" href
  then url_scheme base +:+ "://" +:+ url_netloc base +:+ href
  else href.

(** Rules of the group for every agent: allowance and path prefix, in
    file order. *)
Definition robots : Type := list (bool * string).

Definition field (line : string) : option (string * string) :=
  match cut ":" "" (until (Ascii.eqb "#") line) with
  | Some (k, v) => Some (lower (strip k), strip v)
  | None => None
  end.

Fixpoint parse_lines (in_star : bool) (lines : list string) : robots :=
  match lines with
  | [] => []
  | line :: lines' =>
      match field line with
      | Some (k, v) =>
          if String.eqb k "user-agent" then parse_lines (String.eqb v "*") lines'
          else if in_star && String.eqb k "disallow"
          then (String.eqb v "", v) :: parse_lines in_star lines'
          else if in_star && String.eqb k "allow"
          then (true, v) :: parse_lines in_star lines'
          else parse_lines in_star lines'
      | None => parse_lines in_star lines'
      end
  end.

Definition robots_parse (body : string) : robots :=
  parse_lines false (split_on Re.nl "" body).

Definition can_fetch (rules : robots) (useragent url : string) : bool :=
  let path := if String.eqb (url_path url) "" then "/" else url_path url in
  match List.find (fun r => startswith path (snd r)) rules with
  | Some r => fst r
  | None => true
  end.

(** The identifiers drawn by [uuid.uuid4], told apart by their rank. *)
Definition uuid4 (n : nat) : string := "task-" +:+ str_of_nat n.

(** A document of [n] words. *)
Definition words_doc (n : nat) : string := join " " (repeat "lorem" n).

(** A site: robots.txt served as text/plain forbids /private, two pages. *)
Definition robots_txt : string :=
  "User-agent: *" +:+ String Re.nl "Disallow: /private".

Definition site (u : string) : option Ingest.response :=
  if String.eqb u "https://docs.example/robots.txt"
  then Some (Ingest.Response 200 "text/plain" robots_txt)
  else if String.eqb u "https://docs.example/guide"
  then Some (Ingest.Response 200 "text/html; charset=utf-8" "guide page")
  else if String.eqb u "https://docs.example/private/keys"
  then Some (Ingest.Response 200 "text/html" "secret page")
  else None.

(** The anchors of the pages of [site]. *)
Definition site_hrefs (html : string) : list string :=
  if String.eqb html "guide page"
  then ["/private/keys"; "https://elsewhere.example/x"; "#top"; "/guide"]
  else [].

(** The crawl of [site] from its guide page, one level deep. *)
Definition sample_crawl : Ingest.crawl_state robots :=
  Ingest.crawl_website url_scheme url_netloc url_path
    urljoin robots robots_parse can_fetch
    site site_hrefs 10 ∅ ∅ "https://docs.example/guide" [] 1.

End Fixture.

(** ** Vocabulary of the statements *)

Module Spec.
Import Py.

(** A text without white space. *)
Definition spaceless (s : string) : bool :=
  forallb (fun ch => negb (is_space ch)) (chars s).

(** What [split] produces: a non-empty text without white space. *)
Definition word (w : string) : Prop := w <> "" /\ spaceless w = true.

(** A text made of continuation bytes only. *)
Definition conts (t : string) : bool := forallb is_cont (list_ascii_of_string t).

Definition starts_cont (l : list string) : bool :=
  match l with
  | String c _ :: _ => is_cont c
  | _ => false
  end.

(** A list of characters as [chars] reads them: a first byte with at most
    the continuation bytes it announces, with fewer only where no
    continuation byte follows. *)
Fixpoint segmented (l : list string) : Prop :=
  match l with
  | [] => True
  | ch :: l' =>
      (exists c t, ch = String c t /\ conts t = true
                   /\ (String.length t <= width c)%nat
                   /\ (String.length t = width c \/ starts_cont l' = false))
      /\ segmented l'
  end.

(** A text of ASCII characters. *)
Definition ascii_text (s : string) : bool :=
  forallb (fun c => (byte c <? 128)%N) (list_ascii_of_string s).

(** The [start_idx] and [end_idx] entries of a sliding-window chunk. *)
Definition int_field (key : string) (c : DocIntel.chunk_dict) : Z :=
  match List.find (fun e => String.eqb (fst e) key) (DocIntel.fields c) with
  | Some (_, DocIntel.VInt z) => z
  | _ => 0
  end.

Definition start_idx (c : DocIntel.chunk_dict) : Z := int_field "start_idx" c.
Definition end_idx (c : DocIntel.chunk_dict) : Z := int_field "end_idx" c.

(** Chunks come in document order: their start positions increase. *)
Definition document_order (chunks : list DocIntel.chunk_dict) : Prop :=
  StronglySorted Z.lt (map start_idx chunks).

(** Every word of [content] appears in some chunk, at its position. *)
Definition covers (content : string) (chunks : list DocIntel.chunk_dict) : Prop :=
  forall (j : nat) (w : string),
    nth_error (split content) j = Some w ->
    exists c, In c chunks
              /\ start_idx c <= Z.of_nat j < end_idx c
              /\ In w (split (DocIntel.text c)).

(** [y] is not among [keys]. *)
Definition absent (keys : list nat) (y : nat) : bool := negb (existsb (Nat.eqb y) keys).

(** The chunk identifier of a search result. *)
Definition chunk_identifier {meta : Type} (h : string * string * meta) : string :=
  fst (fst h).

(** The points of one signal, in the words of the specification:
    [weight] for each keyword of the category that occurs in [text]. *)
Fixpoint points (weight : Z) (keywords : list string) (text : string) : Z :=
  match keywords with
  | [] => 0
  | keyword :: keywords' =>
      (if contains text keyword then weight else 0) + points weight keywords' text
  end.

(** The score of a category under the fixed weighting, in the words of the
    specification: 10 for each keyword in the file name, 5 when the
    extension is one of the category's, 3 for each keyword in the first
    1000 characters of the content (letter case set aside). *)
Definition weighted_score (filepath content : string) (c : DocIntel.category) : Z :=
  points 10 (DocIntel.patterns c) (lower (path_name filepath))
  + (if bool_decide (lower (path_suffix filepath) ∈ DocIntel.extensions c) then 5 else 0)
  + points 3 (DocIntel.patterns c) (lower (take 1000 content)).

(** "Walk the list preserving only the first occurrence of each
    candidate", in the words of the specification. *)
Fixpoint first_occurrences (l : list nat) : list nat :=
  match l with
  | [] => []
  | x :: l' => x :: List.filter (fun y => negb (Nat.eqb y x)) (first_occurrences l')
  end.

End Spec.

(** ** docsai/ingestion_manager.py: calls and worker steps interleaved *)

Module Registry.
Import Manager.

(** What happens to the manager: a call of [start_ingestion], a call of
    [cancel_task], an assignment to [task.status] by the worker thread of a
    task. *)
Inductive event :=
| Start (profile : string)
| Cancel (task_id : string)
| Work (task_id : string) (s' : IngestionStatus).

(** The relation [advance] as a test. *)
Definition can_advance (s s' : IngestionStatus) : bool :=
  match s, s' with
  | PREPARING, SCANNING | SCANNING, PROCESSING
  | PROCESSING, INDEXING | INDEXING, COMPLETED => true
  | SCANNING, CANCELLED | PROCESSING, CANCELLED | INDEXING, CANCELLED => true
  | _, FAILED => negb (terminal s)
  | _, _ => false
  end.

(** [task.status = s'] in [_run_ingestion]: the worker follows [advance],
    and sets CANCELLED only after reading [task.cancel_requested]. *)
Definition set_status (m : manager) (task_id : string) (s' : IngestionStatus)
  : option manager :=
  match tasks m !! task_id with
  | Some t =>
      if can_advance (status t) s'
         && match s' with CANCELLED => cancel_requested t | _ => true end
      then Some (Manager_ (<[task_id := Task (id t) (profile_name t) s' (cancel_requested t)]>
                             (tasks m))
                          (active_task m) (drawn m))
      else None
  | None => None
  end.

Section Events.
Variable uuid4 : nat -> string.

Definition apply_event (m : manager) (e : event) : option manager :=
  match e with
  | Start profile => Some (snd (start_ingestion uuid4 m profile))
  | Cancel task_id => Some (snd (cancel_task m task_id))
  | Work task_id s' => set_status m task_id s'
  end.

(** The manager after a sequence of events; [None] when the sequence asks
    the worker for a step it cannot make. *)
Fixpoint run (events : list event) (m : manager) : option manager :=
  match events with
  | [] => Some m
  | e :: events' =>
      match apply_event m e with
      | Some m' => run events' m'
      | None => None
      end
  end.
End Events.

End Registry.

(** ** docsai/ingestion_manager.py: the INDEXING phase *)

Module Indexing.
Import Py Manager.

(** The batches upserted so far, [task.indexed_chunks], [task.status]. *)
Record indexing := Indexing_ {
  upserted : list (list chunk_record);
  indexed_chunks : Z;
  final : IngestionStatus
}.

Definition batch_size : Z := 100.

(** [for i in range(0, len(all_chunks), batch_size)], from its [k]-th
    iteration on.  [cancel_requested k] is what the [k]-th reading of
    [task.cancel_requested] gives, the flag being written by another
    thread. *)
Fixpoint index_loop (cancel_requested : nat -> bool) (all_chunks : list chunk_record)
         (k : nat) (starts : list Z) (st : indexing) : indexing :=
  match starts with
  | [] => st
  | i :: starts' =>
      if cancel_requested k then Indexing_ (upserted st) (indexed_chunks st) CANCELLED
      else
        let batch := slice all_chunks i (i + batch_size) in
        index_loop cancel_requested all_chunks (S k) starts'
          (Indexing_ (upserted st ++ [batch])
                     (Z.min (i + batch_size) (len all_chunks)) (final st))
  end.

(** [_run_ingestion] from [task.status = IngestionStatus.INDEXING] to the
    end; an exception would end in the handler that sets FAILED. *)
Definition index_chunks (cancel_requested : nat -> bool) (all_chunks : list chunk_record)
  : indexing :=
  let st0 := Indexing_ [] 0 INDEXING in
  let st :=
    if DocIntel.nonempty all_chunks then
      match range 0 (len all_chunks) batch_size with
      | Ok starts => index_loop cancel_requested all_chunks 0 starts st0
      | Raise _ => Indexing_ [] 0 FAILED
      end
    else st0 in
  match final st with
  | INDEXING => Indexing_ (upserted st) (indexed_chunks st) COMPLETED
  | _ => st
  end.

End Indexing.

(** ** docsai/document_intelligence.py: [extract_metadata] *)

Module Metadata.

Section Extract.
(** Metadata values, and the extractors; each returns a dictionary. *)
Variable value : Type.
Variable _extract_basic _extract_version _extract_datetime _extract_participants
         _extract_email_headers _extract_sections _extract_topics
  : string -> gmap string value.

(** [metadata.update(d)] *)
Definition update (metadata d : gmap string value) : gmap string value := d ∪ metadata.

(** The body of [for extractor in extractors]. *)
Definition extract_step (content : string) (metadata : gmap string value)
           (extractor : string) : gmap string value :=
  if String.eqb extractor "basic" then update metadata (_extract_basic content)
  else if String.eqb extractor "version" then update metadata (_extract_version content)
  else if String.eqb extractor "datetime" then update metadata (_extract_datetime content)
  else if String.eqb extractor "participants"
  then update metadata (_extract_participants content)
  else if String.eqb extractor "sender" then update metadata (_extract_email_headers content)
  else if String.eqb extractor "sections" then update metadata (_extract_sections content)
  else if String.eqb extractor "topics" then update metadata (_extract_topics content)
  else metadata.

(** [extract_metadata(content, extractors)] *)
Definition extract_metadata (content : string) (extractors : list string)
  : gmap string value :=
  fold_left (extract_step content) extractors ∅.
End Extract.

End Metadata.

(** ** docsai/incremental_updater.py: [update_only_changed] *)

Module Refresh.
Import Py Updater.

(** *** Calling [_chunk]

    [update_only_changed] calls [_chunk] of ingest.py with keyword
    arguments, so the binding of the arguments to the parameters
    [md, tok=800, overlap=120] is part of what it does. *)

Inductive arg :=
| AStr (s : string)
| AInt (z : Z).

Inductive exception :=
| TypeError
| AttributeError
| KeyError (key : string).

(** A call that returns or raises. *)
Inductive attempt (A : Type) :=
| Done (a : A)
| Raised (e : exception).
Arguments Done {A} a.
Arguments Raised {A} e.

(** A parameter while the arguments are bound: its name, the value it has
    so far (an argument, or its default), whether an argument was given. *)
Record slot := Slot {
  s_name : string;
  s_value : option arg;
  s_given : bool
}.

(** Positional arguments fill the parameters from the left; one too many
    is a [TypeError]. *)
Fixpoint bind_positional (params : list (string * option arg)) (args : list arg)
  : attempt (list slot) :=
  match params, args with
  | _, [] => Done (map (fun p => Slot (fst p) (snd p) false) params)
  | [], _ :: _ => Raised TypeError
  | (name, _) :: params', a :: args' =>
      match bind_positional params' args' with
      | Done slots => Done (Slot name (Some a) true :: slots)
      | Raised e => Raised e
      end
  end.

(** A keyword argument must name a parameter that has no argument yet:
    an unexpected keyword, or a second value for a parameter, is a
    [TypeError]. *)
Fixpoint bind_keyword (slots : list slot) (name : string) (a : arg) : attempt (list slot) :=
  match slots with
  | [] => Raised TypeError
  | s :: slots' =>
      if String.eqb (s_name s) name
      then (if s_given s then Raised TypeError
            else Done (Slot name (Some a) true :: slots'))
      else match bind_keyword slots' name a with
           | Done slots'' => Done (s :: slots'')
           | Raised e => Raised e
           end
  end.

Fixpoint bind_keywords (slots : list slot) (kwargs : list (string * arg))
  : attempt (list slot) :=
  match kwargs with
  | [] => Done slots
  | (name, a) :: kwargs' =>
      match bind_keyword slots name a with
      | Done slots' => bind_keywords slots' kwargs'
      | Raised e => Raised e
      end
  end.

(** Every parameter needs a value; a missing argument is a [TypeError]. *)
Fixpoint bound_values (slots : list slot) : attempt (list arg) :=
  match slots with
  | [] => Done []
  | s :: slots' =>
      match s_value s, bound_values slots' with
      | Some a, Done values => Done (a :: values)
      | None, _ => Raised TypeError
      | _, Raised e => Raised e
      end
  end.

Definition bind_call (params : list (string * option arg)) (args : list arg)
           (kwargs : list (string * arg)) : attempt (list arg) :=
  match bind_positional params args with
  | Done slots =>
      match bind_keywords slots kwargs with
      | Done slots' => bound_values slots'
      | Raised e => Raised e
      end
  | Raised e => Raised e
  end.

(** [def _chunk(md: str, tok=800, overlap=120)] *)
Definition _chunk_params : list (string * option arg) :=
  [("md", None); ("tok", Some (AInt 800)); ("overlap", Some (AInt 120))].

(** The body of [_chunk] on the bound values: [md.split()] needs a string;
    [tok - overlap] is reached with 50 words or more and needs numbers. *)
Definition _chunk_body (values : list arg) : attempt (list string) :=
  match values with
  | [AStr md; AInt tok; AInt overlap] => Done (Ingest._chunk md tok overlap)
  | [AStr md; _; _] => if len (split md) <? 50 then Done [] else Raised TypeError
  | _ => Raised AttributeError
  end.

(** A call of [_chunk] with positional and keyword arguments. *)
Definition call_chunk (args : list arg) (kwargs : list (string * arg))
  : attempt (list string) :=
  match bind_call _chunk_params args kwargs with
  | Done values => _chunk_body values
  | Raised e => Raised e
  end.

(** *** The update *)

(** [stats] *)
Record stats := Stats {
  updated_chunks : Z;
  new_chunks : Z;
  deleted_chunks : Z;
  preserved_chunks : Z;
  errors : list string
}.

(** The collection (identifier to document), the rows of
    [document_metadata], their [chunk_ids] column decoded (absent when the
    row is missing or the column empty), and [stats]. *)
Record world := World {
  coll : gmap string string;
  rows : gmap string row;
  chunk_ids : gmap string (list string);
  st : stats
}.

(** [coll.delete(ids=old_chunk_ids)] *)
Definition delete_ids (ids : list string) (c : gmap string string) : gmap string string :=
  fold_left (fun c i => delete i c) ids c.

(** The [for i, chunk_text in enumerate(chunks)] loop: one upsert per
    chunk. *)
Definition upsert_chunks (url : string) (chunks : list string) (c : gmap string string)
  : gmap string string :=
  fold_left (fun c ic => <[Ingest.cid (Ingest._hash url) (fst ic) (snd ic) := snd ic]> c)
            (Ingest.enumerate chunks) c.

Section Update.
(** The parameters of [check_url_changes], [_html_to_md], the text
    [str(e)] of an exception, and [config['ingest']]. *)
Variable sha256 : string -> string.
Variable int_of_str : string -> outcome Z.
Variable http_head : string -> outcome headers.
Variable http_get : string -> outcome string.
Variable _html_to_md : string -> string.
Variable str : exception -> string.
Variable cfg : Ingest.ingest_cfg.

(** The [try] block for one URL of [change_results['updated']]: the state
    it leaves, and the exception if it raises. *)
Definition update_url (w : world) (url : string) : world * option exception :=
  let w :=
    match chunk_ids w !! url with
    | Some old_chunk_ids =>
        World (delete_ids old_chunk_ids (coll w)) (rows w) (chunk_ids w)
              (Stats (updated_chunks (st w)) (new_chunks (st w))
                     (deleted_chunks (st w) + len old_chunk_ids)
                     (preserved_chunks (st w)) (errors (st w)))
    | None => w
    end in
  let change_info := check_url_changes sha256 int_of_str (rows w) http_head http_get url in
  match new_metadata change_info with
  | Some md =>
      if String.eqb (m_content md) "" then (w, None)
      else
        let content := _html_to_md (m_content md) in
        match call_chunk [AStr content]
                         [("chunk_tokens", AInt (Ingest.chunk_tokens cfg));
                          ("chunk_overlap", AInt (Ingest.chunk_overlap cfg))] with
        | Raised e => (w, Some e)
        | Done chunks =>
            let new_chunk_ids :=
              map (fun ic => Ingest.cid (Ingest._hash url) (fst ic) (snd ic))
                  (Ingest.enumerate chunks) in
            let w := World (upsert_chunks url chunks (coll w)) (rows w) (chunk_ids w)
                           (Stats (updated_chunks (st w) + len new_chunk_ids)
                                  (new_chunks (st w)) (deleted_chunks (st w))
                                  (preserved_chunks (st w)) (errors (st w))) in
            match new_hash change_info with
            | None => (w, Some (KeyError "new_hash"))
            | Some h =>
                match rows w !! url with
                | Some r =>
                    (World (coll w)
                           (<[url := Row h (last_modified r) (etag r) (content_length r)]>
                              (rows w))
                           (<[url := new_chunk_ids]> (chunk_ids w)) (st w),
                     None)
                | None => (w, None)
                end
            end
        end
  | None => (w, None)
  end.

(** The body of [for url in change_results['updated']], with its
    [except Exception as e] handler. *)
Definition update_step (w : world) (url : string) : world :=
  match update_url w url with
  | (w', Some e) =>
      World (coll w') (rows w') (chunk_ids w')
            (Stats (updated_chunks (st w')) (new_chunks (st w')) (deleted_chunks (st w'))
                   (preserved_chunks (st w')) (errors (st w') ++ [url +:+ ": " +:+ str e]))
  | (w', None) => w'
  end.

(** The body of [for url in change_results['new']]. *)
Definition new_step (w : world) (url : string) : world :=
  World (coll w) (rows w) (chunk_ids w)
        (Stats (updated_chunks (st w)) (new_chunks (st w) + 1) (deleted_chunks (st w))
               (preserved_chunks (st w)) (errors (st w))).

(** [update_only_changed(change_results, config)] on the collection and
    the metadata table given. *)
Definition update_only_changed (c : gmap string string) (r : gmap string row)
           (ids : gmap string (list string)) (updated new : list string) : world :=
  let w := World c r ids (Stats 0 0 0 0 []) in
  let w := fold_left update_step updated w in
  let w := fold_left new_step new w in
  World (coll w) (rows w) (chunk_ids w)
        (Stats (updated_chunks (st w)) (new_chunks (st w)) (deleted_chunks (st w))
               (Z.of_nat (size (coll w)) - updated_chunks (st w) - new_chunks (st w))
               (errors (st w))).
End Update.

End Refresh.

(** ** docsai/main.py: answering a question *)

Module Ask.
Import Py Re.

(** A search result: identifier, passage, and the [source_url] entry of the
    metadata when there is one. *)
Definition result : Type := string * string * option string.

Definition passage_of (r : result) : string := snd (fst r).
Definition url_of (r : result) : option string := snd r.

(** [if url not in seen_urls: cite_urls.append(url); seen_urls.add(url)] *)
Definition add_url (cite_urls : list string) (url : option string) : list string :=
  match url with
  | Some u => if existsb (String.eqb u) cite_urls then cite_urls else cite_urls ++ [u]
  | None => cite_urls
  end.

(** The loop over [search_results[:12]]: the passages, and the distinct
    source URLs in order of first appearance. *)
Definition collect (search_results : list result) : list string * list string :=
  fold_left (fun acc r => (fst acc ++ [passage_of r], add_url (snd acc) (url_of r)))
            (slice_to search_results 12) ([], []).

(** [citation_pattern] = \[(\d+)\] *)
Definition citation_pattern : re := seqs [chr "["; Grp 1 (plus digit); chr "]"].

(** [sys.int_info.default_max_str_digits] *)
Definition MAX_STR_DIGITS : Z := 4300.

(** [int(cite_num)] on a text of decimal digits: its value, or [str(e)] of
    the [ValueError] a text of more than [MAX_STR_DIGITS] digits raises. *)
Definition int_of_digits (s : string) : Updater.outcome Z :=
  let digits := chars s in
  if MAX_STR_DIGITS <? len digits then
    Updater.Failed
      ("Exceeds the limit (4300 digits) for integer string conversion: value has "
       +:+ str_of_nat (List.length digits)
       +:+ " digits; use sys.set_int_max_str_digits() to increase the limit")
  else Updater.Got (fold_left (fun n ch => 10 * n + digit_value (code ch)) digits 0).

(** The loop [for cite_num in citations_in_answer], from [referenced_urls]
    on; it ends with the first [int] that raises. *)
Fixpoint referenced (cite_urls citations_in_answer referenced_urls : list string)
  : Updater.outcome (list string) :=
  match citations_in_answer with
  | [] => Updater.Got referenced_urls
  | cite_num :: citations_in_answer' =>
      match int_of_digits cite_num with
      | Updater.Failed msg => Updater.Failed msg
      | Updater.Got n =>
          let idx := n - 1 in
          referenced cite_urls citations_in_answer'
            (if (0 <=? idx) && (idx <? len cite_urls) then
               let u := nth (Z.to_nat idx) cite_urls "" in
               if existsb (String.eqb u) referenced_urls then referenced_urls
               else referenced_urls ++ [u]
             else referenced_urls)
      end
  end.

(** The JSON response: its status, and the entries of its content. *)
Record response := Response {
  status_code : Z;
  answer : string;
  citations : list string;
  error : option string
}.

Definition NOT_INITIALIZED : string :=
  "Server not initialized. Please start with 'python -m docsai.main serve <profile>'".

Definition NO_DOCS : string :=
  "No relevant documentation found for your question. The database might be empty or need to be populated with 'python -m docsai.main ingest stripe'".

Definition NO_ANSWER : string :=
  "Unable to generate an answer. Please check if the LLM is properly configured.".

Definition NOT_FOUND : string := "not found in the provided documentation".

(** The response of the [except Exception as e] clause, and of the check
    that the server is initialised. *)
Definition failure (msg : string) : response := Response 500 "" [] (Some msg).

Section Ask.
(** Whether [global_cfg] and [global_profile] are set;
    [search_docs(global_cfg, profile_paths(global_profile), q)]; and
    [run_llm(global_cfg, q, passages, ...)] with the mode
    [detect_prompt_mode] chooses, the text generated ([""] for [None]).
    Each call gives its value, or [str(e)] of the exception it raises. *)
Variable initialized : bool.
Variable search_docs : string -> Updater.outcome (list result).
Variable run_llm : string -> list string -> Updater.outcome string.

(** [ask_http(q)] *)
Definition ask_http (q : string) : response :=
  if negb initialized then failure NOT_INITIALIZED
  else
    match search_docs q with
    | Updater.Failed msg => failure msg
    | Updater.Got search_results =>
        let '(passages, cite_urls) := collect search_results in
        if negb (DocIntel.nonempty passages) then Response 200 NO_DOCS [] None
        else
          match run_llm q passages with
          | Updater.Failed msg => failure msg
          | Updater.Got text =>
              let answer := strip text in
              let answer := if String.eqb answer "" then NO_ANSWER else answer in
              let cite_urls := if contains (lower answer) NOT_FOUND then [] else cite_urls in
              let citations_in_answer := findall1 false citation_pattern answer in
              if DocIntel.nonempty citations_in_answer then
                match referenced cite_urls citations_in_answer [] with
                | Updater.Got referenced_urls => Response 200 answer referenced_urls None
                | Updater.Failed msg => failure msg
                end
              else Response 200 answer cite_urls None
          end
    end.
End Ask.

End Ask.

(** ** docsai/config_loader.py *)

Module Config.

(** Configuration values: numbers, texts, lists of texts, dictionaries
    (entries in insertion order). *)
#[warnings="-register-all"]
Inductive value :=
| VInt (z : Z)
| VStr (s : string)
| VList (l : list string)
| VDict (entries : list (string * value)).

(** [d.get(k)] *)
Fixpoint get (k : string) (d : list (string * value)) : option value :=
  match d with
  | [] => None
  | (k', v) :: d' => if String.eqb k' k then Some v else get k d'
  end.

(** [d[k] = v]: the entry is replaced where it stands, or appended. *)
Fixpoint set (k : string) (v : value) (d : list (string * value)) : list (string * value) :=
  match d with
  | [] => [(k, v)]
  | (k', v') :: d' => if String.eqb k' k then (k, v) :: d' else (k', v') :: set k v d'
  end.

(** [_merge(a, b)] for a dictionary [b] given as a value; the inner loop is
    [for k, v in b.items()] on [out = dict(a)]. *)
Fixpoint merge_value (a : list (string * value)) (b : value) {struct b}
  : list (string * value) :=
  match b with
  | VDict entries =>
      (fix loop (out : list (string * value)) (entries : list (string * value))
           {struct entries} : list (string * value) :=
         match entries with
         | [] => out
         | (k, v) :: entries' =>
             loop (set k (match v, get k out with
                          | VDict _, Some (VDict o) => VDict (merge_value o v)
                          | _, _ => v
                          end) out)
                  entries'
         end) a entries
  | _ => a
  end.

(** [_merge(a, b)] *)
Definition _merge (a b : list (string * value)) : list (string * value) :=
  merge_value a (VDict b).

(** [_DEFAULTS] *)
Definition _DEFAULTS : list (string * value) :=
  [ ("retrieval", VDict [("k_bm25", VInt 40); ("k_embed", VInt 40); ("combine_top_k", VInt 10)]);
    ("ingest", VDict [("chunk_tokens", VInt 800); ("chunk_overlap", VInt 120);
                      ("min_text_len", VInt 180)]);
    ("server", VDict [("port", VInt 8080); ("cors_origins", VList ["http://localhost:5175"])]);
    ("model", VDict [("llm", VDict [("path", VStr ""); ("n_ctx", VInt 120000);
                                    ("n_gpu_layers", VInt 999); ("llama_binary", VStr "")]);
                     ("embedding", VDict [("hf_name", VStr "BAAI/bge-base-en-v1.5")])]) ].

(** [load_config(profile)] on the parsed YAML of the profile. *)
Definition load_config (cfg : list (string * value)) : list (string * value) :=
  _merge _DEFAULTS cfg.

(** [cfg[section][key]]; [None] stands for the [KeyError] or [TypeError]
    of a missing key or of a section that is not a dictionary. *)
Definition lookup2 (section key : string) (cfg : list (string * value)) : option value :=
  match get section cfg with
  | Some (VDict d) => get key d
  | _ => None
  end.

End Config.

(** * Properties *)

(** ** Python primitives *)

Section PyFacts.
Import Py Spec.

Lemma append_cons c (a b : string) : String c a +:+ b = String c (a +:+ b).
Proof. reflexivity. Qed.

Lemma snoc_append cur c w : snoc cur c +:+ w = cur +:+ String c w.
Proof.
  unfold snoc. induction cur as [|d cur IH]; [reflexivity|].
  rewrite !append_cons. now rewrite IH.
Qed.

Lemma append_empty_r (s : string) : s +:+ "" = s.
Proof.
  induction s as [|c s IH]; [reflexivity|]. rewrite append_cons. now rewrite IH.
Qed.

Lemma append_assoc' (a b c : string) : (a +:+ b) +:+ c = a +:+ (b +:+ c).
Proof.
  induction a as [|x a IH]; [reflexivity|]. rewrite !append_cons. now rewrite IH.
Qed.

Lemma text_cons (ch : string) (l : list string) :
  String.concat "" (ch :: l) = ch +:+ String.concat "" l.
Proof. destruct l; cbn [String.concat]; [now rewrite append_empty_r | reflexivity]. Qed.

Lemma text_app (l1 l2 : list string) :
  String.concat "" (l1 ++ l2) = String.concat "" l1 +:+ String.concat "" l2.
Proof.
  induction l1 as [|ch l1 IH]; [reflexivity|].
  rewrite <- app_comm_cons, !text_cons, IH. now rewrite append_assoc'.
Qed.

Lemma gather_zero ch l : gather 0 ch l = ch :: l.
Proof. destruct l; reflexivity. Qed.

Lemma cont_width c : is_cont c = true -> width c = 0%nat.
Proof.
  unfold is_cont, width. intros H. apply andb_true_iff in H as [_ H].
  cbv zeta. now rewrite H.
Qed.

Lemma gather_concat k : forall ch l,
  String.concat "" (gather k ch l) = ch +:+ String.concat "" l.
Proof.
  induction k as [|k IH]; intros ch l; [now rewrite gather_zero, text_cons|].
  destruct l as [|[|c [|d t]] l]; cbn [gather]; try apply text_cons.
  destruct (is_cont c); [|apply text_cons].
  rewrite IH, text_cons. now rewrite snoc_append.
Qed.

(** The characters of a text, put together again, are the text. *)
Lemma concat_chars s : String.concat "" (chars s) = s.
Proof.
  induction s as [|c s IH]; [reflexivity|]. cbn [chars].
  now rewrite gather_concat, IH.
Qed.

Lemma conts_snoc t c : conts t = true -> is_cont c = true -> conts (snoc t c) = true.
Proof.
  unfold conts, snoc. induction t as [|d t IH]; intros Ht Hc.
  - change ("" +:+ String c "") with (String c ""). cbn. now rewrite Hc.
  - rewrite append_cons. cbn in *. apply andb_true_iff in Ht as [Hd Ht].
    rewrite Hd. now apply IH.
Qed.

Lemma length_snoc t c : String.length (snoc t c) = S (String.length t).
Proof.
  unfold snoc. induction t as [|d t IH]; [reflexivity|].
  rewrite append_cons. cbn [String.length]. now rewrite IH.
Qed.

Lemma gather_segmented k : forall c t l,
  conts t = true -> (String.length t + k = width c)%nat -> segmented l ->
  segmented (gather k (String c t) l).
Proof.
  induction k as [|k IH]; intros c t l Ht Hk Hl.
  - rewrite gather_zero. split; [|exact Hl].
    exists c, t. repeat split; [exact Ht | lia | left; lia].
  - assert (Hstop : starts_cont l = false -> segmented (String c t :: l)).
    { intros Hs. split; [|exact Hl]. exists c, t. repeat split; [exact Ht | lia | now right]. }
    destruct l as [|u l]; [now apply Hstop|].
    destruct Hl as [(c2 & t2 & -> & Ht2 & Hlen2 & Hnext) Hl].
    destruct t2 as [|d t2]; cbn [gather].
    + destruct (is_cont c2) eqn:Hc2; [|now apply Hstop].
      change (snoc (String c t) c2) with (String c (snoc t c2)).
      apply IH; [now apply conts_snoc | rewrite length_snoc; lia | exact Hl].
    + apply Hstop. cbn [starts_cont].
      destruct (is_cont c2) eqn:Hc2; [|reflexivity].
      apply cont_width in Hc2. cbn [String.length] in Hlen2. lia.
Qed.

(** The characters of a text form a segmentation. *)
Lemma chars_segmented s : segmented (chars s).
Proof.
  induction s as [|c s IH]; [exact I|]. cbn [chars].
  apply gather_segmented; [reflexivity | cbn; lia | exact IH].
Qed.

Lemma chars_conts t : forall s, conts t = true ->
  chars (t +:+ s) = map (fun c => String c "") (list_ascii_of_string t) ++ chars s.
Proof.
  induction t as [|d t IH]; intros s Ht; [reflexivity|].
  unfold conts in Ht. cbn in Ht. apply andb_true_iff in Ht as [Hd Ht].
  rewrite append_cons. cbn [chars list_ascii_of_string map app].
  rewrite (cont_width d Hd), gather_zero. now rewrite IH.
Qed.

Lemma gather_conts t : forall k ch l,
  conts t = true -> (String.length t <= k)%nat ->
  (String.length t = k \/ starts_cont l = false) ->
  gather k ch (map (fun c => String c "") (list_ascii_of_string t) ++ l) = (ch +:+ t) :: l.
Proof.
  induction t as [|d t IH]; intros k ch l Ht Hk Hstop.
  - cbn [list_ascii_of_string map app]. rewrite append_empty_r.
    destruct k as [|k]; [apply gather_zero|].
    destruct Hstop as [Hstop|Hstop]; [discriminate|].
    destruct l as [|[|c [|e u]] l]; try reflexivity.
    cbn [starts_cont] in Hstop. cbn [gather]. now rewrite Hstop.
  - unfold conts in Ht. cbn in Ht. apply andb_true_iff in Ht as [Hd Ht].
    destruct k as [|k]; [cbn in Hk; lia|].
    cbn [list_ascii_of_string map app gather]. rewrite Hd.
    rewrite IH; [now rewrite snoc_append | exact Ht | cbn in Hk; lia |].
    destruct Hstop as [Hstop|Hstop]; [left; cbn in Hstop; lia | now right].
Qed.

(** A segmentation is the list of characters of its text. *)
Lemma segmented_chars l : segmented l -> chars (String.concat "" l) = l.
Proof.
  induction l as [|ch l IH]; [reflexivity|].
  intros [(c & t & -> & Ht & Hlen & Hnext) Hl].
  rewrite text_cons, append_cons. cbn [chars].
  rewrite chars_conts by exact Ht. rewrite IH by exact Hl.
  now rewrite gather_conts.
Qed.

Lemma segmented_app l1 l2 :
  segmented (l1 ++ l2) -> segmented l1 /\ segmented l2.
Proof.
  induction l1 as [|ch l1 IH]; [now split|].
  intros [(c & t & -> & Ht & Hlen & Hnext) Hl]. apply IH in Hl as [H1 H2].
  split; [|exact H2]. split; [|exact H1].
  exists c, t. repeat split; [exact Ht | exact Hlen |].
  destruct Hnext as [Hn|Hn]; [now left|]. right. now destruct l1.
Qed.

Lemma segmented_join l1 l2 :
  segmented l1 -> segmented l2 -> starts_cont l2 = false -> segmented (l1 ++ l2).
Proof.
  intros H1 H2 Hs. induction l1 as [|ch l1 IH]; [exact H2|].
  destruct H1 as [(c & t & -> & Ht & Hlen & Hnext) H1]. split; [|now apply IH].
  exists c, t. repeat split; [exact Ht | exact Hlen |].
  destruct Hnext as [Hn|Hn]; [now left|]. right. now destruct l1.
Qed.

(** In front of a character of one byte, a text keeps its characters. *)
Lemma chars_before_blank w rest :
  chars (w +:+ String " " rest) = chars w ++ " " :: chars rest.
Proof.
  rewrite <- (concat_chars w) at 1. rewrite <- (concat_chars rest) at 1.
  change (String " " (String.concat "" (chars rest)))
    with (" " +:+ String.concat "" (chars rest)).
  rewrite <- text_cons, <- text_app.
  apply segmented_chars, segmented_join; [apply chars_segmented | | reflexivity].
  split; [|apply chars_segmented].
  exists " "%char, "". repeat split; left; reflexivity.
Qed.

Lemma split_go_spaceless g : forall cur l,
  forallb (fun ch => negb (is_space ch)) g = true ->
  split_go cur (g ++ l) = split_go (cur +:+ String.concat "" g) l.
Proof.
  induction g as [|ch g IH]; intros cur l Hg.
  - cbn [String.concat app]. now rewrite append_empty_r.
  - cbn [forallb] in Hg. apply andb_true_iff in Hg as [Hch Hg].
    apply negb_true_iff in Hch. cbn [app split_go]. rewrite Hch.
    rewrite IH by exact Hg. now rewrite text_cons, append_assoc'.
Qed.

Lemma concat_nonempty g :
  segmented g -> g <> [] -> String.eqb (String.concat "" g) "" = false.
Proof.
  destruct g as [|ch g]; [congruence|].
  intros [(c & t & -> & _) _] _. rewrite text_cons. reflexivity.
Qed.

Lemma split_go_words l : forall g,
  segmented (g ++ l) -> forallb (fun ch => negb (is_space ch)) g = true ->
  Forall word (split_go (String.concat "" g) l).
Proof.
  induction l as [|ch l IH]; intros g Hseg Hg.
  - cbn [split_go]. rewrite app_nil_r in Hseg.
    destruct (String.eqb _ "") eqn:E; constructor; [|constructor].
    split; [intros H; rewrite H in E; discriminate|].
    unfold spaceless. now rewrite segmented_chars.
  - assert (Hl : segmented l).
    { apply segmented_app in Hseg as [_ Hseg].
      now apply (segmented_app [ch]) in Hseg as [_ Hseg]. }
    cbn [split_go]. destruct (is_space ch) eqn:Hch.
    + assert (Hrest : Forall word (split_go "" l)) by now apply (IH []).
      destruct (String.eqb _ "") eqn:E; [exact Hrest|]. constructor; [|exact Hrest].
      split; [intros H; rewrite H in E; discriminate|].
      unfold spaceless. apply segmented_app in Hseg as [Hseg _].
      now rewrite segmented_chars.
    + replace (String.concat "" g +:+ ch) with (String.concat "" (g ++ [ch]))
        by (rewrite text_app; cbn [String.concat]; reflexivity).
      apply IH; [now rewrite <- app_assoc|].
      rewrite forallb_app, Hg. cbn. now rewrite Hch.
Qed.

Lemma split_words s : Forall word (split s).
Proof. apply (split_go_words (chars s) []); [apply chars_segmented | reflexivity]. Qed.

(** Joining words with a blank and splitting again gives the words back. *)
Lemma split_join ws : Forall word ws -> split (join " " ws) = ws.
Proof.
  unfold split, join.
  induction 1 as [|w ws [Hne Hsp] Hws IH]; [reflexivity|].
  assert (Hw : String.eqb w "" = false) by now apply String.eqb_neq.
  destruct ws as [|w' ws'].
  - change (String.concat " " [w]) with w.
    rewrite <- (app_nil_r (chars w)).
    rewrite split_go_spaceless by exact Hsp.
    rewrite concat_chars. cbn [split_go]. change ("" +:+ w) with w. now rewrite Hw.
  - change (String.concat " " (w :: w' :: ws'))
      with (w +:+ String " " (String.concat " " (w' :: ws'))).
    rewrite chars_before_blank.
    rewrite split_go_spaceless by exact Hsp.
    rewrite concat_chars. change ("" +:+ w) with w.
    cbn [split_go]. change (is_space " ") with true. cbv iota.
    now rewrite Hw, IH.
Qed.

Lemma len_nonneg {A} (l : list A) : 0 <= len l.
Proof. unfold len. lia. Qed.

(** A slice from the start up to or past the end is the whole list. *)
Lemma slice_all {A} (l : list A) hi : len l <= hi -> slice l 0 hi = l.
Proof.
  intros H. pose proof (len_nonneg l) as Hl. unfold slice, clamp.
  replace (0 <? 0) with false by reflexivity.
  replace (hi <? 0) with false by (symmetry; apply Z.ltb_ge; lia).
  rewrite (Z.min_l 0) by lia. rewrite (Z.min_r hi) by lia.
  simpl skipn. unfold len. rewrite Z.sub_0_r, Nat2Z.id.
  apply firstn_all.
Qed.

Lemma Forall_slice {A} (P : A -> Prop) (l : list A) lo hi :
  Forall P l -> Forall P (slice l lo hi).
Proof.
  intros H. unfold slice. now apply Forall_take, Forall_drop.
Qed.

(** Inside its bounds a slice reads the list. *)
Lemma slice_nth {A} (l : list A) (a b : Z) (j : nat) x :
  0 <= a <= Z.of_nat j -> Z.of_nat j < b ->
  nth_error l j = Some x -> In x (slice l a b).
Proof.
  intros Ha Hb Hx.
  assert (Hj : (j < List.length l)%nat) by (apply nth_error_Some; congruence).
  unfold slice, clamp, len.
  replace (a <? 0) with false by (symmetry; apply Z.ltb_ge; lia).
  replace (b <? 0) with false by (symmetry; apply Z.ltb_ge; lia).
  rewrite (Z.min_l a) by lia.
  set (n := Z.to_nat a).
  set (k := Z.to_nat (Z.min b (Z.of_nat (List.length l)) - a)).
  assert (Hn : (n <= j)%nat) by lia.
  assert (Hk : (j - n < k)%nat) by lia.
  apply (nth_error_In _ (j - n)).
  rewrite nth_error_firstn.
  destruct (Nat.ltb_spec (j - n) k); [|lia].
  rewrite nth_error_skipn. now replace (n + (j - n))%nat with j by lia.
Qed.

End PyFacts.

(** ** The word-window chunkers *)

Section ChunkFacts.
Import Py Spec Ingest DocIntel.

Lemma chunk_loop_done fuel words tok step i :
  len words <= i -> chunk_loop fuel words tok step i = [].
Proof.
  intros H. destruct fuel; [reflexivity|]. simpl.
  now replace (i <? len words) with false by (symmetry; apply Z.ltb_ge; lia).
Qed.

(** The loop of [_chunk] leaves by its own test: any fuel of at least the
    number of words still ahead gives the same chunks. *)
Lemma chunk_loop_fuel words tok step : 1 <= step ->
  forall fuel1 fuel2 i, 0 <= i ->
    (Z.to_nat (len words - i) <= fuel1)%nat ->
    (Z.to_nat (len words - i) <= fuel2)%nat ->
    chunk_loop fuel1 words tok step i = chunk_loop fuel2 words tok step i.
Proof.
  intros Hstep. induction fuel1 as [|fuel1 IH]; intros fuel2 i Hi H1 H2.
  - rewrite (chunk_loop_done fuel2) by lia. reflexivity.
  - destruct fuel2 as [|fuel2].
    + rewrite (chunk_loop_done (S fuel1)) by lia. reflexivity.
    + simpl. destruct (i <? len words) eqn:E; [|reflexivity].
      apply Z.ltb_lt in E. f_equal. apply IH; lia.
Qed.

(** [_chunk] gives its loop enough fuel. *)
Lemma chunk_terminates words tok overlap fuel :
  (List.length words <= fuel)%nat ->
  chunk_loop fuel words tok (Z.max (tok - overlap) 1) 0
  = chunk_loop (List.length words) words tok (Z.max (tok - overlap) 1) 0.
Proof. intros H. apply chunk_loop_fuel; unfold len; lia. Qed.

(** Fewer than 50 words: no chunk at all. *)
Lemma chunk_below_threshold md tok overlap :
  (List.length (split md) < 50)%nat -> _chunk md tok overlap = [].
Proof.
  intros H. unfold _chunk.
  replace (len (split md) <? 50) with true; [reflexivity|].
  symmetry. apply Z.ltb_lt. unfold len. lia.
Qed.

(** Exactly 50 words with [tok = 800]: the threshold test passes and the
    first window already holds every word. *)
Lemma chunk_at_threshold md overlap :
  List.length (split md) = 50%nat -> overlap <= 750 ->
  _chunk md 800 overlap = [join " " (split md)].
Proof.
  intros H Hov. unfold _chunk.
  assert (Hlen : len (split md) = 50) by (unfold len; lia).
  rewrite Hlen. change (50 <? 50) with false. cbv iota.
  destruct (List.length (split md)) as [|n]; [discriminate|].
  cbn [chunk_loop]. rewrite Hlen. change (0 <? 50) with true. cbv iota.
  rewrite slice_all by lia.
  rewrite chunk_loop_done by lia. reflexivity.
Qed.

(** C8 (amended): the minimum of [_chunk] is [len(words) < 50].  A
    document of fewer than 50 words yields zero chunks for every chunk size
    and overlap; a document of exactly 50 words is not below the minimum and,
    with chunk size 800 and an overlap of at most 750, yields one chunk
    holding all its words. *)
Theorem chunk_min_words md tok overlap :
  ((List.length (split md) < 50)%nat -> _chunk md tok overlap = [])
  /\ (List.length (split md) = 50%nat -> tok = 800 -> overlap <= 750 ->
      _chunk md tok overlap = [join " " (split md)]).
Proof.
  split.
  - apply chunk_below_threshold.
  - intros H -> Hov. now apply chunk_at_threshold.
Qed.

Lemma chunk_min_words_witness :
  _chunk (Fixture.words_doc 49) 800 120 = []
  /\ _chunk (Fixture.words_doc 50) 800 120 = [join " " (split (Fixture.words_doc 50))].
Proof.
  split.
  - apply (proj1 (chunk_min_words (Fixture.words_doc 49) 800 120)).
    vm_compute. lia.
  - apply (proj2 (chunk_min_words (Fixture.words_doc 50) 800 120));
      [vm_compute; reflexivity | reflexivity | lia].
Defined.

(** C8 as stated fails: a document of exactly 50 words, chunked with
    [chunk_size = 800], gives one chunk, by [_chunk] (overlap 120) and by
    [chunk_sliding_window] (overlap 100) alike. *)
Lemma chunk_fifty_words_counterexample :
  List.length (split (Fixture.words_doc 50)) = 50%nat
  /\ _chunk (Fixture.words_doc 50) 800 120 = [Fixture.words_doc 50]
  /\ _chunk (Fixture.words_doc 50) 800 120 <> []
  /\ chunk_sliding_window (Fixture.words_doc 50) 800 100
     = Ok [Chunk (Fixture.words_doc 50) "sliding_window"
                 [("start_idx", VInt 0); ("end_idx", VInt 50)]].
Proof.
  vm_compute. split; [reflexivity|]. split; [reflexivity|].
  split; [discriminate | reflexivity].
Qed.

(** *** [chunk_sliding_window] *)

Lemma window_start words cs i : start_idx (window words cs i) = i.
Proof. reflexivity. Qed.

Lemma window_end words cs i : end_idx (window words cs i) = Z.min (i + cs) (len words).
Proof. reflexivity. Qed.

Lemma sliding_window_pos content cs ov : 0 < cs - ov ->
  chunk_sliding_window content cs ov
  = Ok (map (window (split content) cs)
            (map (fun k : nat => 0 + Z.of_nat k * (cs - ov))
                 (seq 0 (Z.to_nat (range_len 0 (len (split content)) (cs - ov)))))).
Proof.
  intros H. unfold chunk_sliding_window, range.
  replace (cs - ov =? 0) with false by (symmetry; apply Z.eqb_neq; lia).
  reflexivity.
Qed.

Lemma strides_sorted (step : Z) : 0 < step -> forall n a,
  StronglySorted Z.lt (map (fun k : nat => 0 + Z.of_nat k * step) (seq a n)).
Proof.
  intros Hs. induction n as [|n IH]; intros a; simpl; constructor.
  - apply IH.
  - apply List.Forall_forall. intros x Hx.
    apply in_map_iff in Hx as (k & <- & Hk). apply in_seq in Hk. nia.
Qed.

(** The number of windows reaches the window of every word. *)
Lemma range_len_covers (n step j : Z) :
  0 < step -> 0 <= j < n -> j / step < range_len 0 n step.
Proof.
  intros Hs Hj. unfold range_len.
  replace (0 <? step) with true by (symmetry; apply Z.ltb_lt; lia).
  replace (0 <? n) with true by (symmetry; apply Z.ltb_lt; lia).
  assert (j / step <= (n - 0 - 1) / step) by (apply Z.div_le_mono; lia).
  lia.
Qed.

(** C10: [chunk_sliding_window] needs [overlap < chunk_size].  With
    [0 <= overlap < chunk_size] it returns chunks in document order in which
    every word of the content appears; with [overlap = chunk_size] it raises
    [ValueError] (the step of [range] is zero); with [overlap > chunk_size]
    it returns the empty list, whatever the content. *)
Theorem sliding_window_total content chunk_size overlap :
  (0 <= overlap < chunk_size ->
     exists chunks, chunk_sliding_window content chunk_size overlap = Ok chunks
                    /\ document_order chunks /\ covers content chunks)
  /\ (overlap = chunk_size ->
        chunk_sliding_window content chunk_size overlap = Raise ValueError)
  /\ (chunk_size < overlap ->
        chunk_sliding_window content chunk_size overlap = Ok []).
Proof.
  split; [|split].
  - intros Hov.
    set (step := chunk_size - overlap).
    assert (Hstep : 0 < step) by (unfold step; lia).
    eexists. split; [apply sliding_window_pos; exact Hstep|]. fold step. split.
    + unfold document_order. rewrite map_map.
      erewrite map_ext; [|intros; apply window_start].
      rewrite map_id. now apply strides_sorted.
    + intros j w Hw.
      assert (Hj : (j < List.length (split content))%nat)
        by (apply nth_error_Some; congruence).
      set (k := Z.of_nat j / step).
      assert (Hk0 : 0 <= k) by (apply Z.div_pos; lia).
      assert (Hkn : k < range_len 0 (len (split content)) step)
        by (apply range_len_covers; unfold len; lia).
      assert (Hlo : k * step <= Z.of_nat j).
      { unfold k. rewrite Z.mul_comm. apply Z.mul_div_le. lia. }
      assert (Hhi : Z.of_nat j < k * step + step).
      { unfold k. pose proof (Z.mod_pos_bound (Z.of_nat j) step Hstep).
        pose proof (Z.div_mod (Z.of_nat j) step). lia. }
      exists (window (split content) chunk_size (0 + Z.of_nat (Z.to_nat k) * step)).
      rewrite Z2Nat.id by lia. rewrite Z.add_0_l. split; [|split].
      * apply in_map, in_map_iff. exists (Z.to_nat k). split.
        -- now rewrite Z2Nat.id by lia.
        -- apply in_seq. lia.
      * rewrite window_start, window_end. unfold len, step in *. lia.
      * cbn [text window]. rewrite split_join.
        -- eapply slice_nth; [| |exact Hw]; unfold step in *; lia.
        -- apply Forall_slice, split_words.
  - intros ->. unfold chunk_sliding_window, range.
    now rewrite Z.sub_diag.
  - intros Hov. unfold chunk_sliding_window, range, range_len.
    replace (chunk_size - overlap =? 0) with false by (symmetry; apply Z.eqb_neq; lia).
    replace (0 <? chunk_size - overlap) with false by (symmetry; apply Z.ltb_ge; lia).
    replace (len (split content) <? 0) with false
      by (symmetry; apply Z.ltb_ge; apply len_nonneg).
    reflexivity.
Qed.

Lemma sliding_window_total_witness :
  (exists chunks, chunk_sliding_window "one two three four five" 3 1 = Ok chunks
                  /\ document_order chunks /\ covers "one two three four five" chunks)
  /\ chunk_sliding_window "one two three four five" 3 3 = Raise ValueError
  /\ chunk_sliding_window "one two three four five" 3 4 = Ok [].
Proof.
  destruct (sliding_window_total "one two three four five" 3 1) as (H1 & _ & _).
  destruct (sliding_window_total "one two three four five" 3 3) as (_ & H2 & _).
  destruct (sliding_window_total "one two three four five" 3 4) as (_ & _ & H3).
  split; [apply H1; lia | split; [apply H2; reflexivity | apply H3; lia]].
Defined.

End ChunkFacts.

(** ** The classifier *)

Section ClassifierFacts.
Import Py DocIntel.

(** [max] keeps the first item of greatest key: the items before it are
    strictly smaller, the items after it are no greater. *)
Lemma max_by_snd_first {A} (others : list (A * Z)) : forall l1 best l2,
  Forall (fun x => snd x < snd best) l1 ->
  Forall (fun x => snd x <= snd best) l2 ->
  exists l1' l2',
    l1 ++ best :: l2 ++ others = l1' ++ max_by_snd best others :: l2'
    /\ Forall (fun x => snd x < snd (max_by_snd best others)) l1'
    /\ Forall (fun x => snd x <= snd (max_by_snd best others)) l2'.
Proof.
  unfold max_by_snd.
  induction others as [|x others IH]; intros l1 best l2 H1 H2.
  - exists l1, l2. now rewrite app_nil_r.
  - cbn [fold_left]. destruct (snd best <? snd x) eqn:E.
    + apply Z.ltb_lt in E.
      destruct (IH (l1 ++ best :: l2) x []) as (l1' & l2' & Heq & Hlt & Hle).
      * apply Forall_app. split; [|constructor; [assumption|]].
        -- eapply List.Forall_impl; [|exact H1]. cbn. intros; lia.
        -- eapply List.Forall_impl; [|exact H2]. cbn. intros; lia.
      * constructor.
      * exists l1', l2'. split; [|now split].
        rewrite <- Heq. now rewrite <- !app_assoc.
    + apply Z.ltb_ge in E.
      destruct (IH l1 best (l2 ++ [x])) as (l1' & l2' & Heq & Hlt & Hle).
      * assumption.
      * apply Forall_app. split; [assumption|]. constructor; [assumption|constructor].
      * exists l1', l2'. split; [|now split].
        rewrite <- Heq. now rewrite <- !app_assoc.
Qed.

Lemma best_category_first filepath content :
  exists l1 l2,
    scores filepath content = l1 ++ best_category filepath content :: l2
    /\ Forall (fun x => snd x < snd (best_category filepath content)) l1
    /\ Forall (fun x => snd x <= snd (best_category filepath content)) l2.
Proof.
  unfold best_category.
  destruct (scores filepath content) as [|first others] eqn:E; [discriminate|].
  destruct (max_by_snd_first others [] first []) as (l1 & l2 & Heq & H1 & H2);
    [constructor..|].
  exists l1, l2. now split.
Qed.

Lemma points_count weight keywords text :
  Spec.points weight keywords text = weight * count_in keywords text.
Proof.
  unfold count_in, len. induction keywords as [|keyword keywords IH]; [cbn; lia|].
  cbn [Spec.points List.filter]. rewrite IH.
  destruct (contains text keyword); cbn [List.length]; lia.
Qed.

Lemma existsb_eqb_decide (x : string) (l : list string) :
  existsb (String.eqb x) l = bool_decide (x ∈ l).
Proof.
  destruct (existsb (String.eqb x) l) eqn:E; symmetry.
  - apply bool_decide_eq_true, list_elem_of_In.
    apply existsb_exists in E as (y & Hy & He). apply String.eqb_eq in He. now subst.
  - apply bool_decide_eq_false. rewrite list_elem_of_In. intros H.
    assert (existsb (String.eqb x) l = true); [|congruence].
    apply existsb_exists. exists x. split; [exact H | apply String.eqb_refl].
Qed.

(** The score the code computes is the score under the fixed weighting. *)
Lemma score_weighted filepath content c :
  score filepath content c = Spec.weighted_score filepath content c.
Proof.
  unfold score, Spec.weighted_score. cbv zeta.
  now rewrite !points_count, existsb_eqb_decide.
Qed.

(** C7: the score of a category is 10 for each of its keywords in the file
    name, 5 when the extension is one of its extensions, 3 for each of its
    keywords in the first 1000 characters of the content.  The result of
    [categorize_document] is decided by the highest of these scores, the
    first category of the table among equal ones: below the floor of 5 the
    result is the general category with the sliding window; otherwise it is
    that category, with confidence the score over 20 capped at 1. *)
Theorem categorize_document_spec filepath content :
  let best := best_category filepath content in
  (forall c, score filepath content c = Spec.weighted_score filepath content c)
  /\ snd best = Spec.weighted_score filepath content (fst best)
  /\ (exists before after,
        categories = before ++ fst best :: after
        /\ (forall c, In c before -> Spec.weighted_score filepath content c < snd best)
        /\ (forall c, In c after -> Spec.weighted_score filepath content c <= snd best))
  /\ (snd best < 5 ->
        categorize_document filepath content = general
        /\ category_of general = "general"
        /\ chunk_strategy general = "sliding_window")
  /\ (5 <= snd best ->
        categorize_document filepath content
        = Categorization (cat_name (fst best))
                         (Qmin (inject_Z (snd best) / 20) 1)
                         (cat_strategy (fst best)) (cat_chunk_size (fst best))
                         (_get_extractors (cat_name (fst best)))).
Proof.
  cbv zeta. split; [intros c; apply score_weighted|].
  destruct (best_category_first filepath content) as (l1 & l2 & Heq & H1 & H2).
  unfold scores in Heq.
  apply map_eq_app in Heq as (before & rest & Hcat & Hbefore & Hrest).
  apply map_eq_cons in Hrest as (c & after & -> & Hc & Hafter).
  split; [|split; [|split]].
  - rewrite <- Hc. cbn [fst snd]. apply score_weighted.
  - exists before, after. rewrite <- Hc at 1. cbn [fst]. split; [exact Hcat|]. split.
    + intros c' Hc'. rewrite <- score_weighted.
      apply (in_map (fun c => (c, score filepath content c))) in Hc'.
      rewrite Hbefore in Hc'. apply (proj1 (List.Forall_forall _ _) H1) in Hc'. exact Hc'.
    + intros c' Hc'. rewrite <- score_weighted.
      apply (in_map (fun c => (c, score filepath content c))) in Hc'.
      rewrite Hafter in Hc'. apply (proj1 (List.Forall_forall _ _) H2) in Hc'. exact Hc'.
  - intros Hlow. split; [|split; reflexivity].
    unfold categorize_document, FLOOR.
    now replace (snd (best_category filepath content) <? 5) with true
      by (symmetry; apply Z.ltb_lt; lia).
  - intros Hhigh. unfold categorize_document, FLOOR, CEILING.
    now replace (snd (best_category filepath content) <? 5) with false
      by (symmetry; apply Z.ltb_ge; lia).
Qed.

Lemma categorize_document_spec_witness :
  categorize_document "notes.bin" "nothing of note" = general
  /\ categorize_document "docs/setup-guide.md" "how to install"
     = Categorization "technical" 1 "section_aware" 1000 ["version"; "product"; "sections"].
Proof.
  split.
  - apply (proj1 (proj2 (proj2 (proj2 (categorize_document_spec "notes.bin" "nothing of note"))))).
    vm_compute. reflexivity.
  - pose proof (proj2 (proj2 (proj2 (proj2
      (categorize_document_spec "docs/setup-guide.md" "how to install"))))) as H.
    cbv zeta in H. rewrite H; [vm_compute; reflexivity | vm_compute; discriminate].
Defined.

End ClassifierFacts.

(** ** Rank fusion *)

Section FusionFacts.
Import Py Spec Search.

Lemma filter_filter_and {A} (p q : A -> bool) (l : list A) :
  List.filter p (List.filter q l) = List.filter (fun x => q x && p x) l.
Proof.
  induction l as [|x l IH]; [reflexivity|]. cbn [List.filter].
  destruct (q x); cbn [List.filter andb]; [destruct (p x)|]; now rewrite IH.
Qed.

Lemma absent_snoc keys x y :
  absent (keys ++ [x]) y = negb (Nat.eqb y x) && absent keys y.
Proof.
  unfold absent. rewrite existsb_app. cbn [existsb]. rewrite orb_false_r.
  rewrite negb_orb. apply andb_comm.
Qed.

(** [dict.fromkeys] started from the keys [keys] appends the first
    occurrences that are not yet keys. *)
Lemma fromkeys_from l : forall keys,
  fold_left (fun keys x => if existsb (Nat.eqb x) keys then keys else keys ++ [x]) l keys
  = keys ++ List.filter (absent keys) (first_occurrences l).
Proof.
  induction l as [|x l IH]; intros keys.
  - cbn. now rewrite app_nil_r.
  - cbn [fold_left first_occurrences List.filter].
    destruct (existsb (Nat.eqb x) keys) eqn:E.
    + rewrite IH. unfold absent at 2. rewrite E. cbn [negb]. f_equal.
      rewrite filter_filter_and. apply List.filter_ext_in. intros y _.
      destruct (Nat.eqb_spec y x) as [->|]; [|reflexivity].
      unfold absent. now rewrite E.
    + rewrite IH. unfold absent at 2. rewrite E. cbn [negb].
      rewrite <- app_assoc. cbn [app]. do 2 f_equal.
      rewrite filter_filter_and. apply List.filter_ext. intros y.
      apply absent_snoc.
Qed.

(** The code's deduplication is the specification's. *)
Lemma fromkeys_first_occurrences l : fromkeys l = first_occurrences l.
Proof.
  unfold fromkeys. rewrite fromkeys_from. cbn [app].
  rewrite <- (List.filter_ext (fun _ => true)) by reflexivity.
  induction (first_occurrences l) as [|y f IH]; [reflexivity|].
  cbn [List.filter]. now rewrite IH.
Qed.

Lemma first_occurrences_In l x : In x (first_occurrences l) -> In x l.
Proof.
  revert x. induction l as [|y l IH]; intros x; [tauto|].
  cbn [first_occurrences]. intros [->|H]; [now left|].
  apply List.filter_In in H as [H _]. right. now apply IH.
Qed.

Lemma first_occurrences_NoDup l : List.NoDup (first_occurrences l).
Proof.
  induction l as [|x l IH]; cbn [first_occurrences]; constructor.
  - intros H. apply List.filter_In in H as [_ H].
    now rewrite Nat.eqb_refl in H.
  - now apply List.NoDup_filter.
Qed.

Lemma slice_to_prefix {A} (l : list A) k :
  exists n, slice_to l k = firstn n l /\ (0 <= k -> Z.of_nat n <= k).
Proof.
  unfold slice_to, slice, clamp. change (0 <? 0) with false. cbv iota.
  pose proof (len_nonneg l) as Hl. rewrite (Z.min_l 0) by lia.
  cbn [Z.to_nat skipn]. eexists. split; [reflexivity|].
  intros Hk. replace (k <? 0) with false by (symmetry; apply Z.ltb_ge; lia). lia.
Qed.

Lemma slice_to_In {A} (l : list A) k x : In x (slice_to l k) -> In x l.
Proof.
  destruct (slice_to_prefix l k) as (n & -> & _).
  rewrite <- (firstn_skipn n l) at 2. intros H. apply in_or_app. now left.
Qed.

Lemma slice_to_NoDup {A} (l : list A) k : List.NoDup l -> List.NoDup (slice_to l k).
Proof.
  destruct (slice_to_prefix l k) as (n & -> & _).
  rewrite <- (firstn_skipn n l) at 1. apply NoDup_app_remove_r.
Qed.

Lemma slice_to_len {A} (l : list A) k : 0 <= k -> len (slice_to l k) <= k.
Proof.
  intros Hk. destruct (slice_to_prefix l k) as (n & -> & Hn).
  unfold len. rewrite List.length_firstn. specialize (Hn Hk). lia.
Qed.

Section Engine.
Variable meta : Type.
Variable no_meta : meta.
Variable bm25_argsort embed_argsort : string -> list string -> list nat.
Variable count : Z.
Variable get : Z -> list string * list string * list meta.

Abbreviation hit := (hit meta no_meta).
Abbreviation hits := (hits meta no_meta).
Abbreviation search := (search meta no_meta bm25_argsort embed_argsort count get).
Abbreviation _bm25_rank := (_bm25_rank bm25_argsort).
Abbreviation _top_k_embed := (_top_k_embed embed_argsort).
Abbreviation chunk_identifier := (@chunk_identifier meta).

(** With valid indices the comprehension of [search] raises nothing and
    reads the identifiers at those indices. *)
Lemma hits_ok ids docs metadatas merged :
  List.length ids = List.length docs ->
  Forall (fun i => (i < List.length docs)%nat) merged ->
  exists out, hits ids docs metadatas merged = Ok out
              /\ Forall2 (fun i h => hit ids docs metadatas i = Ok h) merged out
              /\ map chunk_identifier out = map (fun i => nth i ids "") merged.
Proof.
  intros Hlen. induction 1 as [|i merged Hi Hrest (out & Hout & Hall & Hids)].
  - exists []. repeat split. constructor.
  - assert (Hi' : (i < List.length ids)%nat) by lia.
    destruct (nth_error ids i) as [id|] eqn:Eid;
      [|apply nth_error_None in Eid; lia].
    destruct (nth_error docs i) as [d|] eqn:Ed;
      [|apply nth_error_None in Ed; lia].
    exists ((id, d, nth i metadatas no_meta) :: out).
    assert (Hhit : hit ids docs metadatas i = Ok (id, d, nth i metadatas no_meta))
      by (unfold Search.hit; now rewrite Eid, Ed).
    split; [|split].
    + cbn [Search.hits]. rewrite Hhit. cbn [bind]. rewrite Hout. reflexivity.
    + now constructor.
    + cbn [map chunk_identifier fst]. rewrite Hids. f_equal.
      symmetry. now apply nth_error_nth.
Qed.

(** C5: with the rankers returning orderings of the snapshot positions
    and the store returning as many distinct identifiers as documents,
    [search] returns a list without duplicate chunk identifiers, of length
    at most [combine_top_k], read at the positions "lexical top-K then
    semantic top-K, first occurrences only, truncated to [combine_top_k]";
    on an empty snapshot it returns the empty list and calls no ranker. *)
Theorem search_fusion (cfg : retrieval_cfg) (question : string)
  (Hbm : forall q c, Permutation (bm25_argsort q c) (seq 0 (List.length c)))
  (Hem : forall q c, Permutation (embed_argsort q c) (seq 0 (List.length c)))
  (Hstore : forall limit, List.NoDup (fst (fst (get limit)))
                          /\ List.length (fst (fst (get limit)))
                             = List.length (snd (fst (get limit))))
  (Hk : 0 <= combine_top_k cfg) :
  let ids := fst (fst (get (Z.min 200 count))) in
  let docs := snd (fst (get (Z.min 200 count))) in
  let metadatas := snd (get (Z.min 200 count)) in
  let lexical := _bm25_rank question docs (Z.min (k_bm25 cfg) (len docs)) in
  let semantic := _top_k_embed question docs (Z.min (k_embed cfg) (len docs)) in
  exists out,
    fst (search cfg question) = Ok out
    /\ List.NoDup (map chunk_identifier out)
    /\ len out <= combine_top_k cfg
    /\ (count = 0 \/ docs = [] ->
          out = [] /\ existsb is_ranker (snd (search cfg question)) = false)
    /\ (count <> 0 -> docs <> [] ->
          Forall2 (fun i h => hit ids docs metadatas i = Ok h)
                  (slice_to (first_occurrences (lexical ++ semantic)) (combine_top_k cfg))
                  out).
Proof.
  cbv zeta. unfold Search.search.
  destruct (Z.eqb_spec count 0) as [Hc|Hc].
  { exists []. cbn. split; [reflexivity|]. split; [constructor|].
    split; [unfold len; cbn; lia|]. split; [now split | congruence]. }
  specialize (Hstore (Z.min 200 count)).
  destruct (get (Z.min 200 count)) as [[ids docs] metadatas].
  cbn [fst snd] in *. destruct Hstore as [Hnd Hlen].
  destruct docs as [|d0 docs'] eqn:Edocs.
  { exists []. cbn. split; [reflexivity|]. split; [constructor|].
    split; [unfold len; cbn; lia|]. split; [now split | congruence]. }
  assert (Hdocs : docs <> []) by (rewrite Edocs; discriminate).
  rewrite <- Edocs in Hlen |- *. clear Edocs d0 docs'.
  set (merged := merged_indices bm25_argsort embed_argsort cfg question docs).
  assert (Hmerged : merged
            = slice_to (first_occurrences
                          (_bm25_rank question docs (Z.min (k_bm25 cfg) (len docs))
                           ++ _top_k_embed question docs (Z.min (k_embed cfg) (len docs))))
                       (combine_top_k cfg)).
  { unfold merged, merged_indices. now rewrite fromkeys_first_occurrences. }
  assert (Hvalid : Forall (fun i => (i < List.length docs)%nat) merged).
  { apply List.Forall_forall. intros i Hi. rewrite Hmerged in Hi.
    apply slice_to_In, first_occurrences_In, in_app_or in Hi.
    assert (Hseq : In i (seq 0 (List.length docs))).
    { destruct Hi as [Hi|Hi]; apply slice_to_In, in_rev in Hi;
        [eapply Permutation_in; [apply Hbm | exact Hi]
        |eapply Permutation_in; [apply Hem | exact Hi]]. }
    apply in_seq in Hseq. lia. }
  assert (Hmnd : List.NoDup merged).
  { rewrite Hmerged. apply slice_to_NoDup, first_occurrences_NoDup. }
  destruct (hits_ok ids docs metadatas merged Hlen Hvalid) as (out & Hout & Hall & Hids).
  exists out.
  destruct docs as [|d1 docs1]; [congruence|]. cbn [fst snd].
  fold merged. split; [exact Hout|]. split; [|split; [|split]].
  - rewrite Hids. apply List.NoDup_map_NoDup_ForallPairs; [|exact Hmnd].
    intros i j Hi Hj Heq.
    eapply List.Forall_forall in Hi; [|exact Hvalid].
    eapply List.Forall_forall in Hj; [|exact Hvalid]. cbn beta in Hi, Hj.
    eapply (proj1 (List.NoDup_nth ids "")); eauto; lia.
  - apply Forall2_length in Hall. unfold len. rewrite <- Hall.
    rewrite Hmerged. now apply slice_to_len.
  - intros [?|?]; congruence.
  - intros _ _. now rewrite <- Hmerged.
Qed.
End Engine.

(** An instance: three chunks, the lexical ranker prefers the last
    position, the semantic one the first. *)
Lemma search_fusion_witness :
  exists out,
    fst (search unit tt (fun _ c => seq 0 (List.length c)) (fun _ c => rev (seq 0 (List.length c)))
                3 (fun _ => (["id-a"; "id-b"; "id-c"], ["alpha"; "beta"; "gamma"], []))
                (RetrievalCfg 2 2 3) "gamma") = Ok out
    /\ List.NoDup (map chunk_identifier out)
    /\ len out <= 3.
Proof.
  destruct (search_fusion unit tt (fun _ c => seq 0 (List.length c))
              (fun _ c => rev (seq 0 (List.length c)))
              3 (fun _ => (["id-a"; "id-b"; "id-c"], ["alpha"; "beta"; "gamma"], []))
              (RetrievalCfg 2 2 3) "gamma")
    as (out & H1 & H2 & H3 & _).
  - intros q c. apply Permutation_refl.
  - intros q c. symmetry. apply Permutation_rev.
  - intros limit. cbn. split; [|reflexivity].
    repeat constructor; cbn; intuition discriminate.
  - cbn. lia.
  - exists out. cbv zeta in *. now repeat split.
Defined.

End FusionFacts.

(** ** The task registry *)

Section ManagerFacts.
Import Manager.

Variable uuid4 : nat -> string.

(** Asking again for the profile of the active, non-terminal task returns
    that task's identifier and changes nothing. *)
Lemma start_ingestion_active m t profile :
  active m = Some t -> profile_name t = profile -> terminal (status t) = false ->
  start_ingestion uuid4 m profile = (id t, m).
Proof.
  intros Ha Hp Ht. unfold start_ingestion. rewrite Ha, Hp, Ht.
  now rewrite String.eqb_refl.
Qed.

(** Any other request creates a task in state PREPARING and makes it the
    active one, whatever the former active task was doing. *)
Lemma start_ingestion_other m profile :
  (forall t, active m = Some t ->
             profile_name t <> profile \/ terminal (status t) = true) ->
  start_ingestion uuid4 m profile
  = (uuid4 (drawn m),
     Manager_ (<[uuid4 (drawn m) := Task (uuid4 (drawn m)) profile PREPARING false]> (tasks m))
              (Some (uuid4 (drawn m))) (S (drawn m))).
Proof.
  intros H. unfold start_ingestion. destruct (active m) as [t|]; [|reflexivity].
  destruct (H t eq_refl) as [Hp|Ht].
  - apply String.eqb_neq in Hp. now rewrite Hp.
  - rewrite Ht. now rewrite andb_false_r.
Qed.

(** The terminal states are absorbing for the worker. *)
Lemma terminal_absorbing s s' : advance s s' -> terminal s = false.
Proof. now destruct 1. Qed.

End ManagerFacts.

(** C9, at the failing input: ingestion is started for profile alpha, then
    for profile beta, then for alpha again while the first task is still
    PREPARING.  The third call creates a new task instead of returning the
    first identifier, and two tasks of alpha are non-terminal at once. *)
Lemma start_ingestion_interleaved :
  let r1 := Manager.start_ingestion Fixture.uuid4 Manager.fresh "alpha" in
  let r2 := Manager.start_ingestion Fixture.uuid4 (snd r1) "beta" in
  let r3 := Manager.start_ingestion Fixture.uuid4 (snd r2) "alpha" in
  fst r1 = "task-0" /\ fst r3 = "task-2"
  /\ Manager.tasks (snd r3) !! "task-0"
     = Some (Manager.Task "task-0" "alpha" Manager.PREPARING false)
  /\ Manager.tasks (snd r3) !! "task-2"
     = Some (Manager.Task "task-2" "alpha" Manager.PREPARING false)
  /\ List.length (Manager.running (snd r3) "alpha") = 2%nat.
Proof. vm_compute. repeat split; reflexivity. Qed.

(** ** Change detection *)

Section UpdaterFacts.
Import Updater.

Variable sha256 : string -> string.
Variable int_of_str : string -> outcome Z.
Variable db : gmap string row.
Variable http_head : string -> outcome headers.
Variable http_get : string -> outcome string.

Abbreviation check := (check_url_changes sha256 int_of_str db http_head http_get).
Abbreviation scan_all := (scan_for_changes sha256 int_of_str db http_head http_get).
Abbreviation stable_hash := (calculate_content_hash sha256).

(** When the header checks raise nothing, the later [int(current_length)]
    of the metadata raises nothing either. *)
Lemma header_signals_length r h sigs :
  header_signals int_of_str (Some r) h = Got sigs ->
  truthy (h_content_length h) = true ->
  exists n, int_of_str (default "" (h_content_length h)) = Got n.
Proof.
  unfold header_signals. intros H Ht. rewrite Ht in H.
  destruct (int_of_str _) as [n|msg]; [eauto | discriminate].
Qed.

(** The result of a check that re-fetched the body of a known URL. *)
Lemma check_refetched u r h sigs content :
  db !! u = Some r -> http_head u = Got h ->
  header_signals int_of_str (Some r) h = Got sigs -> sigs <> [] ->
  http_get u = Got content ->
  error (check u) = None /\ is_new (check u) = false
  /\ (stable_hash content = content_hash r ->
        has_changed (check u) = Some false)
  /\ (stable_hash content <> content_hash r ->
        has_changed (check u) = Some true
        /\ old_hash (check u) = Some (content_hash r)
        /\ new_hash (check u) = Some (stable_hash content)).
Proof.
  intros Hdb Hhead Hsig Hne Hget.
  unfold check_url_changes. rewrite Hdb, Hhead, Hsig.
  assert (Hs : DocIntel.nonempty sigs = true) by (destruct sigs; [congruence|reflexivity]).
  rewrite Hs. cbn [orb]. rewrite Hget.
  assert (Hlen : exists n,
             (if truthy (h_content_length h)
              then match int_of_str (default "" (h_content_length h)) with
                   | Got n => Got (Some n)
                   | Failed msg => Failed msg
                   end
              else Got None) = Got n).
  { destruct (truthy (h_content_length h)) eqn:Et; [|eauto].
    destruct (header_signals_length r h sigs Hsig Et) as (n & ->). eauto. }
  destruct Hlen as (n & Hlen).
  destruct (String.eqb_spec (stable_hash content) (content_hash r)) as [He|He];
    cbn [negb]; rewrite Hlen; cbn;
    (split; [reflexivity|]); (split; [reflexivity|]); split; intros H';
    try congruence; now repeat split.
Qed.

(** C4: for a URL with stored hash H whose body is fetched again (a header
    check fired and the GET succeeded), [has_changed] is false when the
    stable hash of the new body is H, whichever headers differ, and the
    change log is left as it was; when the stable hash is another value
    H', [has_changed] is true and scanning appends the record
    (url, content, old_hash = H, new_hash = H'). *)
Theorem check_url_changes_hash u r h sigs content log
  (Hdb : db !! u = Some r)
  (Hhead : http_head u = Got h)
  (Hsig : header_signals int_of_str (Some r) h = Got sigs)
  (Hfired : sigs <> [])
  (Hget : http_get u = Got content) :
  (stable_hash content = content_hash r ->
     has_changed (check u) = Some false
     /\ change_log (scan_all log [u]) = log)
  /\ (stable_hash content <> content_hash r ->
       has_changed (check u) = Some true
       /\ change_log (scan_all log [u])
          = log ++ [ChangeRecord u "content" (Some (content_hash r))
                                 (Some (stable_hash content))]).
Proof.
  destruct (check_refetched u r h sigs content Hdb Hhead Hsig Hfired Hget)
    as (Herr & Hnew & Hsame & Hdiff).
  unfold scan_for_changes. cbn [fold_left]. unfold scan_step.
  rewrite Herr, Hnew. cbn [truthy]. split.
  - intros He. rewrite (Hsame He). split; [reflexivity|].
    now rewrite bool_decide_eq_false_2 by discriminate.
  - intros He. destruct (Hdiff He) as (Hc & Hold & Hnw). rewrite Hc, Hold, Hnw.
    split; [reflexivity|]. now rewrite bool_decide_eq_true_2.
Qed.

End UpdaterFacts.

(** An instance: the stored ETag is v1, the server now sends v2, and the
    body hashes (here by the identity) to a value other than the stored
    one. *)
Lemma check_url_changes_hash_witness :
  let db : gmap string Updater.row :=
    {[ "https://docs.example/guide" := Updater.Row "old body" None (Some "v1") None ]} in
  let head := fun _ : string => Updater.Got (Updater.Headers (Some "v2") None None) in
  let get := fun _ : string => Updater.Got "NEW body" in
  let int := fun _ : string => Updater.Failed (A := Z) "invalid literal" in
  Updater.has_changed
    (Updater.check_url_changes (fun s => s) int db head get "https://docs.example/guide")
  = Some true
  /\ Updater.change_log
       (Updater.scan_for_changes (fun s => s) int db head get [] ["https://docs.example/guide"])
     = [Updater.ChangeRecord "https://docs.example/guide" "content"
                             (Some "old body") (Some "new body")].
Proof.
  cbv zeta.
  refine (proj2 (check_url_changes_hash (fun s => s) _ _ _ _
                   "https://docs.example/guide"
                   (Updater.Row "old body" None (Some "v1") None)
                   (Updater.Headers (Some "v2") None None)
                   [("etag", (9 # 10)%Q)] "NEW body" [] _ _ _ _ _) _).
  - reflexivity.
  - reflexivity.
  - reflexivity.
  - discriminate.
  - reflexivity.
  - vm_compute. discriminate.
Defined.

(** ** The crawler *)

Section CrawlerFacts.
Import Py Ingest.

Variable url_scheme url_netloc url_path : string -> string.
Variable urljoin : string -> string -> string.
Variable robots : Type.
Variable robots_parse : string -> robots.
Variable can_fetch : robots -> string -> string -> bool.
Variable http_get : string -> option response.
Variable hrefs : string -> list string.

Abbreviation allowed_path := (_is_allowed_path url_netloc url_path).
Abbreviation key_of := (domain_key url_scheme url_netloc).
Abbreviation fetched := (fetch_robots robots robots_parse http_get).
Abbreviation answer := (verdict robots can_fetch).
Abbreviation robots_allowed :=
  (_robots_allowed url_scheme url_netloc robots robots_parse can_fetch http_get).
Abbreviation step :=
  (crawl_step url_scheme url_netloc url_path urljoin robots robots_parse can_fetch
              http_get hrefs).
Abbreviation loop :=
  (crawl_loop url_scheme url_netloc url_path urljoin robots robots_parse can_fetch
              http_get hrefs).
Abbreviation crawl :=
  (crawl_website url_scheme url_netloc url_path urljoin robots robots_parse can_fetch
                 http_get hrefs).
Abbreviation effective_path := (effective_path url_path).
Abbreviation same_host_and_prefix := (same_host_and_prefix url_netloc url_path).
Abbreviation rules := (rules robots robots_parse http_get).
Abbreviation crawl_inv :=
  (crawl_inv url_scheme url_netloc url_path robots robots_parse can_fetch http_get).

Lemma allowed_path_spec url start_domain allowed_paths :
  allowed_path url start_domain allowed_paths = true ->
  same_host_and_prefix start_domain allowed_paths url.
Proof.
  unfold _is_allowed_path, same_host_and_prefix.
  destruct (String.eqb_spec (url_netloc url) (url_netloc start_domain)) as [E|E];
    [|discriminate].
  cbn [negb]. intros H. split; [exact E|].
  destruct allowed_paths as [|p ps]; [now left|]. right.
  apply existsb_exists in H as (q & Hq & Hs). now exists q.
Qed.

(** The robots gate reads the cache entry of the host, fetching it first
    when the host has none. *)
Lemma robots_allowed_spec cache start_domain url :
  robots_allowed cache start_domain url true
  = match cache !! key_of start_domain with
    | Some entry => (answer entry url, cache, [])
    | None =>
        (answer (fetched (key_of start_domain)) url,
         <[key_of start_domain := fetched (key_of start_domain)]> cache,
         [GetRobots (robots_url (key_of start_domain))])
    end.
Proof.
  unfold _robots_allowed. cbn [negb].
  destruct (cache !! key_of start_domain) as [entry|] eqn:E.
  - cbv beta iota zeta. now rewrite E.
  - cbv beta iota zeta. now rewrite lookup_insert_eq.
Qed.

Lemma load_page_requests cd url r :
  In r (snd (load_page http_get cd url)) -> r = GetPage url.
Proof.
  unfold load_page. destruct (_read_cache cd url); [intros []|].
  destruct (http_get url) as [resp|]; [|intros [<-|[]]; reflexivity].
  destruct (_ || _); intros [<-|[]]; reflexivity.
Qed.

Lemma robots_requests_app (a b : list request) :
  robots_requests (a ++ b) = robots_requests a ++ robots_requests b.
Proof. unfold robots_requests. apply List.filter_app. Qed.

Lemma robots_requests_pages (reqs : list request) :
  (forall r, In r reqs -> exists u, r = GetPage u) -> robots_requests reqs = [].
Proof.
  induction reqs as [|r reqs IH]; intros H; [reflexivity|].
  destruct (H r (or_introl eq_refl)) as (u & ->). cbn.
  apply IH. intros r' Hr'. apply H. now right.
Qed.

(** One iteration of the loop keeps the invariant. *)
Lemma crawl_step_inv rc base_domain allowed_paths max_depth st :
  crawl_inv rc base_domain allowed_paths st ->
  crawl_inv rc base_domain allowed_paths (step base_domain allowed_paths max_depth st).
Proof.
  intros [Hpages Hrobots]. unfold crawl_step.
  destruct (frontier robots st) as [|[url depth] rest]; [now split|].
  destruct (decide (url ∈ seen robots st)); [now split|].
  destruct (allowed_path url base_domain allowed_paths) eqn:Hallowed; cbn [negb];
    [|now split].
  rewrite robots_allowed_spec.
  set (key := key_of base_domain) in *.
  (* the robots gate: answer, cache and requests in both cases of the cache *)
  assert (Hgate : exists ok rc' reqs,
             match rcache robots st !! key with
             | Some entry => (answer entry url, rcache robots st, [])
             | None => (answer (fetched key) url,
                        <[key := fetched key]> (rcache robots st),
                        [GetRobots (robots_url key)])
             end = (ok, rc', reqs)
             /\ ok = answer (rules rc key) url
             /\ (forall u, ~ In (GetPage u) reqs)
             /\ ((robots_requests (requests robots st ++ reqs) = [] /\ rc' = rc)
                 \/ (robots_requests (requests robots st ++ reqs)
                     = [GetRobots (robots_url key)]
                     /\ rc !! key = None /\ rc' = <[key := fetched key]> rc))).
  { unfold rules.
    destruct Hrobots as [[Hr Hc]|(Hr & Hnone & Hc)]; rewrite Hc.
    - destruct (rc !! key) as [entry|] eqn:E.
      + do 3 eexists. split; [reflexivity|]. split; [reflexivity|].
        split; [intros u []|]. left. rewrite app_nil_r. now split.
      + do 3 eexists. split; [reflexivity|]. split; [reflexivity|].
        split; [intros u [H|[]]; discriminate|]. right.
        rewrite robots_requests_app, Hr. now repeat split.
    - rewrite lookup_insert_eq, Hnone.
      do 3 eexists. split; [reflexivity|]. split; [reflexivity|].
      split; [intros u []|]. right. rewrite app_nil_r. now repeat split. }
  destruct Hgate as (ok & rc' & reqs & -> & Hok & Hnopage & Hcache).
  assert (Hold : forall u, In (GetPage u) (requests robots st ++ reqs) ->
                 allowed_path u base_domain allowed_paths = true
                 /\ answer (rules rc key) u = true).
  { intros u Hu. apply in_app_or in Hu as [Hu|Hu]; [now apply Hpages|].
    now apply Hnopage in Hu. }
  destruct ok; cbn [negb]; [|now split].
  destruct (load_page http_get (cache_dir robots st) url) as [[page cd] reqs'] eqn:Hload.
  assert (Hreqs' : forall r, In r reqs' -> r = GetPage url).
  { intros r Hr. apply (load_page_requests (cache_dir robots st) url).
    now rewrite Hload. }
  assert (Hnew : forall u, In (GetPage u) (requests robots st ++ reqs ++ reqs') ->
                 allowed_path u base_domain allowed_paths = true
                 /\ answer (rules rc key) u = true).
  { intros u Hu. rewrite app_assoc in Hu. apply in_app_or in Hu as [Hu|Hu];
      [now apply Hold|].
    apply Hreqs' in Hu. injection Hu as ->. now split. }
  assert (Hrob : robots_requests (requests robots st ++ reqs ++ reqs')
                 = robots_requests (requests robots st ++ reqs)).
  { rewrite app_assoc, robots_requests_app.
    rewrite (robots_requests_pages reqs'), app_nil_r; [reflexivity|].
    intros r Hr. exists url. now apply Hreqs'. }
  destruct page as [html|]; (split; cbn [requests rcache]; [exact Hnew | now rewrite Hrob]).
Qed.

Lemma crawl_loop_inv rc base_domain allowed_paths max_depth fuel : forall st,
  crawl_inv rc base_domain allowed_paths st ->
  crawl_inv rc base_domain allowed_paths (loop fuel base_domain allowed_paths max_depth st).
Proof.
  induction fuel as [|fuel IH]; intros st Hinv; [exact Hinv|].
  cbn [crawl_loop]. destruct (frontier robots st); [exact Hinv|].
  now apply IH, crawl_step_inv.
Qed.

Lemma crawl_inv_start rc base_domain allowed_paths frontier0 cd :
  crawl_inv rc base_domain allowed_paths (Crawl robots frontier0 ∅ [] rc cd []).
Proof. split; cbn; [intros u [] | now left]. Qed.

(** The invariant holds of every state [crawl_website] reaches. *)
Lemma crawl_website_inv fuel rc cd start_url allowed_paths max_depth :
  crawl_inv rc (url_scheme start_url +:+ "://" +:+ url_netloc start_url) allowed_paths
            (crawl fuel rc cd start_url allowed_paths max_depth).
Proof. unfold crawl_website. apply crawl_loop_inv, crawl_inv_start. Qed.

(** A start URL that fails gate (a) ends the crawl with no request. *)
Lemma crawl_rejected_start fuel rc cd start_url allowed_paths max_depth :
  allowed_path start_url (url_scheme start_url +:+ "://" +:+ url_netloc start_url)
               allowed_paths = false ->
  requests robots (crawl fuel rc cd start_url allowed_paths max_depth) = [].
Proof.
  intros H. unfold crawl_website. destruct fuel as [|fuel]; [reflexivity|].
  cbn [crawl_loop frontier]. unfold crawl_step at 1. cbn [frontier seen].
  destruct (decide (start_url ∈ (∅ : gset string))) as [Hin|_]; [set_solver|].
  rewrite H. cbn [negb]. destruct fuel; reflexivity.
Qed.

(** C2: a page request is issued, at any point of the crawl, only for a URL
    whose network host is the start URL's and whose path ([/] when empty)
    starts with one of the allowed prefixes, an empty prefix list allowing
    every path of that host. *)
Theorem crawl_fetches_allowed_only fuel rc cd start_url allowed_paths max_depth url
  (Hreq : In (GetPage url)
             (requests robots (crawl fuel rc cd start_url allowed_paths max_depth))) :
  same_host_and_prefix start_url allowed_paths url.
Proof.
  set (base_domain := url_scheme start_url +:+ "://" +:+ url_netloc start_url).
  destruct (allowed_path start_url base_domain allowed_paths) eqn:Hstart.
  - pose proof (crawl_website_inv fuel rc cd start_url allowed_paths max_depth) as [Hp _].
    destruct (Hp url Hreq) as [Hallowed _].
    apply allowed_path_spec in Hallowed as [Hhost Hprefix].
    apply allowed_path_spec in Hstart as [Hhost0 _].
    split; [|exact Hprefix].
    etransitivity; [exact Hhost | symmetry; exact Hhost0].
  - rewrite (crawl_rejected_start fuel rc cd start_url allowed_paths max_depth Hstart)
      in Hreq. destruct Hreq.
Qed.


End CrawlerFacts.

(** *** The crawl of the sample site

    The start page links to a page robots.txt forbids, to another host, to
    a fragment and to itself. *)

Lemma sample_crawl_requests :
  Ingest.requests _ Fixture.sample_crawl
  = [Ingest.GetRobots "https://docs.example/robots.txt";
     Ingest.GetPage "https://docs.example/guide"]
  /\ Ingest.out _ Fixture.sample_crawl = [("https://docs.example/guide", "guide page")]
  /\ Ingest.frontier _ Fixture.sample_crawl = [].
Proof. vm_compute. repeat split; reflexivity. Qed.

Lemma crawl_fetches_allowed_only_witness :
  Ingest.same_host_and_prefix Fixture.url_netloc Fixture.url_path
    "https://docs.example/guide" [] "https://docs.example/guide".
Proof.
  apply (crawl_fetches_allowed_only Fixture.url_scheme Fixture.url_netloc Fixture.url_path
           Fixture.urljoin Fixture.robots Fixture.robots_parse Fixture.can_fetch
           Fixture.site Fixture.site_hrefs 10 ∅ ∅ "https://docs.example/guide" [] 1).
  vm_compute. right. left. reflexivity.
Defined.

(** The robots.txt of the sample site, a 200 response of type text/plain:
    its rules are parsed, kept in the cache, and the gate refuses the URL
    they forbid. *)
Lemma robots_plain_text_parsed :
  Fixture.site "https://docs.example/robots.txt"
  = Some (Ingest.Response 200 "text/plain" Fixture.robots_txt)
  /\ Py.contains "text/plain" "text/html" = false
  /\ Ingest.fetch_robots Fixture.robots Fixture.robots_parse Fixture.site
       "https://docs.example"
     = Some [(false, "/private")]
  /\ fst (fst (Ingest._robots_allowed Fixture.url_scheme Fixture.url_netloc Fixture.robots
                 Fixture.robots_parse Fixture.can_fetch Fixture.site
                 ∅ "https://docs.example" "https://docs.example/private/keys" true))
     = false.
Proof. vm_compute. repeat split; reflexivity. Qed.

(** ** The section and message strategies on a text without markers *)

(** C6: a text of three plain words holds no section header or rule, no
    message boundary, no endpoint and no chapter heading, and the strategies
    find none.  With chunk size 2 the conversation, record and timestamp
    strategies return the output of the sliding-window fallback, two
    windows; the section strategy and the message strategy each return one
    chunk of three words instead, and so do the endpoint and chapter
    strategies, which hand the text to the section strategy.  The same
    happens at the size of the pipeline: 1100 plain words, chunk size 1000,
    overlap 120 give one section chunk of 1100 words, the fallback two
    windows. *)
Theorem section_strategy_single_chunk :
  let text := "alpha beta gamma" in
  let fallback := DocIntel.chunk_sliding_window text 2 0 in
  let one_section :=
    Py.Ok [DocIntel.Chunk "alpha beta gamma" "section"
             [("boundary", DocIntel.VStr "document_end")]] in
  DocIntel.found true DocIntel.section_pattern text = false
  /\ DocIntel.found false DocIntel.message_boundary text = false
  /\ existsb (fun p => DocIntel.found true (fst p) text) DocIntel.endpoint_patterns = false
  /\ existsb (fun p => DocIntel.found true p text) DocIntel.chapter_patterns = false
  /\ fallback
     = Py.Ok [DocIntel.Chunk "alpha beta" "sliding_window"
                [("start_idx", DocIntel.VInt 0); ("end_idx", DocIntel.VInt 2)];
              DocIntel.Chunk "gamma" "sliding_window"
                [("start_idx", DocIntel.VInt 2); ("end_idx", DocIntel.VInt 3)]]
  /\ DocIntel.chunk text "conversation_aware" 2 0 = fallback
  /\ DocIntel.chunk text "record_aware" 2 0 = fallback
  /\ DocIntel.chunk text "time_aware" 2 0 = fallback
  /\ DocIntel.chunk text "section_aware" 2 0 = one_section
  /\ DocIntel.chunk text "message_boundary" 2 0
     = Py.Ok [DocIntel.Chunk "alpha beta gamma" "message"
                [("boundary", DocIntel.VStr "thread_end")]]
  /\ DocIntel.chunk text "endpoint_aware" 2 0 = one_section
  /\ DocIntel.chunk text "chapter_aware" 2 0 = one_section
  /\ DocIntel.found true DocIntel.section_pattern (Fixture.words_doc 1100) = false
  /\ DocIntel.chunk (Fixture.words_doc 1100) "section_aware" 1000 120
     = Py.Ok [DocIntel.Chunk (Fixture.words_doc 1100) "section"
                [("boundary", DocIntel.VStr "document_end")]]
  /\ match DocIntel.chunk_sliding_window (Fixture.words_doc 1100) 1000 120 with
     | Py.Ok chunks => map (fun c => Py.len (Py.split (DocIntel.text c))) chunks
     | Py.Raise _ => []
     end = [1000; 220].
Proof. vm_compute. repeat split; reflexivity. Qed.

(** ** Chunk identifiers *)

(** The test vectors of FIPS 180 for SHA-1. *)
Example sha1_empty : Ingest._hash "" = "da39a3ee5e6b4b0d3255bfef95601890afd80709".
Proof. vm_compute. reflexivity. Qed.

Example sha1_abc : Ingest._hash "abc" = "a9993e364706816aba3e25717850c26c9cd0d89d".
Proof. vm_compute. reflexivity. Qed.

Example sha1_two_blocks :
  Ingest._hash "abcdbcdecdefdefgefghfghighijhijkijkljklmklmnlmnomnopnopq"
  = "84983e441c3bd26ebaae4aa1f95129e5e54670f1".
Proof. vm_compute. reflexivity. Qed.

Section IdentifierFacts.
Import Py Ingest Manager.

Variable _html_to_md : string -> string.
Variable parse_file : string -> option (string * string).
Variable parse_content : string -> option string.

Abbreviation web_docs := (web_docs _html_to_md).
Abbreviation local_docs := (local_docs parse_file).
Abbreviation ingest_profile_ids := (ingest_profile_ids _html_to_md parse_file).
Abbreviation profile_identifier := (profile_identifier _html_to_md parse_file).
Abbreviation process_file := (process_file _html_to_md parse_content).
Abbreviation process_files := (process_files _html_to_md parse_content).

Lemma in_combine_seq {A} (l : list A) : forall a i x,
  In (i, x) (combine (seq a (List.length l)) l) ->
  (a <= i)%nat /\ nth_error l (i - a) = Some x.
Proof.
  induction l as [|y l IH]; intros a i x; [intros []|].
  cbn [List.length seq combine]. intros [H|H].
  - injection H as <- <-. rewrite Nat.sub_diag. split; [lia | reflexivity].
  - apply IH in H as [Hle Hnth]. split; [lia|].
    replace (i - a)%nat with (S (i - S a)) by lia. exact Hnth.
Qed.

Lemma in_enumerate {A} (l : list A) i x :
  In (i, x) (enumerate l) -> nth_error l i = Some x.
Proof.
  unfold enumerate. intros H. apply in_combine_seq in H as [_ H].
  now rewrite Nat.sub_0_r in H.
Qed.

(** Every entry made from the chunks of one origin carries the identifier
    built from the origin, the position of the chunk and its text. *)
Lemma docs_of_chunks_spec cfg origin shown source_type chunks d :
  In d (docs_of_chunks cfg origin shown source_type chunks) ->
  exists idx chunk,
    nth_error chunks idx = Some chunk
    /\ doc_id d = cid (_hash origin) idx chunk
    /\ doc_source d = origin /\ doc_chunk_index d = idx.
Proof.
  unfold docs_of_chunks. intros H.
  apply in_flat_map in H as ([idx chunk] & Hin & Hd).
  apply in_enumerate in Hin.
  destruct (_ <? _); [destruct Hd|]. destruct Hd as [<-|[]].
  exists idx, chunk. now repeat split.
Qed.

Lemma dedup_docs_In seen docs d : In d (dedup_docs seen docs) -> In d docs.
Proof.
  revert seen. induction docs as [|x docs IH]; intros seen; [intros []|].
  cbn [dedup_docs]. destruct (existsb _ seen).
  - intros H. right. eapply IH, H.
  - intros [<-|H]; [now left | right; eapply IH, H].
Qed.

(** In [ingest_profile] an identifier is made of the hash of the URL or of
    the path of the file, the position of the chunk among the chunks of that
    origin, and the text of the chunk. *)
Lemma ingest_profile_ids_spec cfg raw files identifier :
  In identifier (ingest_profile_ids cfg raw files) ->
  profile_identifier cfg raw files identifier.
Proof.
  unfold Ingest.ingest_profile_ids. intros H.
  apply in_map_iff in H as (d & <- & Hd). apply dedup_docs_In, in_app_or in Hd.
  destruct Hd as [Hd|Hd].
  - left. unfold Ingest.web_docs in Hd.
    apply in_flat_map in Hd as ([url html] & Hraw & Hd).
    destruct (_ <? _); [destruct Hd|].
    apply docs_of_chunks_spec in Hd as (idx & chunk & Hnth & Hid & _).
    now exists url, html, idx, chunk.
  - right. unfold Ingest.local_docs in Hd.
    apply in_flat_map in Hd as (filepath & Hfile & Hd).
    destruct (parse_file filepath) as [[content filename]|] eqn:Hparse; [|destruct Hd].
    destruct (_ <? _); [destruct Hd|].
    apply docs_of_chunks_spec in Hd as (idx & chunk & Hnth & Hid & _).
    now exists filepath, content, filename, idx, chunk.
Qed.

Lemma append_chunks_spec all_files file chunks : forall all,
  In file all_files ->
  run_identifiers all_files all ->
  run_identifiers all_files (append_chunks (filename_of file) chunks all).
Proof.
  induction chunks as [|chunk_data chunks IH]; intros all Hfile Hall; [exact Hall|].
  cbn [append_chunks]. apply IH; [exact Hfile|].
  intros k c Hk.
  destruct (Nat.lt_ge_cases k (List.length all)) as [Hlt|Hge].
  - rewrite nth_error_app1 in Hk by exact Hlt. now apply Hall.
  - rewrite nth_error_app2 in Hk by exact Hge.
    destruct (k - List.length all)%nat as [|n] eqn:E; [|now destruct n].
    injection Hk as <-. assert (k = List.length all) as -> by lia.
    split; [reflexivity|]. split; [reflexivity|]. now exists file.
Qed.

Lemma process_file_spec all_files file st :
  In file all_files ->
  run_identifiers all_files (all_chunks st) ->
  run_identifiers all_files (all_chunks (process_file st file)).
Proof.
  intros Hfile Hst. unfold Manager.process_file.
  assert (Hname : forall content filename,
             (if String.eqb (f_type file) "web"
              then Some (_html_to_md (f_content file), f_path file)
              else match parse_content (f_path file) with
                   | Some content => if String.eqb content "" then None
                                     else Some (content, path_name (f_path file))
                   | None => None
                   end) = Some (content, filename) ->
             filename = filename_of file).
  { unfold filename_of. intros content filename.
    destruct (String.eqb (f_type file) "web"); [congruence|].
    destruct (parse_content (f_path file)) as [c|]; [|discriminate].
    destruct (String.eqb c ""); congruence. }
  destruct (if String.eqb (f_type file) "web" then _ else _) as [[content filename]|];
    [|exact Hst].
  rewrite (Hname content filename eq_refl).
  destruct (_ <? _); [exact Hst|].
  destruct (DocIntel.chunk _ _ _ _); [|exact Hst].
  cbn [all_chunks]. now apply append_chunks_spec.
Qed.

(** In [_run_ingestion] an identifier is made of the hash of the URL or of
    the file name, the position of the chunk among all the chunks of the
    run, and the text of the chunk. *)
Lemma process_files_spec all_files :
  run_identifiers all_files (all_chunks (process_files all_files)).
Proof.
  unfold Manager.process_files.
  assert (H : forall files st,
             (forall f, In f files -> In f all_files) ->
             run_identifiers all_files (all_chunks st) ->
             run_identifiers all_files (all_chunks (fold_left process_file files st))).
  { induction files as [|f files IH]; intros st Hsub Hst; [exact Hst|].
    cbn [fold_left]. apply IH.
    - intros g Hg. apply Hsub. now right.
    - apply process_file_spec; [apply Hsub; now left | exact Hst]. }
  apply H; [tauto|]. intros k c Hk. now destruct k.
Qed.

End IdentifierFacts.

(** C1: two local files of sixty words, docs/guide.txt and docs/notes.txt.
    [ingest_profile] gives the chunk of docs/notes.txt the identifier the
    claim states: the hash of its path, the sequence number 0 of its first
    chunk, eight digits of the hash of the text; and gives it the same
    identifier when the file is ingested alone.  [_run_ingestion] gives the
    same chunk the hash of the file name notes.txt and the sequence number
    1, its rank among all the chunks of the run; ingested alone, the
    unchanged file gets the number 0, another identifier; and two files of the
    same name in different directories get the same origin hash. *)
Theorem run_ingestion_identifier_shift :
  let guide := Manager.FileInfo "local" "docs/guide.txt" "" in
  let notes := Manager.FileInfo "local" "docs/notes.txt" "" in
  let run_ingestion all_files :=
    map Manager.chunk_id
        (Manager.all_chunks
           (Manager.process_files (fun html => html)
              (fun _ => Some (Fixture.words_doc 60)) all_files)) in
  let ingest_profile files :=
    Ingest.ingest_profile_ids (fun html => html)
      (fun path => Some (Fixture.words_doc 60, Py.path_name path))
      (Ingest.IngestCfg 800 120 180) [] files in
  Ingest.cid (Ingest._hash "docs/notes.txt") 0 (Fixture.words_doc 60)
  = "56f11635671c76cfb304032636ae3bbc94f7ac42_0_8008fdb1"
  /\ ingest_profile ["docs/guide.txt"; "docs/notes.txt"]
     = ["ea36e6e8d31ef6e863566b0f1c595011f1557eeb_0_8008fdb1";
        "56f11635671c76cfb304032636ae3bbc94f7ac42_0_8008fdb1"]
  /\ ingest_profile ["docs/notes.txt"]
     = ["56f11635671c76cfb304032636ae3bbc94f7ac42_0_8008fdb1"]
  /\ Ingest._hash "notes.txt" = "83348d283c1ba0b3b4d55fdc04c39a165b933125"
  /\ run_ingestion [guide; notes]
     = ["cc69ce5dbe05004194ce18643f168d92b529fee1_0_8008fdb1";
        "83348d283c1ba0b3b4d55fdc04c39a165b933125_1_8008fdb1"]
  /\ run_ingestion [notes]
     = ["83348d283c1ba0b3b4d55fdc04c39a165b933125_0_8008fdb1"]
  /\ run_ingestion [Manager.FileInfo "local" "a/notes.txt" "";
                    Manager.FileInfo "local" "b/notes.txt" ""]
     = ["83348d283c1ba0b3b4d55fdc04c39a165b933125_0_8008fdb1";
        "83348d283c1ba0b3b4d55fdc04c39a165b933125_1_8008fdb1"].
Proof. vm_compute. repeat split; reflexivity. Qed.

(** * Further properties of the code *)

(** ** The word windows of [_chunk] *)

Section ChunkWindowFacts.
Import Py Spec Ingest.

Lemma range_len_nonneg start stop step : 0 < step -> 0 <= range_len start stop step.
Proof.
  intros Hs. unfold range_len.
  replace (0 <? step) with true by (symmetry; apply Z.ltb_lt; lia).
  destruct (Z.ltb_spec start stop) as [H|H]; [|lia].
  assert (0 <= (stop - start - 1) / step) by (apply Z.div_pos; lia). lia.
Qed.

Lemma range_len_step i n step : 1 <= step -> i < n ->
  range_len i n step = 1 + range_len (i + step) n step.
Proof.
  intros Hs Hi. unfold range_len.
  replace (0 <? step) with true by (symmetry; apply Z.ltb_lt; lia).
  replace (i <? n) with true by (symmetry; apply Z.ltb_lt; lia).
  destruct (Z.ltb_spec (i + step) n) as [H|H].
  - replace (n - i - 1) with ((n - (i + step) - 1) + 1 * step) by lia.
    rewrite Z.div_add by lia. lia.
  - rewrite Z.div_small by lia. lia.
Qed.

Lemma range_len_done i n step : 1 <= step -> n <= i -> range_len i n step = 0.
Proof.
  intros Hs Hi. unfold range_len.
  replace (0 <? step) with true by (symmetry; apply Z.ltb_lt; lia).
  now replace (i <? n) with false by (symmetry; apply Z.ltb_ge; lia).
Qed.

(** A stride index below the number of strides starts inside the list. *)
Lemma range_len_inside n step (k : nat) :
  1 <= step -> Z.of_nat k < range_len 0 n step -> Z.of_nat k * step < n.
Proof.
  intros Hs Hk. unfold range_len in Hk.
  replace (0 <? step) with true in Hk by (symmetry; apply Z.ltb_lt; lia).
  destruct (Z.ltb_spec 0 n) as [Hn|Hn]; [|lia].
  assert (H : step * ((n - 0 - 1) / step) <= n - 0 - 1) by (apply Z.mul_div_le; lia).
  nia.
Qed.

(** The loop of [_chunk] visits the starts [i], [i + step], ... below the
    number of words, and cuts the window of [tok] words at each. *)
Lemma chunk_loop_windows words tok step : 1 <= step -> forall fuel i, 0 <= i ->
  (Z.to_nat (len words - i) <= fuel)%nat ->
  chunk_loop fuel words tok step i
  = map (fun k : nat => join " " (slice words (i + Z.of_nat k * step)
                                        (i + Z.of_nat k * step + tok)))
        (seq 0 (Z.to_nat (range_len i (len words) step))).
Proof.
  intros Hs. induction fuel as [|fuel IH]; intros i Hi Hf.
  - rewrite range_len_done by lia. reflexivity.
  - cbn [chunk_loop]. destruct (Z.ltb_spec i (len words)) as [Hlt|Hge].
    + rewrite (range_len_step i) by lia.
      rewrite Z2Nat.inj_add by (try apply range_len_nonneg; lia).
      change (Z.to_nat 1) with 1%nat. cbn [Nat.add seq map]. f_equal.
      * f_equal. f_equal; lia.
      * rewrite IH by lia. rewrite <- seq_shift, map_map. apply map_ext.
        intros k. f_equal. f_equal; lia.
    + rewrite range_len_done by lia. reflexivity.
Qed.

Lemma chunk_windows md tok overlap : (50 <= List.length (split md))%nat ->
  _chunk md tok overlap
  = map (fun k : nat =>
           join " " (slice (split md) (0 + Z.of_nat k * Z.max (tok - overlap) 1)
                           (0 + Z.of_nat k * Z.max (tok - overlap) 1 + tok)))
        (seq 0 (Z.to_nat (range_len 0 (len (split md)) (Z.max (tok - overlap) 1)))).
Proof.
  intros H. unfold _chunk.
  replace (len (split md) <? 50) with false by (symmetry; apply Z.ltb_ge; unfold len; lia).
  apply chunk_loop_windows; unfold len; lia.
Qed.

Lemma slice_len {A} (l : list A) (a b : Z) :
  0 <= a <= len l -> a <= b -> len (slice l a b) = Z.min b (len l) - a.
Proof.
  intros Ha Hb. unfold slice, clamp, len in *.
  replace (a <? 0) with false by (symmetry; apply Z.ltb_ge; lia).
  replace (b <? 0) with false by (symmetry; apply Z.ltb_ge; lia).
  rewrite List.length_firstn, List.length_skipn. lia.
Qed.

(** X1: when [_chunk] is called with a chunk size of at least one word and
    a non-negative overlap, no word of a document of 50 words or more is
    lost: each word is in some chunk. *)
Theorem chunk_covers_words md tok overlap (j : nat) (w : string)
  (Hlen : (50 <= List.length (split md))%nat)
  (Htok : 1 <= tok) (Hov : 0 <= overlap)
  (Hw : nth_error (split md) j = Some w) :
  exists c, In c (_chunk md tok overlap) /\ In w (split c).
Proof.
  rewrite chunk_windows by exact Hlen.
  set (step := Z.max (tok - overlap) 1).
  assert (Hstep : 1 <= step <= tok) by (unfold step; lia).
  assert (Hj : (j < List.length (split md))%nat) by (apply nth_error_Some; congruence).
  set (k := Z.of_nat j / step).
  assert (Hk0 : 0 <= k) by (apply Z.div_pos; lia).
  assert (Hkn : k < range_len 0 (len (split md)) step)
    by (apply range_len_covers; unfold len; lia).
  assert (Hlo : k * step <= Z.of_nat j).
  { unfold k. rewrite Z.mul_comm. apply Z.mul_div_le. lia. }
  assert (Hhi : Z.of_nat j < k * step + step).
  { unfold k. pose proof (Z.mod_pos_bound (Z.of_nat j) step ltac:(lia)).
    pose proof (Z.div_mod (Z.of_nat j) step). lia. }
  eexists. split.
  - apply in_map_iff. exists (Z.to_nat k). split; [reflexivity|]. apply in_seq. lia.
  - rewrite Z2Nat.id by lia. rewrite split_join by apply Forall_slice, split_words.
    eapply slice_nth; [| |exact Hw]; lia.
Qed.

Lemma chunk_covers_words_witness :
  exists c, In c (_chunk (Fixture.words_doc 60) 25 5) /\ In "lorem" (split c).
Proof.
  apply (chunk_covers_words (Fixture.words_doc 60) 25 5 59 "lorem");
    [vm_compute; lia | lia | lia | vm_compute; reflexivity].
Defined.

(** X2: a document of 50 words or more gives one chunk per step of
    [max(tok - overlap, 1)] words, the last step rounded up; an overlap of
    at least the chunk size therefore neither loops nor raises, it gives as
    many chunks as the document has words. *)
Theorem chunk_count md tok overlap (Hlen : (50 <= List.length (split md))%nat) :
  len (_chunk md tok overlap)
  = (len (split md) + Z.max (tok - overlap) 1 - 1) / Z.max (tok - overlap) 1
  /\ (tok <= overlap -> List.length (_chunk md tok overlap) = List.length (split md)).
Proof.
  assert (Hcount : len (_chunk md tok overlap)
                   = (len (split md) + Z.max (tok - overlap) 1 - 1) / Z.max (tok - overlap) 1).
  { rewrite chunk_windows by exact Hlen.
    set (step := Z.max (tok - overlap) 1).
    assert (Hstep : 1 <= step) by (unfold step; lia).
    unfold len at 1. rewrite length_map, length_seq.
    rewrite Z2Nat.id by (apply range_len_nonneg; lia).
    unfold range_len.
    replace (0 <? step) with true by (symmetry; apply Z.ltb_lt; lia).
    replace (0 <? len (split md)) with true by (symmetry; apply Z.ltb_lt; unfold len; lia).
    replace (len (split md) + step - 1) with (len (split md) - 0 - 1 + 1 * step) by lia.
    rewrite Z.div_add by lia. reflexivity. }
  split; [exact Hcount|].
  intros Hov. rewrite Z.max_r in Hcount by lia.
  rewrite Z.div_1_r in Hcount. unfold len in Hcount. lia.
Qed.

Lemma chunk_count_witness :
  len (_chunk (Fixture.words_doc 60) 25 5)
  = (len (split (Fixture.words_doc 60)) + Z.max (25 - 5) 1 - 1) / Z.max (25 - 5) 1
  /\ (25 <= 5 -> List.length (_chunk (Fixture.words_doc 60) 25 5)
                 = List.length (split (Fixture.words_doc 60))).
Proof.
  apply (chunk_count (Fixture.words_doc 60) 25 5). vm_compute. lia.
Defined.

(** X3: every chunk [_chunk] returns holds at least one word and at most
    [tok] words, whatever the overlap. *)
Theorem chunk_sizes md tok overlap (Htok : 1 <= tok) :
  Forall (fun c => 1 <= len (split c) <= tok) (_chunk md tok overlap).
Proof.
  destruct (Nat.lt_ge_cases (List.length (split md)) 50) as [Hlt|Hge].
  { rewrite chunk_below_threshold by exact Hlt. constructor. }
  rewrite chunk_windows by exact Hge.
  set (step := Z.max (tok - overlap) 1).
  assert (Hstep : 1 <= step) by (unfold step; lia).
  apply List.Forall_forall. intros c Hc.
  apply in_map_iff in Hc as (k & <- & Hk). apply in_seq in Hk.
  assert (Hin : Z.of_nat k * step < len (split md)).
  { apply range_len_inside; [exact Hstep|].
    pose proof (range_len_nonneg 0 (len (split md)) step ltac:(lia)). lia. }
  rewrite split_join by apply Forall_slice, split_words.
  rewrite slice_len by lia. lia.
Qed.

Lemma chunk_sizes_witness :
  Forall (fun c => 1 <= len (split c) <= 25) (_chunk (Fixture.words_doc 60) 25 5).
Proof. apply (chunk_sizes (Fixture.words_doc 60) 25 5). lia. Defined.

End ChunkWindowFacts.

(** ** Identifiers within one run *)

Section DistinctFacts.
Import Py Ingest Manager.

Variable _html_to_md : string -> string.
Variable parse_file : string -> option (string * string).
Variable parse_content : string -> option string.

Abbreviation web_docs := (web_docs _html_to_md).
Abbreviation local_docs := (local_docs parse_file).
Abbreviation ingest_profile_ids := (ingest_profile_ids _html_to_md parse_file).
Abbreviation process_files := (process_files _html_to_md parse_content).

Lemma append_length (a b : string) :
  String.length (a +:+ b) = (String.length a + String.length b)%nat.
Proof.
  induction a as [|c a IH]; [reflexivity|].
  rewrite append_cons. cbn [String.length]. now rewrite IH.
Qed.

(** Texts of equal length in front of equal concatenations are equal. *)
Lemma append_inj_l (a a' b b' : string) :
  String.length a = String.length a' -> a +:+ b = a' +:+ b' -> a = a' /\ b = b'.
Proof.
  revert a'. induction a as [|c a IH]; intros [|c' a'] Hl H; try discriminate.
  - now split.
  - rewrite !append_cons in H. injection H as -> H. injection Hl as Hl.
    destruct (IH a' Hl H) as [-> ->]. now split.
Qed.

Lemma append_inj_r (a a' b b' : string) :
  String.length b = String.length b' -> a +:+ b = a' +:+ b' -> a = a' /\ b = b'.
Proof.
  intros Hl H. apply append_inj_l; [|exact H].
  apply (f_equal String.length) in H. rewrite !append_length in H. lia.
Qed.

Lemma hex_length n x : String.length (Sha1.hex n x) = n.
Proof. induction n as [|n IH]; cbn; [reflexivity | now rewrite IH]. Qed.

(** A SHA-1 digest is written with 40 hexadecimal digits. *)
Lemma hash_length text : String.length (_hash text) = 40%nat.
Proof.
  unfold _hash, Sha1.hexdigest. cbv zeta.
  rewrite !append_length, !hex_length. reflexivity.
Qed.

Lemma ascii_width c : (byte c <? 128)%N = true -> width c = 0%nat.
Proof.
  unfold width. intros H. apply N.ltb_lt in H. cbv zeta.
  now replace (byte c <? 192)%N with true by (symmetry; apply N.ltb_lt; lia).
Qed.

(** In a text of ASCII characters, characters are bytes. *)
Lemma take_length n : forall s,
  Spec.ascii_text s = true -> (n <= String.length s)%nat -> String.length (take n s) = n.
Proof.
  unfold take. induction n as [|n IH]; intros [|c s] Ha H; cbn in H; try lia; try reflexivity.
  unfold Spec.ascii_text in Ha. cbn in Ha. apply andb_true_iff in Ha as [Hc Ha].
  cbn [chars]. rewrite (ascii_width c Hc), gather_zero. cbn [firstn].
  rewrite text_cons, append_cons. cbn [String.length]. f_equal.
  apply IH; [exact Ha | lia].
Qed.

Lemma ascii_text_app (a b : string) :
  Spec.ascii_text (a +:+ b) = Spec.ascii_text a && Spec.ascii_text b.
Proof.
  unfold Spec.ascii_text. induction a as [|c a IH]; [reflexivity|].
  rewrite append_cons. cbn. now rewrite IH, andb_assoc.
Qed.

Lemma hex_digit_ascii x : (byte (Sha1.hex_digit (x mod 16)) <? 128)%N = true.
Proof.
  pose proof (Z.mod_pos_bound x 16 ltac:(lia)) as H.
  destruct (x mod 16) as [|p|p]; [reflexivity | | lia].
  do 4 (try destruct p as [p|p|]); try reflexivity; lia.
Qed.

Lemma hex_ascii n x : Spec.ascii_text (Sha1.hex n x) = true.
Proof.
  induction n as [|n IH]; [reflexivity|]. unfold Spec.ascii_text in *.
  cbn [Sha1.hex list_ascii_of_string forallb]. now rewrite hex_digit_ascii, IH.
Qed.

(** A digest is written in ASCII. *)
Lemma hash_ascii text : Spec.ascii_text (_hash text) = true.
Proof.
  unfold _hash, Sha1.hexdigest. cbv zeta.
  now rewrite !ascii_text_app, !hex_ascii.
Qed.

(** The sequence number can be read back from an identifier. *)
Lemma cid_index origin origin' idx idx' chunk chunk' :
  cid (_hash origin) idx chunk = cid (_hash origin') idx' chunk' -> idx = idx'.
Proof.
  unfold cid. intros H.
  apply append_inj_l in H as [_ H]; [|now rewrite !hash_length].
  rewrite !append_cons in H. injection H as H.
  change (str_of_nat idx +:+ ("_" +:+ take 8 (_hash chunk))
          = str_of_nat idx' +:+ ("_" +:+ take 8 (_hash chunk'))) in H.
  apply append_inj_r in H as [H _].
  - unfold str_of_nat in H. apply (inj pretty) in H. lia.
  - rewrite !append_length, !take_length; try reflexivity; try apply hash_ascii;
      rewrite hash_length; lia.
Qed.

(** X4: the chunk records of one run of [_run_ingestion] carry pairwise
    distinct identifiers (the run-wide sequence number tells them apart),
    so a batch never holds the same identifier twice. *)
Theorem run_identifiers_distinct all_files :
  List.NoDup (map chunk_id (all_chunks (process_files all_files))).
Proof.
  apply List.NoDup_nth_error. intros i j Hi Heq.
  rewrite List.length_map in Hi.
  destruct (nth_error (all_chunks (process_files all_files)) i) as [c|] eqn:Ec;
    [|apply nth_error_None in Ec; lia].
  rewrite !nth_error_map, Ec in Heq. cbn [option_map] in Heq.
  destruct (nth_error (all_chunks (process_files all_files)) j) as [c'|] eqn:Ec';
    [|discriminate].
  cbn [option_map] in Heq. injection Heq as Heq.
  destruct (process_files_spec _html_to_md parse_content all_files i c Ec) as (Hc & _).
  destruct (process_files_spec _html_to_md parse_content all_files j c' Ec') as (Hc' & _).
  rewrite Hc, Hc' in Heq. now apply cid_index in Heq.
Qed.

(** *** The final pass of [ingest_profile] *)

Lemma existsb_eqb_In (i : string) (l : list string) :
  existsb (String.eqb i) l = true <-> In i l.
Proof.
  rewrite existsb_exists. split.
  - intros (x & Hx & He). apply String.eqb_eq in He. now subst.
  - intros H. exists i. split; [exact H | apply String.eqb_refl].
Qed.

(** An entry that is kept is the first of its identifier, and its
    identifier had not been seen. *)
Lemma dedup_docs_first docs : forall seen d,
  In d (dedup_docs seen docs) ->
  ~ In (doc_id d) seen
  /\ exists before after,
       docs = before ++ d :: after /\ ~ In (doc_id d) (map doc_id before).
Proof.
  induction docs as [|x docs IH]; intros seen d; [intros []|].
  cbn [dedup_docs]. destruct (existsb (String.eqb (doc_id x)) seen) eqn:E.
  - intros H. destruct (IH seen d H) as (Hs & before & after & -> & Hb).
    split; [exact Hs|]. exists (x :: before), after. split; [reflexivity|].
    cbn [map]. intros [Hx|Hx]; [|tauto].
    apply existsb_eqb_In in E. congruence.
  - intros [<-|H].
    + split.
      * intros Hs. apply existsb_eqb_In in Hs. congruence.
      * exists [], docs. split; [reflexivity | intros []].
    + destruct (IH (doc_id x :: seen) d H) as (Hs & before & after & -> & Hb).
      split; [intros Hs'; apply Hs; now right|].
      exists (x :: before), after. split; [reflexivity|].
      cbn [map]. intros [Hx|Hx]; [|tauto]. apply Hs. now left.
Qed.

Lemma dedup_docs_NoDup docs : forall seen,
  List.NoDup (map doc_id (dedup_docs seen docs)).
Proof.
  induction docs as [|x docs IH]; intros seen; [constructor|].
  cbn [dedup_docs]. destruct (existsb (String.eqb (doc_id x)) seen); [apply IH|].
  cbn [map]. constructor; [|apply IH].
  intros H. apply in_map_iff in H as (d & Hd & Hin).
  apply dedup_docs_first in Hin as [Hs _]. apply Hs. rewrite Hd. now left.
Qed.

Lemma dedup_docs_complete docs : forall seen i,
  In i (map doc_id docs) -> In i seen \/ In i (map doc_id (dedup_docs seen docs)).
Proof.
  induction docs as [|x docs IH]; intros seen i; [intros []|].
  cbn [map dedup_docs]. destruct (existsb (String.eqb (doc_id x)) seen) eqn:E.
  - intros [<-|H]; [left; now apply existsb_eqb_In | now apply IH].
  - intros [<-|H]; [right; now left|].
    destruct (IH (doc_id x :: seen) i H) as [[<-|Hs]|Hd].
    + right. now left.
    + now left.
    + right. now right.
Qed.

(** X5: the identifiers [ingest_profile] upserts are pairwise distinct,
    they are exactly the identifiers of the entries built from the pages
    and the files, and the entry kept for an identifier is the first one
    built with it. *)
Theorem ingest_profile_ids_distinct cfg raw files :
  let docs := web_docs cfg raw ++ local_docs cfg files in
  List.NoDup (ingest_profile_ids cfg raw files)
  /\ (forall i, In i (ingest_profile_ids cfg raw files) <-> In i (map doc_id docs))
  /\ (forall d, In d (dedup_docs [] docs) ->
        exists before after,
          docs = before ++ d :: after /\ ~ In (doc_id d) (map doc_id before)).
Proof.
  cbv zeta. unfold Ingest.ingest_profile_ids. split; [apply dedup_docs_NoDup|]. split.
  - intros i. split.
    + intros H. apply in_map_iff in H as (d & <- & Hd).
      apply in_map. eapply dedup_docs_In, Hd.
    + intros H. destruct (dedup_docs_complete _ [] i H) as [[]|Hd]. exact Hd.
  - intros d Hd. now apply dedup_docs_first in Hd as [_ H].
Qed.

End DistinctFacts.

(** ** What a crawl visits and what it leaves in the cache directory *)

Section CrawlVisitFacts.
Import Py Ingest.

Variable url_scheme url_netloc url_path : string -> string.
Variable urljoin : string -> string -> string.
Variable robots : Type.
Variable robots_parse : string -> robots.
Variable can_fetch : robots -> string -> string -> bool.
Variable http_get : string -> option response.
Variable hrefs : string -> list string.

Abbreviation allowed_path := (_is_allowed_path url_netloc url_path).
Abbreviation key_of := (domain_key url_scheme url_netloc).
Abbreviation fetched := (fetch_robots robots robots_parse http_get).
Abbreviation step :=
  (crawl_step url_scheme url_netloc url_path urljoin robots robots_parse can_fetch
              http_get hrefs).
Abbreviation loop :=
  (crawl_loop url_scheme url_netloc url_path urljoin robots robots_parse can_fetch
              http_get hrefs).
Abbreviation crawl :=
  (crawl_website url_scheme url_netloc url_path urljoin robots robots_parse can_fetch
                 http_get hrefs).
Abbreviation links := (discovered url_netloc url_path urljoin hrefs).

(** The outcomes of "load cached or fetch". *)
Lemma load_page_cases cd url page cd' reqs :
  load_page http_get cd url = (page, cd', reqs) ->
  (exists html, _read_cache cd url = Some html
                /\ page = Some html /\ cd' = cd /\ reqs = [])
  \/ (_read_cache cd url = None /\ reqs = [GetPage url]
      /\ ((page = None /\ cd' = cd)
          \/ exists r, http_get url = Some r /\ status_code r = 200
                       /\ contains (content_type r) "text/html" = true
                       /\ page = Some (body r) /\ cd' = _write_cache cd url (body r))).
Proof.
  unfold load_page. intros H. destruct (_read_cache cd url) as [html|] eqn:E.
  - injection H as <- <- <-. left. now exists html.
  - right. split; [reflexivity|].
    destruct (http_get url) as [r|] eqn:Hr.
    + destruct (Z.eqb_spec (status_code r) 200) as [Hs|Hs]; cbn [negb orb] in H.
      * destruct (contains (content_type r) "text/html") eqn:Hc; cbn [negb] in H;
          injection H as <- <- <-; (split; [reflexivity|]).
        -- right. exists r. now repeat split.
        -- now left.
      * injection H as <- <- <-. split; [reflexivity|]. now left.
    + injection H as <- <- <-. split; [reflexivity|]. now left.
Qed.

(** One iteration either skips the URL at the head of the frontier (seen
    before, or outside the allowed paths), or marks it seen, consults the
    robots gate and, if the gate lets it pass, loads the page. *)
Lemma crawl_step_cases base allowed max_depth st url depth rest :
  frontier robots st = (url, depth) :: rest ->
  ((seen robots st ⊆ seen robots (step base allowed max_depth st))
   /\ out robots (step base allowed max_depth st) = out robots st
   /\ requests robots (step base allowed max_depth st) = requests robots st
   /\ cache_dir robots (step base allowed max_depth st) = cache_dir robots st
   /\ rcache robots (step base allowed max_depth st) = rcache robots st
   /\ frontier robots (step base allowed max_depth st) = rest)
  \/ ((url ∉ seen robots st)
      /\ seen robots (step base allowed max_depth st) = {[url]} ∪ seen robots st
      /\ exists reqs page cd reqs',
           ((reqs = [] /\ rcache robots (step base allowed max_depth st) = rcache robots st)
            \/ (reqs = [GetRobots (robots_url (key_of base))]
                /\ rcache robots st !! key_of base = None
                /\ rcache robots (step base allowed max_depth st)
                   = <[key_of base := fetched (key_of base)]> (rcache robots st)))
           /\ ((page = None /\ cd = cache_dir robots st /\ reqs' = [])
               \/ load_page http_get (cache_dir robots st) url = (page, cd, reqs'))
           /\ requests robots (step base allowed max_depth st)
              = requests robots st ++ reqs ++ reqs'
           /\ cache_dir robots (step base allowed max_depth st) = cd
           /\ out robots (step base allowed max_depth st)
              = out robots st ++ match page with
                                 | Some html => [(url, html)]
                                 | None => []
                                 end
           /\ frontier robots (step base allowed max_depth st)
              = rest ++ match page with
                        | Some html => if max_depth <=? depth then []
                                       else links base allowed url html depth
                        | None => []
                        end).
Proof.
  intros Hf. unfold crawl_step. rewrite Hf.
  destruct (decide (url ∈ seen robots st)) as [Hin|Hin].
  { left. cbn. now repeat split. }
  destruct (allowed_path url base allowed) eqn:Hallowed; cbn [negb].
  2:{ left. cbn. repeat split. set_solver. }
  right. split; [exact Hin|].
  rewrite robots_allowed_spec.
  destruct (rcache robots st !! key_of base) as [entry|] eqn:Hentry.
  - destruct (verdict robots can_fetch entry url); cbn [negb].
    + destruct (load_page http_get (cache_dir robots st) url) as [[page cd] reqs'] eqn:Hload.
      destruct page as [html|]; cbn; (split; [reflexivity|]);
        [exists [], (Some html), cd, reqs' | exists [], None, cd, reqs'];
        (split; [left; now split|]); (split; [now right|]);
        cbn [app]; now rewrite ?app_nil_r.
    + cbn. split; [reflexivity|]. exists [], None, (cache_dir robots st), [].
      split; [left; now split|]. split; [now left|]. cbn [app]. now rewrite !app_nil_r.
  - destruct (verdict robots can_fetch (fetched (key_of base)) url); cbn [negb].
    + destruct (load_page http_get (cache_dir robots st) url) as [[page cd] reqs'] eqn:Hload.
      destruct page as [html|]; cbn; (split; [reflexivity|]);
        [exists [GetRobots (robots_url (key_of base))], (Some html), cd, reqs'
        |exists [GetRobots (robots_url (key_of base))], None, cd, reqs'];
        (split; [right; now repeat split|]); (split; [now right|]);
        cbn [app]; now rewrite ?app_nil_r.
    + cbn. split; [reflexivity|].
      exists [GetRobots (robots_url (key_of base))], None, (cache_dir robots st), [].
      split; [right; now repeat split|]. split; [now left|]. cbn [app].
      now rewrite !app_nil_r.
Qed.

Lemma NoDup_snoc {A} (l : list A) (x : A) :
  List.NoDup l -> ~ In x l -> List.NoDup (l ++ [x]).
Proof.
  intros Hl Hx. apply List.NoDup_app; [exact Hl | repeat constructor; intros [] |].
  intros a Ha [<-|[]]. contradiction.
Qed.



Lemma crawl_loop_idle fuel base allowed max_depth st :
  frontier robots st = [] -> loop fuel base allowed max_depth st = st.
Proof. intros H. destruct fuel; [reflexivity|]. cbn [crawl_loop]. now rewrite H. Qed.

(** Requests and accepted pages are for URLs marked seen, never issued or
    accepted twice; robots.txt was requested only for a host that now has a
    cache entry. *)
Abbreviation visited_once base st :=
  (List.NoDup (requests robots st)
   /\ List.NoDup (map fst (out robots st))
   /\ (forall u, In (GetPage u) (requests robots st) -> u ∈ seen robots st)
   /\ (forall u h, In (u, h) (out robots st) -> u ∈ seen robots st)
   /\ (forall u, In (GetRobots u) (requests robots st) ->
                 is_Some (rcache robots st !! key_of base))).



(** X7: with a maximal depth of zero or less the crawl ends after its first
    iteration: no link is followed, and only the start URL can be requested
    or accepted. *)
Theorem crawl_depth_zero fuel rc cd start_url allowed max_depth
  (Hdepth : max_depth <= 0) :
  (forall u, In (GetPage u)
                (requests robots (crawl fuel rc cd start_url allowed max_depth)) ->
             u = start_url)
  /\ (forall u h, In (u, h) (out robots (crawl fuel rc cd start_url allowed max_depth)) ->
                  u = start_url)
  /\ (fuel <> 0%nat ->
      frontier robots (crawl fuel rc cd start_url allowed max_depth) = []).
Proof.
  unfold crawl_website.
  set (base := url_scheme start_url +:+ "://" +:+ url_netloc start_url).
  destruct fuel as [|fuel].
  { cbn. repeat split; try (intros; contradiction). }
  cbn [crawl_loop frontier].
  set (init := Crawl robots [(start_url, 0)] ∅ [] rc cd []).
  destruct (crawl_step_cases base allowed max_depth init start_url 0 [] eq_refl)
    as [(_ & Hout & Hreq & _ & _ & Hfr)
       |(_ & _ & reqs & page & cd' & reqs' & Hgate & Hload & Hreq & _ & Hout & Hfr)].
  - rewrite crawl_loop_idle by exact Hfr. rewrite Hout, Hreq, Hfr. cbn.
    repeat split; intros; contradiction.
  - assert (Hfr' : frontier robots (step base allowed max_depth init) = []).
    { rewrite Hfr. cbn [app]. destruct page; [|reflexivity].
      now replace (max_depth <=? 0) with true by (symmetry; apply Z.leb_le; lia). }
    rewrite crawl_loop_idle by exact Hfr'. rewrite Hout, Hreq, Hfr'. cbn [out requests app].
    split; [|split; [|reflexivity]].
    + intros u Hu. apply in_app_or in Hu as [Hu|Hu]; [destruct Hu|].
      apply in_app_or in Hu as [Hu|Hu].
      * destruct Hgate as [[-> _]|(-> & _)]; [destruct Hu|].
        destruct Hu as [Hu|[]]. discriminate.
      * destruct Hload as [(_ & _ & ->)|Hload]; [destruct Hu|].
        apply load_page_cases in Hload as [(html & _ & _ & _ & ->)|(_ & -> & _)];
          [destruct Hu|]. destruct Hu as [[= <-]|[]]. reflexivity.
    + intros u h Hu. apply in_app_or in Hu as [Hu|Hu]; [destruct Hu|].
      destruct page; [|destruct Hu].
      destruct Hu as [[= <- _]|[]]. reflexivity.
Qed.

(** Where a file, and a page, come from: a 200 text/html response to a page
    request among [reqs], or the cache. *)
Abbreviation written_for reqs f :=
  (exists u r, f = cache_file u /\ In (GetPage u) reqs
               /\ http_get u = Some r /\ status_code r = 200
               /\ contains (content_type r) "text/html" = true).
Abbreviation from_response reqs u h :=
  (exists r, In (GetPage u) reqs /\ http_get u = Some r /\ status_code r = 200
             /\ contains (content_type r) "text/html" = true /\ body r = h).
Abbreviation from_cache reqs u h :=
  ((exists stored, h = universal_newlines stored) /\ ~ In (GetPage u) reqs).

Abbreviation cache_kept cd0 base st :=
  (visited_once base st
   /\ (cd0 ⊆ cache_dir robots st)
   /\ (forall f, is_Some (cache_dir robots st !! f) ->
                 is_Some (cd0 !! f) \/ written_for (requests robots st) f)
   /\ (forall u h, In (u, h) (out robots st) ->
                   from_response (requests robots st) u h
                   \/ from_cache (requests robots st) u h)).



End CrawlVisitFacts.

Lemma crawl_depth_zero_witness :
  (forall u, In (Ingest.GetPage u)
                (Ingest.requests _
                   (Ingest.crawl_website Fixture.url_scheme Fixture.url_netloc
                      Fixture.url_path Fixture.urljoin Fixture.robots Fixture.robots_parse
                      Fixture.can_fetch Fixture.site Fixture.site_hrefs
                      10 ∅ ∅ "https://docs.example/guide" [] 0)) ->
             u = "https://docs.example/guide")
  /\ Ingest.out _
       (Ingest.crawl_website Fixture.url_scheme Fixture.url_netloc
          Fixture.url_path Fixture.urljoin Fixture.robots Fixture.robots_parse
          Fixture.can_fetch Fixture.site Fixture.site_hrefs
          10 ∅ ∅ "https://docs.example/guide" [] 0)
     = [("https://docs.example/guide", "guide page")].
Proof.
  split; [|vm_compute; reflexivity].
  apply (crawl_depth_zero Fixture.url_scheme Fixture.url_netloc Fixture.url_path
           Fixture.urljoin Fixture.robots Fixture.robots_parse Fixture.can_fetch
           Fixture.site Fixture.site_hrefs 10 ∅ ∅ "https://docs.example/guide" [] 0).
  lia.
Defined.

(** ** When the lexical ranking fills the result *)

Section LexicalFacts.
Import Py Search.

Variable meta : Type.
Variable no_meta : meta.
Variable bm25_argsort : string -> list string -> list nat.
Variable count : Z.
Variable get : Z -> list string * list string * list meta.

Abbreviation _bm25_rank := (_bm25_rank bm25_argsort).

(** Keys that are new and pairwise distinct are all appended, in order. *)
Lemma fromkeys_fresh l : forall keys,
  List.NoDup (keys ++ l) ->
  fold_left (fun keys x => if existsb (Nat.eqb x) keys then keys else keys ++ [x]) l keys
  = keys ++ l.
Proof.
  induction l as [|x l IH]; intros keys Hnd; cbn [fold_left].
  - now rewrite app_nil_r.
  - assert (Hx : existsb (Nat.eqb x) keys = false).
    { apply not_true_is_false. intros H. apply existsb_exists in H as (y & Hy & He).
      apply Nat.eqb_eq in He. subst y. apply NoDup_remove_2 in Hnd.
      apply Hnd, in_or_app. now left. }
    rewrite Hx, IH; rewrite <- app_assoc; [reflexivity | exact Hnd].
Qed.

(** Keys are only appended. *)
Lemma fromkeys_grows l : forall keys, exists rest,
  fold_left (fun keys x => if existsb (Nat.eqb x) keys then keys else keys ++ [x]) l keys
  = keys ++ rest.
Proof.
  induction l as [|x l IH]; intros keys; cbn [fold_left].
  - exists []. now rewrite app_nil_r.
  - destruct (existsb (Nat.eqb x) keys); [apply IH|].
    destruct (IH (keys ++ [x])) as (rest & ->). exists (x :: rest).
    now rewrite <- app_assoc.
Qed.

Lemma slice_to_firstn {A} (l : list A) k :
  0 <= k -> slice_to l k = firstn (Z.to_nat k) l.
Proof.
  intros Hk. unfold slice_to, slice, clamp. change (0 <? 0) with false. cbv iota.
  replace (k <? 0) with false by (symmetry; apply Z.ltb_ge; lia).
  pose proof (len_nonneg l) as Hl. rewrite (Z.min_l 0) by lia.
  change (skipn (Z.to_nat 0) l) with l.
  rewrite Z.sub_0_r. destruct (Z.le_gt_cases k (len l)) as [H|H].
  - now rewrite Z.min_l by lia.
  - rewrite Z.min_r by lia. unfold len in *. rewrite Nat2Z.id.
    rewrite !firstn_all2; [reflexivity | lia | lia].
Qed.

(** With [combine_top_k] no larger than the lexical top-K, the fused
    positions are the first [combine_top_k] of the lexical ranking. *)
Lemma merged_lexical embed_argsort cfg question docs :
  Permutation (bm25_argsort question docs) (seq 0 (List.length docs)) ->
  0 <= combine_top_k cfg <= Z.min (k_bm25 cfg) (len docs) ->
  merged_indices bm25_argsort embed_argsort cfg question docs
  = _bm25_rank question docs (combine_top_k cfg).
Proof.
  intros Hperm Hk. unfold merged_indices, fromkeys, Search._bm25_rank.
  set (m := Z.min (k_bm25 cfg) (len docs)) in *.
  set (ranked := rev (bm25_argsort question docs)).
  assert (Hlen : List.length ranked = List.length docs).
  { unfold ranked. rewrite length_rev, (Permutation_length Hperm). apply length_seq. }
  assert (Hnd : List.NoDup ranked).
  { unfold ranked. apply NoDup_rev. eapply Permutation_NoDup; [symmetry; exact Hperm|].
    apply seq_NoDup. }
  rewrite fold_left_app.
  rewrite (fromkeys_fresh (slice_to ranked m) []) by (cbn [app]; now apply slice_to_NoDup).
  cbn [app].
  destruct (fromkeys_grows (_top_k_embed embed_argsort question docs
                              (Z.min (k_embed cfg) (len docs)))
                           (slice_to ranked m)) as (rest & ->).
  rewrite !slice_to_firstn by lia.
  assert (Hm : (Z.to_nat (combine_top_k cfg) <= Z.to_nat m)%nat) by lia.
  rewrite firstn_app, firstn_firstn, Nat.min_l by exact Hm.
  rewrite List.length_firstn, Hlen.
  replace (Z.to_nat (combine_top_k cfg) - Nat.min (Z.to_nat m) (List.length docs))%nat
    with 0%nat by (unfold m, len in *; lia).
  cbn [firstn]. now rewrite app_nil_r.
Qed.

(** X9: when [combine_top_k] is at most the number of lexical hits kept
    (the smaller of [k_bm25] and the size of the snapshot), [search]
    returns the first [combine_top_k] hits of the BM25 ranking: the semantic
    ranking is computed but cannot change the result. *)
Theorem semantic_ranking_unused (cfg : retrieval_cfg) (question : string)
  (embed1 embed2 : string -> list string -> list nat)
  (Hbm : forall q c, Permutation (bm25_argsort q c) (seq 0 (List.length c)))
  (Hk : 0 <= combine_top_k cfg
        <= Z.min (k_bm25 cfg) (len (snd (fst (get (Z.min 200 count)))))) :
  search meta no_meta bm25_argsort embed1 count get cfg question
  = search meta no_meta bm25_argsort embed2 count get cfg question
  /\ merged_indices bm25_argsort embed1 cfg question (snd (fst (get (Z.min 200 count))))
     = _bm25_rank question (snd (fst (get (Z.min 200 count)))) (combine_top_k cfg).
Proof.
  split; [|now apply merged_lexical].
  unfold search. destruct (count =? 0); [reflexivity|].
  destruct (get (Z.min 200 count)) as [[ids docs] metadatas]. cbn [fst snd] in Hk.
  destruct docs as [|d docs]; [reflexivity|].
  now rewrite !merged_lexical.
Qed.

End LexicalFacts.

(** An instance: three chunks, two results asked for, two lexical hits kept;
    the semantic ranker prefers the other end of the snapshot. *)
Lemma semantic_ranking_unused_witness :
  Search.search unit tt (fun _ c => seq 0 (List.length c))
    (fun _ c => rev (seq 0 (List.length c)))
    3 (fun _ => (["id-a"; "id-b"; "id-c"], ["alpha"; "beta"; "gamma"], []))
    (Search.RetrievalCfg 2 2 2) "gamma"
  = Search.search unit tt (fun _ c => seq 0 (List.length c))
      (fun _ c => seq 0 (List.length c))
      3 (fun _ => (["id-a"; "id-b"; "id-c"], ["alpha"; "beta"; "gamma"], []))
      (Search.RetrievalCfg 2 2 2) "gamma".
Proof.
  apply (semantic_ranking_unused unit tt (fun _ c => seq 0 (List.length c))
           3 (fun _ => (["id-a"; "id-b"; "id-c"], ["alpha"; "beta"; "gamma"], []))
           (Search.RetrievalCfg 2 2 2) "gamma"
           (fun _ c => rev (seq 0 (List.length c)))
           (fun _ c => seq 0 (List.length c))).
  - intros q c. apply Permutation_refl.
  - unfold Py.len. cbn. lia.
Defined.

(** ** Scanning for changes *)

Section ScanFacts.
Import Updater.

Variable sha256 : string -> string.
Variable int_of_str : string -> outcome Z.
Variable db : gmap string row.
Variable http_head : string -> outcome headers.
Variable http_get : string -> outcome string.

Abbreviation check := (check_url_changes sha256 int_of_str db http_head http_get).
Abbreviation scan_one := (scan_step sha256 int_of_str db http_head http_get).
Abbreviation scan_all := (scan_for_changes sha256 int_of_str db http_head http_get).
Abbreviation stable_hash := (calculate_content_hash sha256).

(** Whatever the network does, a URL is reported new exactly when it has
    no stored row. *)
Lemma check_is_new u : is_new (check u) = bool_decide (db !! u = None).
Proof.
  unfold check_url_changes, failed.
  destruct (http_head u) as [h|msg]; [|reflexivity].
  destruct (header_signals int_of_str (db !! u) h) as [sigs|msg]; [|reflexivity].
  destruct (DocIntel.nonempty sigs || _); [|reflexivity].
  destruct (http_get u) as [content|msg]; [|reflexivity].
  destruct (db !! u) as [r|];
    [destruct (negb (String.eqb _ (content_hash r)))|];
    (destruct (truthy (h_content_length h)); [destruct (int_of_str _)|]); reflexivity.
Qed.

(** X10: a URL without a stored row is filed under new, or under errors
    when the check failed with a message; it is never filed as unchanged or
    updated, and nothing is written to the change log for it.  When the HEAD
    and GET requests succeed (no Content-Length sent), the check reports it
    changed with the hash of the body as new hash, without any signal and
    with confidence 0. *)
Theorem scan_unknown_url st u (Hdb : db !! u = None) :
  change_log (scan_one st u) = change_log st
  /\ unchanged (scan_one st u) = unchanged st
  /\ updated (scan_one st u) = updated st
  /\ ((new (scan_one st u) = new st ++ [u] /\ scan_errors (scan_one st u) = scan_errors st)
      \/ (scan_errors (scan_one st u) = scan_errors st ++ [u]
          /\ new (scan_one st u) = new st))
  /\ (forall h content,
        http_head u = Got h -> http_get u = Got content ->
        truthy (h_content_length h) = false ->
        check u
        = Changes u (Some true) true 0 None (Some (stable_hash content)) None
                  (Some (Metadata (stable_hash content) (h_last_modified h) (h_etag h)
                                  None content))
                  None).
Proof.
  assert (Hnew : is_new (check u) = true).
  { rewrite check_is_new. now apply bool_decide_eq_true_2. }
  unfold scan_step. rewrite Hnew.
  split; [|split; [|split; [|split]]];
    try (destruct (truthy (error (check u))); reflexivity).
  - destruct (truthy (error (check u))); [right | left]; now split.
  - intros h content Hhead Hget Hlen. unfold check_url_changes.
    rewrite Hdb, Hhead. cbn [header_signals DocIntel.nonempty orb].
    rewrite bool_decide_eq_true_2 by reflexivity. cbn [is_new].
    rewrite Hget, Hlen. reflexivity.
Qed.

Lemma opt_eqb_string_refl (x : option string) : opt_eqb String.eqb x x = true.
Proof. destruct x as [s|]; [apply String.eqb_refl | reflexivity]. Qed.

(** X11: for a known URL whose response headers raise no signal (each of
    ETag, Last-Modified and Content-Length is absent, empty or equal to the
    stored value), the body is not consulted: the result is "unchanged"
    whatever a GET would return, so a change of content behind unchanged
    headers goes undetected. *)
Theorem silent_headers_hide_changes u r h (get' : string -> outcome string)
  (Hdb : db !! u = Some r) (Hhead : http_head u = Got h)
  (Hetag : truthy (h_etag h) = false \/ h_etag h = etag r)
  (Hmod : truthy (h_last_modified h) = false \/ h_last_modified h = last_modified r)
  (Hlen : truthy (h_content_length h) = false
          \/ exists n, int_of_str (default "" (h_content_length h)) = Got n
                       /\ content_length r = Some n) :
  check_url_changes sha256 int_of_str db http_head get' u
  = Changes u (Some false) false 0 None None None None None.
Proof.
  unfold check_url_changes. rewrite Hdb, Hhead.
  assert (Hsig : header_signals int_of_str (Some r) h = Got []).
  { unfold header_signals.
    assert (H1 : truthy (h_etag h) && negb (opt_eqb String.eqb (h_etag h) (etag r)) = false).
    { destruct Hetag as [->| ->]; [reflexivity|].
      rewrite opt_eqb_string_refl. apply andb_false_r. }
    assert (H2 : truthy (h_last_modified h)
                 && negb (opt_eqb String.eqb (h_last_modified h) (last_modified r)) = false).
    { destruct Hmod as [->| ->]; [reflexivity|].
      rewrite opt_eqb_string_refl. apply andb_false_r. }
    rewrite H1, H2. destruct Hlen as [->|(n & -> & ->)]; [reflexivity|].
    destruct (truthy (h_content_length h)); [|reflexivity].
    cbn [opt_eqb]. now rewrite Z.eqb_refl. }
  rewrite Hsig. cbn [DocIntel.nonempty orb is_new].
  now rewrite bool_decide_eq_false_2 by discriminate.
Qed.

(** Where one URL is filed. *)
Lemma scan_step_files st u :
  Permutation (unchanged (scan_one st u) ++ updated (scan_one st u)
               ++ new (scan_one st u) ++ scan_errors (scan_one st u))
              ((unchanged st ++ updated st ++ new st ++ scan_errors st) ++ [u]).
Proof.
  unfold scan_step.
  destruct (truthy (error (check u))); [|destruct (is_new (check u));
    [|destruct (bool_decide (has_changed (check u) = Some true))]];
    cbn [unchanged updated new scan_errors]; rewrite <- ?app_assoc;
    repeat apply Permutation_app_head; cbn [app];
    try reflexivity;
    (etransitivity; [apply Permutation_cons_append | now rewrite <- ?app_assoc]).
Qed.

Lemma scan_fold_files urls : forall st,
  Permutation (unchanged (fold_left scan_one urls st) ++ updated (fold_left scan_one urls st)
               ++ new (fold_left scan_one urls st) ++ scan_errors (fold_left scan_one urls st))
              ((unchanged st ++ updated st ++ new st ++ scan_errors st) ++ urls).
Proof.
  induction urls as [|u urls IH]; intros st; cbn [fold_left].
  - now rewrite app_nil_r.
  - rewrite IH, scan_step_files, <- app_assoc. reflexivity.
Qed.

(** X12: [scan_for_changes] files every URL it is given under exactly one
    of unchanged, updated, new and errors: the four lists together are a
    rearrangement of the input, each occurrence counted. *)
Theorem scan_partitions log urls :
  let found := scan_for_changes sha256 int_of_str db http_head http_get log urls in
  Permutation (unchanged found ++ updated found ++ new found ++ scan_errors found) urls.
Proof. cbv zeta. unfold scan_for_changes. now rewrite scan_fold_files. Qed.

Lemma scan_fold_log urls : forall st, exists added,
  change_log (fold_left scan_one urls st) = change_log st ++ added
  /\ updated (fold_left scan_one urls st) = updated st ++ map c_url added
  /\ Forall (fun rec => c_change_type rec = "content") added.
Proof.
  induction urls as [|u urls IH]; intros st; cbn [fold_left].
  - exists []. cbn [map]. rewrite !app_nil_r. now repeat split.
  - destruct (IH (scan_one st u)) as (added & Hlog & Hup & Hall).
    rewrite Hlog, Hup. unfold scan_step.
    destruct (truthy (error (check u))); [exists added; now repeat split|].
    destruct (is_new (check u)); [exists added; now repeat split|].
    destruct (bool_decide (has_changed (check u) = Some true));
      [|exists added; now repeat split].
    cbn [change_log updated].
    exists (ChangeRecord u "content" (old_hash (check u)) (new_hash (check u)) :: added).
    rewrite <- !app_assoc. cbn [app map c_url]. repeat split. now constructor.
Qed.

(** X13: a scan only appends to the change log, one record of type
    [content] per URL filed as updated, in the same order; the records that
    were there are kept, and new or failing URLs leave no record. *)
Theorem scan_log_appended log urls :
  let found := scan_for_changes sha256 int_of_str db http_head http_get log urls in
  exists added,
    change_log found = log ++ added
    /\ map c_url added = updated found
    /\ Forall (fun rec => c_change_type rec = "content") added.
Proof.
  cbv zeta. unfold scan_for_changes.
  destruct (scan_fold_log urls (Scan [] [] [] [] log)) as (added & Hlog & Hup & Hall).
  exists added. cbn [change_log updated app] in *. now rewrite Hup.
Qed.

Lemma header_weights existing h sigs :
  header_signals int_of_str existing h = Got sigs ->
  Forall (fun s : string * Q => (snd s <= 9 # 10)%Q) sigs.
Proof.
  unfold header_signals. destruct existing as [r|]; [|intros [= <-]; constructor].
  assert (H1 : forall b : bool,
             Forall (fun s : string * Q => (snd s <= 9 # 10)%Q)
                    (if b then [("etag", (9 # 10)%Q)] else [])).
  { intros []; repeat constructor. cbn. apply Qle_refl. }
  assert (H2 : forall b : bool,
             Forall (fun s : string * Q => (snd s <= 9 # 10)%Q)
                    (if b then [("last_modified", (8 # 10)%Q)] else [])).
  { intros []; repeat constructor. cbn. discriminate. }
  assert (H3 : forall b : bool,
             Forall (fun s : string * Q => (snd s <= 9 # 10)%Q)
                    (if b then [("content_length", (5 # 10)%Q)] else [])).
  { intros []; repeat constructor. cbn. discriminate. }
  destruct (truthy (h_content_length h)).
  - destruct (int_of_str _) as [n|msg]; [|discriminate].
    intros [= <-]. apply Forall_app. split; [apply H1|].
    apply Forall_app. split; [apply H2 | apply H3].
  - intros [= <-]. apply Forall_app. split; [apply H1 | apply H2].
Qed.

Lemma max_weight_bound (b : Q) sigs : forall acc : Q,
  (acc <= b)%Q -> Forall (fun s : string * Q => (snd s <= b)%Q) sigs ->
  (fold_left (fun acc s => Qmax acc (snd s)) sigs acc <= b)%Q.
Proof.
  induction sigs as [|s sigs IH]; intros acc Hacc Hall; cbn [fold_left]; [exact Hacc|].
  inversion Hall as [|? ? Hs Hrest]; subst. apply IH; [|exact Hrest].
  now apply Q.max_lub.
Qed.

(** X14: the confidence of a check never exceeds 1, and when a known URL
    is reported changed the confidence is 1 and [content_hash] is among the
    signals: only the comparison of content hashes can report a change of a
    known URL, the header signals alone cannot. *)
Theorem change_confidence u :
  let change_info := check_url_changes sha256 int_of_str db http_head http_get u in
  (confidence change_info <= 1)%Q
  /\ (forall r, db !! u = Some r -> has_changed change_info = Some true ->
        (confidence change_info == 1)%Q
        /\ (exists sigs, signals change_info = Some sigs /\ In "content_hash" sigs)
        /\ old_hash change_info = Some (content_hash r)
        /\ new_hash change_info <> Some (content_hash r)).
Proof.
  cbv zeta. unfold check_url_changes, failed.
  destruct (http_head u) as [h|msg]; [|split; [discriminate | intros r _ [=]]].
  destruct (header_signals int_of_str (db !! u) h) as [sigs|msg] eqn:Hsig;
    [|split; [discriminate | intros r _ [=]]].
  destruct (DocIntel.nonempty sigs || _);
    [|split; [discriminate | intros r _ [=]]].
  destruct (http_get u) as [content|msg]; [|split; [discriminate | intros r _ [=]]].
  pose proof (header_weights _ _ _ Hsig) as Hw.
  assert (Hle : (fold_left (fun acc s => Qmax acc (snd s)) sigs 0 <= 9 # 10)%Q)
    by (apply max_weight_bound; [discriminate | exact Hw]).
  assert (Hone : (max_weight (sigs ++ [("content_hash", 1%Q)]) == 1)%Q).
  { unfold max_weight. rewrite fold_left_app. cbn [fold_left snd].
    apply Q.max_r. eapply Qle_trans; [exact Hle | discriminate]. }
  assert (Hsome : forall l : list (string * Q),
             ((if DocIntel.nonempty l then max_weight l else 0) <= 1)%Q ->
             True) by trivial.
  destruct (db !! u) as [r|] eqn:Hdb.
  - destruct (String.eqb_spec (stable_hash content) (content_hash r)) as [He|He];
      cbn [negb].
    + assert (Hc : ((if DocIntel.nonempty sigs then max_weight sigs else 0) <= 1)%Q).
      { destruct sigs; cbn [DocIntel.nonempty]; [discriminate|].
        eapply Qle_trans; [exact Hle | discriminate]. }
      destruct (truthy (h_content_length h)); [destruct (int_of_str _)|];
        cbn; (split; [exact Hc | intros r' _ [=]]).
    + assert (Hn : DocIntel.nonempty (sigs ++ [("content_hash", 1%Q)]) = true)
        by (destruct sigs; reflexivity).
      destruct (truthy (h_content_length h)); [destruct (int_of_str _)|];
        cbn [confidence has_changed signals old_hash new_hash is_new];
        rewrite ?Hn;
        (split; [rewrite Hone; apply Qle_refl|]);
        intros r' [= <-] Hch; try discriminate;
        (split; [exact Hone|]);
        (split; [eexists; split; [reflexivity|];
                 rewrite map_app; apply in_or_app; right; now left|]);
        (split; [reflexivity | congruence]).
  - assert (Hc : ((if DocIntel.nonempty sigs then max_weight sigs else 0) <= 1)%Q).
    { destruct sigs; cbn [DocIntel.nonempty]; [discriminate|].
      eapply Qle_trans; [exact Hle | discriminate]. }
    destruct (truthy (h_content_length h)); [destruct (int_of_str _)|];
      cbn; (split; [exact Hc | intros r' [=]]).
Qed.

End ScanFacts.

Lemma scan_unknown_url_witness :
  Updater.new
    (Updater.scan_step (fun s => s) (fun _ => Updater.Failed "invalid literal") ∅
       (fun _ => Updater.Got (Updater.Headers None None None))
       (fun _ => Updater.Got "Body")
       (Updater.Scan [] [] [] [] []) "https://docs.example/guide")
  = [] ++ ["https://docs.example/guide"]
  /\ Updater.new_hash
       (Updater.check_url_changes (fun s => s) (fun _ => Updater.Failed "invalid literal") ∅
          (fun _ => Updater.Got (Updater.Headers None None None))
          (fun _ => Updater.Got "Body") "https://docs.example/guide")
     = Some "body".
Proof.
  destruct (scan_unknown_url (fun s => s) (fun _ => Updater.Failed "invalid literal") ∅
              (fun _ => Updater.Got (Updater.Headers None None None))
              (fun _ => Updater.Got "Body")
              (Updater.Scan [] [] [] [] []) "https://docs.example/guide")
    as (_ & _ & _ & _ & H); [reflexivity|].
  split; [vm_compute; reflexivity|].
  rewrite (H (Updater.Headers None None None) "Body" eq_refl eq_refl eq_refl).
  vm_compute. reflexivity.
Defined.

Lemma silent_headers_hide_changes_witness :
  Updater.check_url_changes (fun s => s) (fun _ => Updater.Failed "invalid literal")
    {[ "https://docs.example/guide" := Updater.Row "old body" None (Some "v1") None ]}
    (fun _ => Updater.Got (Updater.Headers (Some "v1") None None))
    (fun _ => Updater.Got "an entirely new body") "https://docs.example/guide"
  = Updater.Changes "https://docs.example/guide" (Some false) false 0 None None None None None.
Proof.
  apply (silent_headers_hide_changes (fun s => s) (fun _ => Updater.Failed "invalid literal")
           {[ "https://docs.example/guide" := Updater.Row "old body" None (Some "v1") None ]}
           (fun _ => Updater.Got (Updater.Headers (Some "v1") None None))
           "https://docs.example/guide"
           (Updater.Row "old body" None (Some "v1") None)
           (Updater.Headers (Some "v1") None None));
    [reflexivity | reflexivity | right; reflexivity | left; reflexivity | left; reflexivity].
Defined.

(** ** The task registry under interleaved calls *)

Section RegistryFacts.
Import Manager Registry.

Variable uuid4 : nat -> string.

Abbreviation run := (run uuid4).
Abbreviation apply_event := (apply_event uuid4).

(** The two outcomes of [cancel_task]. *)
Lemma cancel_task_cases m i :
  (exists t, tasks m !! i = Some t
             /\ In (status t) [SCANNING; PROCESSING; INDEXING]
             /\ cancel_task m i
                = (true, Manager_ (<[i := Task (id t) (profile_name t) (status t) true]>
                                     (tasks m))
                                  (active_task m) (drawn m)))
  \/ (~ (exists t, tasks m !! i = Some t
                   /\ In (status t) [SCANNING; PROCESSING; INDEXING])
      /\ cancel_task m i = (false, m)).
Proof.
  unfold cancel_task. destruct (tasks m !! i) as [t|] eqn:Ht.
  - destruct (status t) eqn:Hs;
      first [ left; exists t; rewrite Hs; cbn; now intuition
            | right; (split; [|reflexivity]); intros (t' & [= <-] & Hin);
              rewrite Hs in Hin; cbn in Hin; intuition discriminate ].
  - right. split; [|reflexivity]. intros (t & [=] & _).
Qed.

(** X15: [cancel_task] succeeds exactly for a registered task in state
    SCANNING, PROCESSING or INDEXING (a task still PREPARING cannot be
    cancelled); it only raises the flag of that task: no status changes, the
    active task is the same, a refused request changes nothing, and asking
    twice is the same as asking once. *)
Theorem cancel_task_spec m i :
  (fst (cancel_task m i) = true
   <-> exists t, tasks m !! i = Some t /\ In (status t) [SCANNING; PROCESSING; INDEXING])
  /\ (forall j, status <$> (tasks (snd (cancel_task m i)) !! j) = status <$> (tasks m !! j))
  /\ active_task (snd (cancel_task m i)) = active_task m
  /\ (fst (cancel_task m i) = true ->
      cancel_requested <$> (tasks (snd (cancel_task m i)) !! i) = Some true)
  /\ (fst (cancel_task m i) = false -> snd (cancel_task m i) = m)
  /\ cancel_task (snd (cancel_task m i)) i = cancel_task m i.
Proof.
  destruct (cancel_task_cases m i) as [(t & Ht & Hin & Heq)|(Hno & Heq)];
    rewrite Heq; cbn [fst snd tasks active_task].
  - split; [split; [intros _; now exists t | reflexivity]|].
    split; [|split; [reflexivity|split; [|split; [discriminate|]]]].
    + intros j. destruct (decide (j = i)) as [->|Hne].
      * now rewrite lookup_insert_eq, Ht.
      * now rewrite lookup_insert_ne by congruence.
    + intros _. now rewrite lookup_insert_eq.
    + unfold cancel_task. cbn [tasks active_task drawn].
      rewrite lookup_insert_eq. cbn [status id profile_name].
      rewrite insert_insert_eq.
      destruct (status t); cbn in Hin; try reflexivity; intuition discriminate.
  - split; [split; [discriminate | intros H; contradiction]|].
    split; [reflexivity|]. split; [reflexivity|]. split; [discriminate|].
    split; [reflexivity | exact Heq].
Qed.

(** All the tasks belong to one profile, and only the active task can be
    running. *)
Abbreviation one_profile p m :=
  ((forall j t, tasks m !! j = Some t -> profile_name t = p)
   /\ (forall j t, tasks m !! j = Some t -> terminal (status t) = false ->
                   active_task m = Some j)).

Lemma can_advance_running s s' : can_advance s s' = true -> terminal s = false.
Proof. destruct s, s'; cbn; congruence. Qed.

Lemma apply_event_one_profile p m e m' :
  (forall q, e = Start q -> q = p) ->
  apply_event m e = Some m' -> one_profile p m -> one_profile p m'.
Proof.
  intros Hq He [Hp Hact]. destruct e as [q|i|i s']; cbn in He.
  - injection He as <-. rewrite (Hq q eq_refl). clear Hq q.
    assert (Hcreate :
              (forall t, active m = Some t -> terminal (status t) = true) ->
              one_profile p (Manager_ (<[uuid4 (drawn m)
                                         := Task (uuid4 (drawn m)) p PREPARING false]> (tasks m))
                                      (Some (uuid4 (drawn m))) (S (drawn m)))).
    { intros Hterm. split; cbn [tasks active_task]; intros j t Hj.
      - destruct (decide (j = uuid4 (drawn m))) as [->|Hne].
        + rewrite lookup_insert_eq in Hj. now injection Hj as <-.
        + rewrite lookup_insert_ne in Hj by congruence. eapply Hp, Hj.
      - intros Hrun. destruct (decide (j = uuid4 (drawn m))) as [->|Hne]; [reflexivity|].
        rewrite lookup_insert_ne in Hj by congruence. exfalso.
        pose proof (Hact j t Hj Hrun) as Ha.
        assert (Hactive : active m = Some t) by (unfold active; now rewrite Ha).
        apply Hterm in Hactive. congruence. }
    unfold start_ingestion. destruct (active m) as [t|] eqn:Ha.
    + destruct (String.eqb (profile_name t) p && negb (terminal (status t))) eqn:E;
        [now split|].
      apply Hcreate. intros t' [= <-].
      assert (Hpt : profile_name t = p).
      { unfold active in Ha. destruct (active_task m) as [k|]; [|discriminate].
        eapply Hp, Ha. }
      rewrite Hpt, String.eqb_refl in E. cbn in E. now apply negb_false_iff in E.
    + apply Hcreate. intros t [=].
  - injection He as <-.
    destruct (cancel_task_cases m i) as [(t & Ht & _ & ->)|(_ & ->)]; [|now split].
    split; cbn [snd tasks active_task]; intros j t' Hj;
      (destruct (decide (j = i)) as [->|Hne];
       [rewrite lookup_insert_eq in Hj; injection Hj as <-
       |rewrite lookup_insert_ne in Hj by congruence]);
      cbn [profile_name status]; eauto.
  - unfold set_status in He. destruct (tasks m !! i) as [t|] eqn:Ht; [|discriminate].
    destruct (can_advance (status t) s' && _) eqn:E; [|discriminate].
    injection He as <-. apply andb_true_iff in E as [E _].
    apply can_advance_running in E.
    split; cbn [tasks active_task]; intros j t' Hj;
      (destruct (decide (j = i)) as [->|Hne];
       [rewrite lookup_insert_eq in Hj; injection Hj as <-
       |rewrite lookup_insert_ne in Hj by congruence]);
      cbn [profile_name status]; eauto.
Qed.

Lemma run_one_profile p events : forall m m',
  (forall q, In (Start q) events -> q = p) ->
  run events m = Some m' -> one_profile p m -> one_profile p m'.
Proof.
  induction events as [|e events IH]; intros m m' Hq Hrun Hinv; cbn in Hrun.
  - now injection Hrun as <-.
  - destruct (Registry.apply_event uuid4 m e) as [m1|] eqn:He; [|discriminate].
    apply (IH m1 m'); [intros q Hin; apply Hq; now right | exact Hrun|].
    eapply apply_event_one_profile; [|exact He | exact Hinv].
    intros q ->. apply Hq. now left.
Qed.

Lemma filter_none {A} (f : A -> bool) (l : list A) :
  (forall x, In x l -> f x = false) -> List.filter f l = [].
Proof.
  induction l as [|x l IH]; intros H; [reflexivity|]. cbn [List.filter].
  rewrite (H x (or_introl eq_refl)). apply IH. intros y Hy. apply H. now right.
Qed.

(** Among entries with distinct keys, at most one has the key [k]. *)
Lemma filter_one_key {V} (f : V -> bool) (k : option string) (l : list (string * V)) :
  NoDup (l.*1) ->
  (forall j v, (j, v) ∈ l -> f v = true -> k = Some j) ->
  (List.length (List.filter f (map snd l)) <= 1)%nat.
Proof.
  induction l as [|[j v] l IH]; intros Hnd Hkey; [cbn; lia|].
  rewrite fmap_cons in Hnd. apply NoDup_cons in Hnd as [Hj Hnd].
  cbn [map snd List.filter]. destruct (f v) eqn:Hv.
  - rewrite filter_none; [cbn; lia|].
    intros v' Hin. apply in_map_iff in Hin as ([j' v''] & Heq & Hin).
    cbn [snd] in Heq. subst v''. apply list_elem_of_In in Hin.
    destruct (f v') eqn:Hv'; [|reflexivity]. exfalso. apply Hj.
    assert (Hsame : Some j = Some j').
    { rewrite <- (Hkey j v) by (left || exact Hv).
      apply (Hkey j' v'); [now right | exact Hv']. }
    injection Hsame as ->.
    apply list_elem_of_fmap. now exists (j', v').
  - apply IH; [exact Hnd|]. intros j0 v0 Hin. apply Hkey. now right.
Qed.

(** X16: when every call of [start_ingestion] names the same profile,
    whatever the worker threads and [cancel_task] do in between, at most one
    task of that profile is running (non-terminal) at any time, and it is
    the active task. *)
Theorem single_profile_one_task p events m
  (Hrun : run events fresh = Some m)
  (Hone : forall q, In (Start q) events -> q = p) :
  (List.length (running m p) <= 1)%nat
  /\ (forall j t, tasks m !! j = Some t -> terminal (status t) = false ->
                  active_task m = Some j).
Proof.
  assert (Hinv : one_profile p m).
  { apply (run_one_profile p events fresh m Hone Hrun).
    split; intros j t Hj; cbn in Hj; rewrite lookup_empty in Hj; discriminate. }
  destruct Hinv as [Hp Hact]. split; [|exact Hact].
  unfold running. apply (filter_one_key _ (active_task m)).
  - apply NoDup_fst_map_to_list.
  - intros j t Hin Hf. apply elem_of_map_to_list in Hin.
    apply andb_true_iff in Hf as [_ Hf]. apply negb_true_iff in Hf.
    now apply (Hact j t).
Qed.

End RegistryFacts.

(** An instance: the profile is asked for three times while its task is
    being worked on and cancelled; only the first and the last request
    create a task. *)
Lemma single_profile_one_task_witness :
  exists m,
    Registry.run Fixture.uuid4
      [Registry.Start "alpha"; Registry.Work "task-0" Manager.SCANNING;
       Registry.Start "alpha"; Registry.Cancel "task-0";
       Registry.Work "task-0" Manager.CANCELLED; Registry.Start "alpha"]
      Manager.fresh = Some m
    /\ Manager.active_task m = Some "task-1"
    /\ (List.length (Manager.running m "alpha") <= 1)%nat.
Proof.
  eexists. split; [vm_compute; reflexivity|]. split; [reflexivity|].
  eapply (single_profile_one_task Fixture.uuid4 "alpha"
            [Registry.Start "alpha"; Registry.Work "task-0" Manager.SCANNING;
             Registry.Start "alpha"; Registry.Cancel "task-0";
             Registry.Work "task-0" Manager.CANCELLED; Registry.Start "alpha"]).
  - vm_compute. reflexivity.
  - intros q [[= <-]|[[=]|[[= <-]|[[=]|[[=]|[[= <-]|[]]]]]]]; reflexivity.
Defined.

(** ** The batches of the INDEXING phase *)

Section IndexingFacts.
Import Py Manager Indexing.

(** A window of [w] items from position [a]. *)
Lemma slice_window {A} (l : list A) (a w : Z) :
  0 <= a -> 0 <= w -> slice l a (a + w) = firstn (Z.to_nat w) (skipn (Z.to_nat a) l).
Proof.
  intros Ha Hw. unfold slice, clamp, len.
  replace (a <? 0) with false by (symmetry; apply Z.ltb_ge; lia).
  replace (a + w <? 0) with false by (symmetry; apply Z.ltb_ge; lia).
  destruct (Z.le_gt_cases a (Z.of_nat (List.length l))) as [Hin|Hout].
  - rewrite (Z.min_l a) by lia.
    destruct (Z.le_gt_cases (a + w) (Z.of_nat (List.length l))) as [H|H].
    + rewrite Z.min_l by lia. f_equal. lia.
    + rewrite Z.min_r by lia.
      rewrite !firstn_all2; [reflexivity|..]; rewrite List.length_skipn; lia.
  - rewrite !Z.min_r by lia. rewrite Z.sub_diag. cbn [Z.to_nat firstn].
    rewrite (skipn_all2 l (n := Z.to_nat a)) by lia. now destruct (Z.to_nat w).
Qed.

(** The first [n] batches, put end to end, are the first [n * batch_size]
    records. *)
Lemma batches_concat {A} (l : list A) (n : nat) :
  concat (map (fun i => slice l i (i + batch_size))
              (map (fun k : nat => 0 + Z.of_nat k * batch_size) (seq 0 n)))
  = firstn (n * 100) l.
Proof.
  induction n as [|n IH]; [reflexivity|].
  rewrite seq_S, !map_app, concat_app, IH. cbn [map concat Nat.add].
  rewrite app_nil_r, slice_window by (unfold batch_size; lia).
  replace (Z.to_nat (0 + Z.of_nat n * batch_size)) with (n * 100)%nat
    by (unfold batch_size; lia).
  change (Z.to_nat batch_size) with 100%nat.
  rewrite take_take_drop. f_equal. lia.
Qed.

(** While the flag reads false the loop upserts batch after batch. *)
Lemma index_loop_app cancel all starts1 : forall k starts2 st,
  (forall j, (k <= j < k + List.length starts1)%nat -> cancel j = false) ->
  index_loop cancel all k (starts1 ++ starts2) st
  = index_loop cancel all (k + List.length starts1) starts2
      (Indexing_ (upserted st ++ map (fun i => slice all i (i + batch_size)) starts1)
                 (fold_left (fun _ i => Z.min (i + batch_size) (len all)) starts1
                            (indexed_chunks st))
                 (final st)).
Proof.
  induction starts1 as [|i starts1 IH]; intros k starts2 st Hc.
  - cbn [app List.length map fold_left]. rewrite app_nil_r, Nat.add_0_r. now destruct st.
  - cbn [app index_loop List.length map fold_left].
    rewrite Hc by (cbn [List.length]; lia).
    rewrite IH by (intros j Hj; apply Hc; cbn [List.length]; lia).
    cbn [upserted indexed_chunks final]. rewrite <- app_assoc. cbn [app].
    f_equal. lia.
Qed.

(** [task.indexed_chunks] after the batches that start at the first [n]
    strides. *)
Lemma indexed_after {A} (all : list A) (n : nat) (z : Z) :
  fold_left (fun _ i => Z.min (i + batch_size) (len all))
            (map (fun k : nat => 0 + Z.of_nat k * batch_size) (seq 0 n)) z
  = match n with
    | O => z
    | S n' => Z.min (Z.of_nat n' * batch_size + batch_size) (len all)
    end.
Proof.
  destruct n as [|n]; [reflexivity|].
  rewrite seq_S, map_app, fold_left_app. cbn [map fold_left Nat.add]. f_equal; lia.
Qed.

Lemma strides_count (n : Z) : 0 < n ->
  range 0 n batch_size
  = Ok (map (fun k : nat => 0 + Z.of_nat k * batch_size)
            (seq 0 (Z.to_nat ((n - 1) / batch_size + 1)))).
Proof.
  intros Hn. unfold range, range_len. change (batch_size =? 0) with false.
  change (0 <? batch_size) with true. cbv iota.
  replace (0 <? n) with true by (symmetry; apply Z.ltb_lt; lia).
  now rewrite Z.sub_0_r.
Qed.

(** X17: when no cancellation is requested, the INDEXING phase upserts
    every chunk record exactly once, in order, in batches of 1 to 100
    records, counts them all in [indexed_chunks], and ends COMPLETED. *)
Theorem index_complete cancel all (Hnever : forall k, cancel k = false) :
  final (index_chunks cancel all) = COMPLETED
  /\ concat (upserted (index_chunks cancel all)) = all
  /\ Forall (fun batch => 1 <= len batch <= 100) (upserted (index_chunks cancel all))
  /\ indexed_chunks (index_chunks cancel all) = len all.
Proof.
  unfold index_chunks. destruct all as [|c all'] eqn:Eall.
  { cbn. repeat split. constructor. }
  rewrite <- Eall. assert (Hlen : 0 < len all) by (subst all; unfold len; cbn; lia).
  replace (DocIntel.nonempty all) with true by now subst all.
  rewrite strides_count by exact Hlen.
  set (n := Z.to_nat ((len all - 1) / batch_size + 1)).
  assert (Hdiv : 0 <= (len all - 1) / batch_size) by (apply Z.div_pos; unfold batch_size; lia).
  assert (Hlo : batch_size * ((len all - 1) / batch_size) <= len all - 1)
    by (apply Z.mul_div_le; unfold batch_size; lia).
  assert (Hhi : len all - 1 < batch_size * ((len all - 1) / batch_size) + batch_size).
  { pose proof (Z.mod_pos_bound (len all - 1) batch_size ltac:(unfold batch_size; lia)).
    pose proof (Z.div_mod (len all - 1) batch_size ltac:(unfold batch_size; lia)). lia. }
  rewrite <- (app_nil_r (map _ (seq 0 n))).
  rewrite index_loop_app by (intros; apply Hnever).
  cbn [index_loop upserted indexed_chunks final app].
  split; [reflexivity|]. split; [|split].
  - rewrite batches_concat. apply firstn_all2. unfold n, len, batch_size in *. lia.
  - apply List.Forall_forall. intros batch Hb.
    apply in_map_iff in Hb as (i & <- & Hi). apply in_map_iff in Hi as (k & <- & Hk).
    apply in_seq in Hk. unfold n in Hk.
    rewrite slice_len; unfold batch_size in *; lia.
  - rewrite indexed_after. unfold n.
    destruct (Z.to_nat ((len all - 1) / batch_size + 1)) as [|n'] eqn:En; [lia|].
    unfold batch_size in *. lia.
Qed.

Lemma index_complete_witness :
  final (index_chunks (fun _ => false) (repeat (ChunkRecord "id" "text" "source" "section" 0) 250))
  = COMPLETED
  /\ map (@List.length chunk_record)
         (upserted (index_chunks (fun _ => false)
                      (repeat (ChunkRecord "id" "text" "source" "section" 0) 250)))
     = [100; 100; 50]%nat.
Proof.
  split; [|vm_compute; reflexivity].
  apply (index_complete (fun _ => false)
           (repeat (ChunkRecord "id" "text" "source" "section" 0) 250)).
  reflexivity.
Defined.

(** X18: when the flag is first read raised at the start of batch [k]
    (counted from 0) and that batch exists, indexing stops there with
    status CANCELLED; the [k] batches already upserted, the first
    [100 * k] records, stay in the index and stay counted: nothing is
    rolled back. *)
Theorem index_cancelled cancel all (k : nat)
  (Hraised : cancel k = true)
  (Hbefore : forall j, (j < k)%nat -> cancel j = false)
  (Hreached : Z.of_nat k * 100 < len all) :
  final (index_chunks cancel all) = CANCELLED
  /\ concat (upserted (index_chunks cancel all)) = firstn (k * 100) all
  /\ indexed_chunks (index_chunks cancel all) = Z.of_nat k * 100.
Proof.
  unfold index_chunks.
  assert (Hlen : 0 < len all) by lia.
  replace (DocIntel.nonempty all) with true
    by (destruct all; [unfold len in Hlen; cbn in Hlen; lia | reflexivity]).
  rewrite strides_count by exact Hlen.
  set (n := Z.to_nat ((len all - 1) / batch_size + 1)).
  assert (Hk : (k < n)%nat).
  { assert (Z.of_nat k <= (len all - 1) / batch_size)
      by (apply Z.div_le_lower_bound; unfold batch_size; lia).
    unfold n. lia. }
  replace n with (k + S (n - k - 1))%nat by lia.
  rewrite seq_app, map_app. cbn [seq map Nat.add].
  rewrite index_loop_app by (rewrite length_map, length_seq; intros j Hj; apply Hbefore; lia).
  rewrite length_map, length_seq. cbn [Nat.add index_loop]. rewrite Hraised.
  cbn [upserted indexed_chunks final app].
  split; [reflexivity|]. split; [apply batches_concat|].
  rewrite indexed_after. destruct k as [|k']; [reflexivity|].
  unfold batch_size. lia.
Qed.

Lemma index_cancelled_witness :
  final (index_chunks (fun j => (1 <=? j)%nat)
           (repeat (ChunkRecord "id" "text" "source" "section" 0) 250))
  = CANCELLED
  /\ indexed_chunks (index_chunks (fun j => (1 <=? j)%nat)
                       (repeat (ChunkRecord "id" "text" "source" "section" 0) 250))
     = Z.of_nat 1 * 100.
Proof.
  destruct (index_cancelled (fun j => (1 <=? j)%nat)
              (repeat (ChunkRecord "id" "text" "source" "section" 0) 250) 1)
    as (H1 & _ & H3).
  - reflexivity.
  - intros j Hj. destruct j; [reflexivity | lia].
  - vm_compute. reflexivity.
  - now split.
Defined.

End IndexingFacts.

(** ** Exceptions of the chunker, and the classifier's choices *)

Section DispatchFacts.
Import Py DocIntel Manager.

(** A result that is a value, or the [ValueError] of a zero step. *)
Abbreviation zero_step_only chunk_size overlap r :=
  (match r with
   | Ok _ => True
   | Raise e => e = ValueError /\ chunk_size = overlap
   end).

Lemma sliding_window_raises content chunk_size overlap :
  zero_step_only chunk_size overlap (chunk_sliding_window content chunk_size overlap).
Proof.
  unfold chunk_sliding_window, range.
  destruct (Z.eqb_spec (chunk_size - overlap) 0) as [H|H]; cbn [bind]; [|exact I].
  split; [reflexivity | lia].
Qed.

Lemma sections_raises content chunk_size overlap :
  zero_step_only chunk_size overlap (chunk_by_sections content chunk_size overlap).
Proof.
  unfold chunk_by_sections.
  destruct (fold_left _ _ _) as [[chunks current_chunk] n].
  destruct (nonempty (if nonempty current_chunk then _ else _));
    [exact I | apply sliding_window_raises].
Qed.

Lemma conversation_raises content chunk_size overlap :
  zero_step_only chunk_size overlap (chunk_by_conversation content chunk_size overlap).
Proof.
  unfold chunk_by_conversation.
  destruct (negb (nonempty _)); [apply sliding_window_raises|].
  now destruct (fold_left _ _ _) as [[[chunks current_chunk] speakers] n].
Qed.

Lemma messages_raises content chunk_size overlap :
  zero_step_only chunk_size overlap (chunk_by_messages content chunk_size overlap).
Proof.
  unfold chunk_by_messages.
  destruct (fold_left _ _ _) as [[chunks current_chunk] n].
  destruct (nonempty (if nonempty current_chunk then _ else _));
    [exact I | apply sliding_window_raises].
Qed.

Lemma endpoints_raises content chunk_size overlap :
  zero_step_only chunk_size overlap (chunk_by_endpoints content chunk_size overlap).
Proof.
  unfold chunk_by_endpoints.
  destruct (List.find _ endpoint_patterns) as [[pattern ngroups]|];
    [|apply sections_raises].
  now destruct (fold_left _ _ _) as [[chunks current_chunk] endpoint].
Qed.

Lemma chapters_step_raises parts chunk_size overlap acc i :
  zero_step_only chunk_size overlap acc ->
  zero_step_only chunk_size overlap (chapters_step parts chunk_size overlap acc i).
Proof.
  unfold chapters_step. destruct acc as [chunks|e]; cbn [bind]; [intros _|tauto].
  destruct (i + 1 <? len parts); [|exact I].
  destruct (chunk_size <? _); [|exact I].
  pose proof (sliding_window_raises
                (if i =? 0 then nth (Z.to_nat (i + 1)) parts ""
                 else nth (Z.to_nat i) parts "" +:+ nth (Z.to_nat (i + 1)) parts "")
                chunk_size overlap) as H.
  destruct (chunk_sliding_window _ chunk_size overlap); cbn [bind]; [exact I | exact H].
Qed.

Lemma chapters_raises content chunk_size overlap :
  zero_step_only chunk_size overlap (chunk_by_chapters content chunk_size overlap).
Proof.
  unfold chunk_by_chapters.
  destruct (List.find _ chapter_patterns) as [pattern|]; [|apply sections_raises].
  unfold range. change (2 =? 0) with false. cbv iota. cbn [bind].
  generalize (map (fun k : nat => 0 + Z.of_nat k * 2)
                  (seq 0 (Z.to_nat (range_len 0 (len (Re.split true 1 pattern content)) 2)))).
  intros idxs.
  assert (H : forall acc, zero_step_only chunk_size overlap acc ->
              zero_step_only chunk_size overlap
                (fold_left (chapters_step (Re.split true 1 pattern content)
                                          chunk_size overlap) idxs acc)).
  { induction idxs as [|i idxs IH]; intros acc Hacc; [exact Hacc|].
    cbn [fold_left]. now apply IH, chapters_step_raises. }
  now apply H.
Qed.

Lemma records_raises content chunk_size overlap :
  zero_step_only chunk_size overlap (chunk_by_records content chunk_size overlap).
Proof.
  unfold chunk_by_records.
  destruct (looks_structured _); [|apply sliding_window_raises].
  now destruct (fold_left _ _ _) as [chunks current_chunk].
Qed.

Lemma timestamps_raises content chunk_size overlap :
  zero_step_only chunk_size overlap (chunk_by_timestamps content chunk_size overlap).
Proof.
  unfold chunk_by_timestamps.
  destruct (List.find _ timestamp_patterns) as [pattern|]; [|apply sliding_window_raises].
  now destruct (fold_left _ _ _) as [[chunks current_chunk] t].
Qed.

Lemma chunk_raises content strategy chunk_size overlap :
  zero_step_only chunk_size overlap (chunk content strategy chunk_size overlap).
Proof.
  unfold chunk.
  destruct (List.find _ strategies) as [[name chunk_func]|] eqn:E;
    [|apply sliding_window_raises].
  apply find_some in E as [Hin _].
  repeat (destruct Hin as [[= <- <-]|Hin];
          [first [ apply sliding_window_raises | apply sections_raises
                 | apply conversation_raises | apply messages_raises
                 | apply endpoints_raises | apply chapters_raises
                 | apply records_raises | apply timestamps_raises ]|]).
  destruct Hin.
Qed.

(** X19: [SmartChunker.chunk] can raise only the [ValueError] of a zero
    window step, and only when the overlap equals the chunk size: with any
    other overlap every strategy, for every strategy name and every content,
    returns a list of chunks. *)
Theorem chunk_raises_only content strategy chunk_size overlap :
  (chunk_size <> overlap ->
   exists chunks, chunk content strategy chunk_size overlap = Ok chunks)
  /\ (forall e, chunk content strategy chunk_size overlap = Raise e ->
                e = ValueError /\ chunk_size = overlap).
Proof.
  pose proof (chunk_raises content strategy chunk_size overlap) as H.
  destruct (chunk content strategy chunk_size overlap) as [chunks|e].
  - split; [eauto | discriminate].
  - split; [intros Hne; now destruct H | intros e' [= <-]; exact H].
Qed.

(** The record [categorize_document] returns is the general one or that of
    a category of the table. *)
Lemma categorize_document_cases filepath content :
  categorize_document filepath content = general
  \/ exists c, In c categories
               /\ category_of (categorize_document filepath content) = cat_name c
               /\ chunk_strategy (categorize_document filepath content) = cat_strategy c
               /\ chunk_size_of (categorize_document filepath content) = cat_chunk_size c
               /\ metadata_extractors (categorize_document filepath content)
                  = _get_extractors (cat_name c)
               /\ 5 <= score filepath content c.
Proof.
  unfold categorize_document, FLOOR.
  destruct (Z.ltb_spec (snd (best_category filepath content)) 5) as [H|H]; [now left|].
  right. exists (fst (best_category filepath content)).
  destruct (best_category_first filepath content) as (l1 & l2 & Heq & _ & _).
  assert (Hin : In (best_category filepath content) (scores filepath content))
    by (rewrite Heq; apply in_elt).
  unfold scores in Hin. apply in_map_iff in Hin as (c & Hc & Hcin).
  rewrite <- Hc in *. cbn [fst snd] in *. now repeat split.
Qed.

(** X20: whatever the file, [categorize_document] names a strategy of the
    dispatch table of [SmartChunker] (the fallback for unknown names is
    never needed), a chunk size between 300 and 1200 words, and either the
    general category or one of the seven of the table. *)
Theorem categorize_document_dispatch filepath content :
  In (chunk_strategy (categorize_document filepath content)) (map fst strategies)
  /\ 300 <= chunk_size_of (categorize_document filepath content) <= 1200
  /\ In (category_of (categorize_document filepath content))
        ("general" :: map cat_name categories).
Proof.
  destruct (categorize_document_cases filepath content)
    as [->|(c & Hin & -> & -> & -> & _)].
  - cbn. split; [tauto|]. split; [lia | tauto].
  - repeat (destruct Hin as [<-|Hin]; [cbn; split; [tauto|]; split; [lia | tauto]|]).
    destruct Hin.
Qed.

(** X21: in the PROCESSING phase of [_run_ingestion] the chunking call
    never raises: whatever the file name and the content, the chunk size
    chosen for the document is never the fixed overlap of 120, so
    [smart_chunker.chunk] returns a list of chunks. *)
Theorem processing_chunk_returns filename content :
  let doc_category := categorize_document filename content in
  chunk_size_of doc_category <> 120
  /\ exists chunks,
       chunk content (chunk_strategy doc_category) (chunk_size_of doc_category) 120
       = Ok chunks.
Proof.
  cbv zeta.
  assert (Hsize : chunk_size_of (categorize_document filename content) <> 120).
  { destruct (categorize_document_cases filename content)
      as [->|(c & Hin & _ & _ & -> & _)]; [discriminate|].
    repeat (destruct Hin as [<-|Hin]; [discriminate|]). destruct Hin. }
  split; [exact Hsize|].
  now apply chunk_raises_only.
Qed.

End DispatchFacts.

(** ** The metadata extracted for each category *)

Section MetadataFacts.
Import DocIntel Metadata.

Variable value : Type.
Variable _extract_basic _extract_version _extract_datetime _extract_participants
         _extract_email_headers _extract_sections _extract_topics
  : string -> gmap string value.

Abbreviation extract_metadata :=
  (extract_metadata value _extract_basic _extract_version _extract_datetime
                    _extract_participants _extract_email_headers _extract_sections
                    _extract_topics).

(** X22: of the extractor names that [_get_extractors] gives the
    categories, only [version], [sections], [participants], [datetime],
    [topics] and [sender] are implemented: the categories reference,
    literature, data and media get no metadata at all, and the [basic]
    extractor runs for the general category only. *)
Theorem extract_metadata_by_category content name :
  extract_metadata content (_get_extractors name)
  = if String.eqb name "technical"
    then _extract_sections content ∪ _extract_version content
    else if String.eqb name "conversation"
    then _extract_topics content ∪ (_extract_datetime content ∪ _extract_participants content)
    else if String.eqb name "correspondence" then _extract_email_headers content
    else if existsb (String.eqb name) ["reference"; "literature"; "data"; "media"] then ∅
    else _extract_basic content.
Proof.
  transitivity
    (if String.eqb name "technical"
     then _extract_sections content ∪ (_extract_version content ∪ ∅)
     else if String.eqb name "conversation"
     then _extract_topics content
          ∪ (_extract_datetime content ∪ (_extract_participants content ∪ ∅))
     else if String.eqb name "correspondence" then _extract_email_headers content ∪ ∅
     else if existsb (String.eqb name) ["reference"; "literature"; "data"; "media"] then ∅
     else _extract_basic content ∪ ∅).
  - unfold _get_extractors, Metadata.extract_metadata. cbn [existsb].
    repeat (destruct (String.eqb name _); [reflexivity|]). reflexivity.
  - now rewrite !(right_id_L ∅ (∪)).
Qed.

End MetadataFacts.

(** ** Updating the changed documents *)

Section RefreshFacts.
Import Py Updater Refresh.

Variable sha256 : string -> string.
Variable int_of_str : string -> outcome Z.
Variable http_head : string -> outcome headers.
Variable http_get : string -> outcome string.
Variable _html_to_md : string -> string.
Variable str : exception -> string.
Variable cfg : Ingest.ingest_cfg.

Abbreviation update_url :=
  (update_url sha256 int_of_str http_head http_get _html_to_md cfg).
Abbreviation update_step :=
  (update_step sha256 int_of_str http_head http_get _html_to_md str cfg).
Abbreviation update_only_changed :=
  (update_only_changed sha256 int_of_str http_head http_get _html_to_md str cfg).

(** The error entry of a URL whose body was fetched again. *)
Abbreviation refetched_error r url :=
  (match new_metadata (check_url_changes sha256 int_of_str r http_head http_get url) with
   | Some md => if String.eqb (m_content md) "" then []
                else [url +:+ ": " +:+ str TypeError]
   | None => []
   end).

(** [_chunk] has no parameter named [chunk_tokens]: the call of
    [update_only_changed] raises, whatever the content and the values; with
    the names of the parameters the same call goes through. *)
Lemma call_chunk_keywords content a b :
  call_chunk [AStr content] [("chunk_tokens", a); ("chunk_overlap", b)] = Raised TypeError
  /\ (forall tok overlap,
        call_chunk [AStr content] [("tok", AInt tok); ("overlap", AInt overlap)]
        = Done (Ingest._chunk content tok overlap)).
Proof. split; reflexivity. Qed.

Lemma delete_ids_subseteq ids : forall c : gmap string string, delete_ids ids c ⊆ c.
Proof.
  induction ids as [|i ids IH]; intros c; [reflexivity|]. cbn [delete_ids fold_left].
  etransitivity; [apply IH | apply delete_subseteq].
Qed.

Lemma delete_ids_gone ids : forall (c : gmap string string) i,
  In i ids -> delete_ids ids c !! i = None.
Proof.
  induction ids as [|j ids IH]; intros c i; [intros []|]. cbn [delete_ids fold_left].
  intros [->|Hin]; [|now apply IH].
  eapply lookup_weaken_None; [apply lookup_delete_eq | apply delete_ids_subseteq].
Qed.

(** One updated URL: its old chunks are deleted, an error is recorded if
    its body was fetched again, and nothing else changes. *)
Lemma update_step_effect w url :
  coll (update_step w url)
  = match chunk_ids w !! url with
    | Some old => delete_ids old (coll w)
    | None => coll w
    end
  /\ rows (update_step w url) = rows w
  /\ chunk_ids (update_step w url) = chunk_ids w
  /\ updated_chunks (st (update_step w url)) = updated_chunks (st w)
  /\ new_chunks (st (update_step w url)) = new_chunks (st w)
  /\ errors (st (update_step w url)) = errors (st w) ++ refetched_error (rows w) url.
Proof.
  unfold Refresh.update_step, Refresh.update_url.
  destruct (chunk_ids w !! url) as [old|]; cbn [rows coll chunk_ids st];
    (destruct (new_metadata _) as [md|];
     [destruct (String.eqb (m_content md) "")|]);
    cbn; rewrite ?app_nil_r; now repeat split.
Qed.

Lemma update_fold_effect r ids urls : forall w,
  rows w = r -> chunk_ids w = ids ->
  coll (fold_left update_step urls w) ⊆ coll w
  /\ (forall url old i, In url urls -> ids !! url = Some old -> In i old ->
                        coll (fold_left update_step urls w) !! i = None)
  /\ rows (fold_left update_step urls w) = r
  /\ chunk_ids (fold_left update_step urls w) = ids
  /\ updated_chunks (st (fold_left update_step urls w)) = updated_chunks (st w)
  /\ new_chunks (st (fold_left update_step urls w)) = new_chunks (st w)
  /\ errors (st (fold_left update_step urls w))
     = errors (st w) ++ flat_map (fun url => refetched_error r url) urls.
Proof.
  induction urls as [|u urls IH]; intros w Hr Hids; cbn [fold_left flat_map].
  - rewrite app_nil_r. split; [reflexivity|]. split; [intros url old i []|].
    now repeat split.
  - destruct (update_step_effect w u) as (Hc & Hrows & Hchunk & Hup & Hnew & Herr).
    destruct (IH (update_step w u)) as (Hsub & Hgone & Hrows' & Hids' & Hup' & Hnew' & Herr');
      [congruence | congruence|].
    assert (Hstep : coll (update_step w u) ⊆ coll w).
    { rewrite Hc. destruct (chunk_ids w !! u); [apply delete_ids_subseteq | reflexivity]. }
    split; [now transitivity (coll (update_step w u))|]. split; [|split; [|split; [|split]]].
    + intros url old i [<-|Hin] Hold Hi; [|now apply (Hgone url old)].
      eapply lookup_weaken_None; [|exact Hsub].
      rewrite Hc, Hids, Hold. now apply delete_ids_gone.
    + exact Hrows'.
    + exact Hids'.
    + congruence.
    + split; [congruence|]. rewrite Herr', Herr, Hr, <- app_assoc. reflexivity.
Qed.

Lemma new_fold_effect urls : forall w,
  coll (fold_left Refresh.new_step urls w) = coll w
  /\ rows (fold_left Refresh.new_step urls w) = rows w
  /\ chunk_ids (fold_left Refresh.new_step urls w) = chunk_ids w
  /\ updated_chunks (st (fold_left Refresh.new_step urls w)) = updated_chunks (st w)
  /\ new_chunks (st (fold_left Refresh.new_step urls w)) = new_chunks (st w) + len urls
  /\ errors (st (fold_left Refresh.new_step urls w)) = errors (st w).
Proof.
  induction urls as [|u urls IH]; intros w; cbn [fold_left].
  - unfold len. cbn. rewrite Z.add_0_r. now repeat split.
  - destruct (IH (new_step w u)) as (-> & -> & -> & -> & -> & ->).
    cbn. unfold len. cbn [List.length]. repeat split. lia.
Qed.

(** X23: [update_only_changed] never adds or replaces a chunk.  Its call
    of [_chunk] names parameters [_chunk] does not have and raises, so for
    every URL reported as updated the old chunks are deleted from the
    collection and, if the body was fetched again, an error is recorded in
    their place; the metadata table is left as it was, [updated_chunks]
    stays 0, and every URL reported as new is counted as one new chunk
    without anything being stored for it. *)
Theorem update_never_upserts c r ids updated new :
  coll (update_only_changed c r ids updated new) ⊆ c
  /\ (forall url old i, In url updated -> ids !! url = Some old -> In i old ->
                        coll (update_only_changed c r ids updated new) !! i = None)
  /\ rows (update_only_changed c r ids updated new) = r
  /\ chunk_ids (update_only_changed c r ids updated new) = ids
  /\ updated_chunks (st (update_only_changed c r ids updated new)) = 0
  /\ new_chunks (st (update_only_changed c r ids updated new)) = len new
  /\ preserved_chunks (st (update_only_changed c r ids updated new))
     = Z.of_nat (size (coll (update_only_changed c r ids updated new))) - len new
  /\ errors (st (update_only_changed c r ids updated new))
     = flat_map (fun url => refetched_error r url) updated.
Proof.
  unfold Refresh.update_only_changed. cbv zeta. cbn [coll rows chunk_ids st].
  destruct (update_fold_effect r ids updated (World c r ids (Stats 0 0 0 0 [])) eq_refl eq_refl)
    as (Hsub & Hgone & Hrows & Hids & Hup & Hnew & Herr).
  destruct (new_fold_effect new (fold_left update_step updated
                                           (World c r ids (Stats 0 0 0 0 []))))
    as (Hc' & Hrows' & Hids' & Hup' & Hnew' & Herr').
  cbn [updated_chunks new_chunks preserved_chunks errors].
  rewrite Hc', Hrows', Hids', Hup', Hnew', Herr', Hup, Hnew, Herr.
  cbn [coll st updated_chunks new_chunks errors app] in *.
  split; [exact Hsub|]. split; [exact Hgone|]. repeat split; try assumption; lia.
Qed.

End RefreshFacts.

(** ** Records and listed extensions *)

Section RecordFacts.
Import Py DocIntel.

Lemma records_fold header chunk_size lines : forall chunks current groups,
  chunks = map (records_chunk header) groups ->
  Forall (fun g => g <> []) groups ->
  exists groups' current',
    fold_left (records_step header chunk_size) lines (chunks, current)
    = (map (records_chunk header) groups', current')
    /\ concat groups' ++ current' = concat groups ++ current ++ lines
    /\ Forall (fun g => g <> []) groups'.
Proof.
  induction lines as [|line lines IH]; intros chunks current groups Hc Hne.
  - exists groups, current. cbn [fold_left]. rewrite app_nil_r. now subst.
  - cbn [fold_left]. unfold records_step at 2.
    destruct (chunk_size <? _).
    + destruct (IH (chunks ++ [records_chunk header (current ++ [line])]) []
                   (groups ++ [current ++ [line]]))
        as (groups' & current' & Hf & Hcat & Hall).
      * subst chunks. now rewrite map_app.
      * apply Forall_app. split; [exact Hne|]. constructor; [|constructor].
        now destruct current.
      * exists groups', current'. split; [exact Hf|]. split; [|exact Hall].
        rewrite Hcat, concat_app. cbn [concat app]. rewrite app_nil_r, <- !app_assoc.
        reflexivity.
    + destruct (IH chunks (current ++ [line]) groups Hc Hne)
        as (groups' & current' & Hf & Hcat & Hall).
      exists groups', current'. split; [exact Hf|]. split; [|exact Hall].
      rewrite Hcat, <- !app_assoc. reflexivity.
Qed.

(** X24: on content that looks structured (more than one line, a comma
    or a tab in each of the first five), [chunk_by_records] cuts the lines
    after the header into consecutive non-empty groups, and returns one
    chunk per group, made of the header line followed by the lines of the
    group: every data line is in exactly one chunk, none is dropped or
    repeated, whatever the chunk size and the overlap. *)
Theorem records_partition content chunk_size overlap
  (Hstructured : looks_structured (split_on Re.nl "" content) = true) :
  exists groups,
    chunk_by_records content chunk_size overlap
    = Ok (map (records_chunk (nth 0 (split_on Re.nl "" content) "")) groups)
    /\ concat groups = slice_from (split_on Re.nl "" content) 1
    /\ Forall (fun g => g <> []) groups.
Proof.
  unfold chunk_by_records. rewrite Hstructured.
  set (lines := split_on Re.nl "" content). set (header := nth 0 lines "").
  destruct (records_fold header chunk_size (slice_from lines 1) [] [] [] eq_refl)
    as (groups & current & Hf & Hcat & Hall); [constructor|].
  rewrite Hf. cbn [concat app] in Hcat. destruct current as [|row current].
  - exists groups. rewrite app_nil_r in Hcat. now repeat split.
  - exists (groups ++ [row :: current]). cbn [nonempty]. rewrite map_app. cbn [map].
    split; [reflexivity|]. split.
    + rewrite concat_app. cbn [concat]. now rewrite app_nil_r.
    + apply Forall_app. split; [exact Hall|]. now repeat constructor.
Qed.

Lemma records_partition_witness :
  exists groups,
    chunk_by_records ("name,qty" +:+ NL +:+ "bolt,4" +:+ NL +:+ "nut,9") 1 0
    = Ok (map (records_chunk "name,qty") groups)
    /\ concat groups = ["bolt,4"; "nut,9"].
Proof.
  destruct (records_partition ("name,qty" +:+ NL +:+ "bolt,4" +:+ NL +:+ "nut,9") 1 0)
    as (groups & H1 & H2 & _); [vm_compute; reflexivity|].
  exists groups. split; [exact H1 | exact H2].
Defined.

Lemma count_in_nonneg pats s : 0 <= count_in pats s.
Proof. unfold count_in, len. lia. Qed.

(** X25: a file whose extension (in lower case) is listed by some
    category of the table is never classified as general, whatever its
    content, and the confidence is then at least 1/4. *)
Theorem listed_extension_classified filepath content c
  (Hc : In c categories)
  (Hext : existsb (String.eqb (lower (path_suffix filepath))) (extensions c) = true) :
  category_of (categorize_document filepath content) <> "general"
  /\ In (category_of (categorize_document filepath content)) (map cat_name categories)
  /\ (1 # 4 <= confidence (categorize_document filepath content))%Q.
Proof.
  assert (Hscore : 5 <= score filepath content c).
  { unfold score. rewrite Hext.
    pose proof (count_in_nonneg (patterns c) (lower (path_name filepath))).
    pose proof (count_in_nonneg (patterns c) (lower (take 1000 content))). lia. }
  destruct (best_category_first filepath content) as (l1 & l2 & Heq & H1 & H2).
  assert (Hbest : 5 <= snd (best_category filepath content)).
  { assert (Hin : In (c, score filepath content c) (scores filepath content))
      by (unfold scores; apply in_map_iff; eauto).
    rewrite Heq in Hin. apply in_app_or in Hin as [Hin|[Hb|Hin]].
    - eapply List.Forall_forall in H1; [|exact Hin]. cbn [snd] in H1. lia.
    - rewrite Hb. cbn [snd]. lia.
    - eapply List.Forall_forall in H2; [|exact Hin]. cbn [snd] in H2. lia. }
  assert (Hin : In (fst (best_category filepath content)) categories).
  { assert (Hb : In (best_category filepath content) (scores filepath content))
      by (rewrite Heq; apply in_elt).
    unfold scores in Hb. apply in_map_iff in Hb as (c' & <- & Hc'). exact Hc'. }
  unfold categorize_document, FLOOR, CEILING.
  replace (snd (best_category filepath content) <? 5) with false
    by (symmetry; apply Z.ltb_ge; lia).
  cbn [category_of confidence]. split; [|split].
  - repeat (destruct Hin as [<-|Hin]; [discriminate|]). destruct Hin.
  - now apply in_map.
  - apply Q.min_glb; [|discriminate].
    revert Hbest. generalize (snd (best_category filepath content)). intros b Hb.
    unfold Qle, Qdiv, Qmult, Qinv, inject_Z. cbn. lia.
Qed.

Lemma listed_extension_classified_witness :
  category_of (categorize_document "notes.TXT" "nothing of note") <> "general"
  /\ In (category_of (categorize_document "notes.TXT" "nothing of note"))
        (map cat_name categories)
  /\ (1 # 4 <= confidence (categorize_document "notes.TXT" "nothing of note"))%Q.
Proof.
  apply (listed_extension_classified "notes.TXT" "nothing of note"
           (Category "technical"
              ["manual"; "guide"; "documentation"; "readme"; "install"; "setup"; "config"]
              [".md"; ".txt"; ".pdf"] "section_aware" 1000)).
  - left. reflexivity.
  - vm_compute. reflexivity.
Defined.

End RecordFacts.

(** ** The citations of an answer *)

Section AskFacts.
Import Py Re Ask.

Variable initialized : bool.
Variable search_docs : string -> Updater.outcome (list result).
Variable run_llm : string -> list string -> Updater.outcome string.

Lemma add_url_spec cite_urls url :
  List.NoDup cite_urls ->
  List.NoDup (add_url cite_urls url)
  /\ (forall u, In u (add_url cite_urls url) <-> In u cite_urls \/ url = Some u).
Proof.
  intros Hnd. unfold add_url. destruct url as [v|].
  - destruct (existsb (String.eqb v) cite_urls) eqn:E.
    + split; [exact Hnd|]. intros u. split; [now left|].
      intros [H|[= ->]]; [exact H | now apply existsb_eqb_In].
    + assert (Hv : ~ In v cite_urls).
      { intros H. apply existsb_eqb_In in H. congruence. }
      split; [now apply NoDup_snoc|]. intros u. rewrite in_app_iff. cbn.
      split; [intros [H|[->|[]]]; [now left | now right]|].
      intros [H|[= ->]]; [now left | right; now left].
  - split; [exact Hnd|]. intros u. split; [now left | now intros [H|[=]]].
Qed.

Lemma collect_fold results : forall passages cite_urls,
  List.NoDup cite_urls ->
  let acc := fold_left (fun acc r => (fst acc ++ [passage_of r], add_url (snd acc) (url_of r)))
                       results (passages, cite_urls) in
  fst acc = passages ++ map passage_of results
  /\ List.NoDup (snd acc)
  /\ (forall u, In u (snd acc)
                <-> In u cite_urls \/ exists r, In r results /\ url_of r = Some u)
  /\ (List.NoDup (cite_urls ++ map (fun r => default "" (url_of r)) results) ->
      (forall r, In r results -> url_of r <> None) ->
      snd acc = cite_urls ++ map (fun r => default "" (url_of r)) results).
Proof.
  induction results as [|r results IH]; intros passages cite_urls Hnd; cbn [fold_left].
  - cbn. rewrite !app_nil_r. split; [reflexivity|]. split; [exact Hnd|]. split.
    + intros u. split; [now left | intros [H|(r & [] & _)]; exact H].
    + reflexivity.
  - destruct (add_url_spec cite_urls (url_of r) Hnd) as [Hnd' Hin'].
    destruct (IH (passages ++ [passage_of r]) (add_url cite_urls (url_of r)) Hnd')
      as (Hp & Hn & Hi & Ha).
    cbn [fst snd] in *. split; [rewrite Hp, <- app_assoc; reflexivity|].
    split; [exact Hn|]. split.
    + intros u. rewrite Hi, Hin'. split.
      * intros [[H|H]|(r' & Hr' & Hu)]; [now left | right; exists r; split; [now left|exact H]|].
        right. exists r'. split; [now right | exact Hu].
      * intros [H|(r' & [<-|Hr'] & Hu)]; [left; now left | left; now right|].
        right. now exists r'.
    + intros Hall Hsome. cbn [map] in Hall.
      assert (Hr : add_url cite_urls (url_of r) = cite_urls ++ [default "" (url_of r)]).
      { unfold add_url. destruct (url_of r) as [v|] eqn:Ev;
          [|exfalso; apply (Hsome r); [now left | exact Ev]].
        cbn [default]. destruct (existsb (String.eqb v) cite_urls) eqn:E; [|reflexivity].
        exfalso. apply existsb_eqb_In in E. apply NoDup_remove_2 in Hall.
        apply Hall, in_or_app. now left. }
      rewrite Ha, Hr, <- app_assoc; [reflexivity | |].
      * rewrite Hr, <- app_assoc. exact Hall.
      * intros r' Hr'. apply Hsome. now right.
Qed.

Lemma referenced_spec cite_urls cited : forall acc out,
  List.NoDup acc -> (forall u, In u acc -> In u cite_urls) ->
  referenced cite_urls cited acc = Updater.Got out ->
  List.NoDup out /\ (forall u, In u out -> In u cite_urls).
Proof.
  induction cited as [|n cited IH]; intros acc out Hnd Hsub H; cbn [referenced] in H.
  - injection H as <-. now split.
  - destruct (int_of_digits n) as [z|msg]; [|discriminate]. cbv zeta in H.
    eapply IH; [| |exact H].
    + destruct (_ && _); [|exact Hnd].
      destruct (existsb _ acc) eqn:E; [exact Hnd|]. apply NoDup_snoc; [exact Hnd|].
      intros Hin. apply existsb_eqb_In in Hin. congruence.
    + destruct ((0 <=? z - 1) && (z - 1 <? len cite_urls)) eqn:Hr; [|exact Hsub].
      destruct (existsb _ acc); [exact Hsub|].
      intros u Hu. apply in_app_or in Hu as [Hu|[<-|[]]]; [now apply Hsub|].
      apply andb_true_iff in Hr as [H0 H1]. apply Z.leb_le in H0. apply Z.ltb_lt in H1.
      apply nth_In. unfold len in H1. lia.
Qed.

Ltac failure_case :=
  cbn [failure citations answer status_code error];
  split; [constructor|]; split; [intros ? []|];
  split; [right; repeat split; discriminate | intros _; reflexivity].

(** X26: whatever the search and the model give or raise, the citations
    [ask_http] returns are pairwise distinct and each is the [source_url] of
    one of the first twelve search results; the response is either a 200
    with an answer that is not empty and no error entry, or (server not
    initialised, or an exception in the search, the model or the reading of
    a citation number) a 500 with an empty answer, no citation and an error
    entry; and an answer that says the question is not found in the provided
    documentation (in any letter case) comes without citations, even if it
    contains citation marks. *)
Theorem ask_http_citations q :
  let r := ask_http initialized search_docs run_llm q in
  List.NoDup (citations r)
  /\ (forall u, In u (citations r) ->
        exists results res,
          search_docs q = Updater.Got results
          /\ In res (slice_to results 12) /\ url_of res = Some u)
  /\ ((status_code r = 200 /\ answer r <> "" /\ error r = None)
      \/ (status_code r = 500 /\ answer r = "" /\ citations r = [] /\ error r <> None))
  /\ (contains (lower (answer r)) NOT_FOUND = true -> citations r = []).
Proof.
  cbv zeta. unfold ask_http.
  destruct initialized; cbn [negb]; [|failure_case].
  destruct (search_docs q) as [results|msg]; [|failure_case].
  unfold collect.
  destruct (collect_fold (slice_to results 12) [] [] ltac:(constructor))
    as (_ & Hnd & Hin & _).
  destruct (fold_left _ (slice_to results 12) ([], [])) as [passages cite_urls].
  cbn [fst snd] in *.
  destruct (DocIntel.nonempty passages); cbn [negb].
  2:{ cbn [citations answer status_code error].
      split; [constructor|]. split; [intros u []|].
      split; [left; repeat split; discriminate | intros _; reflexivity]. }
  destruct (run_llm q passages) as [text|msg]; [|failure_case].
  set (stripped := strip text).
  set (ans := if String.eqb stripped "" then NO_ANSWER else stripped).
  assert (Hans : ans <> "").
  { unfold ans. destruct (String.eqb_spec stripped ""); [discriminate | assumption]. }
  set (urls := if contains (lower ans) NOT_FOUND then [] else cite_urls).
  assert (Hurls : List.NoDup urls /\ (forall u, In u urls -> In u cite_urls)
                  /\ (contains (lower ans) NOT_FOUND = true -> urls = [])).
  { unfold urls. destruct (contains (lower ans) NOT_FOUND).
    - split; [constructor|]. split; [intros u []|reflexivity].
    - split; [exact Hnd|]. split; [tauto | discriminate]. }
  destruct Hurls as (Hn & Hs & Hc).
  assert (Hfrom : forall u, In u cite_urls ->
                    exists results0 res,
                      Updater.Got results = Updater.Got results0
                      /\ In res (slice_to results0 12) /\ url_of res = Some u).
  { intros u Hu. apply Hin in Hu as [[]|(res & Hres & Hu)]. now exists results, res. }
  destruct (DocIntel.nonempty (findall1 false citation_pattern ans)).
  - destruct (referenced urls _ []) as [out|msg] eqn:Href; [|failure_case].
    destruct (referenced_spec urls _ [] out ltac:(constructor) ltac:(intros u []) Href)
      as [Hn' Hs'].
    cbn [citations answer status_code error].
    split; [exact Hn'|]. split; [intros u Hu; now apply Hfrom, Hs, Hs'|].
    split; [left; now repeat split|].
    intros Hnf. apply Hc in Hnf. rewrite Hnf in Hs'.
    destruct out as [|u out]; [reflexivity|]. destruct (Hs' u (or_introl eq_refl)).
  - cbn [citations answer status_code error].
    split; [exact Hn|]. split; [intros u Hu; now apply Hfrom, Hs|].
    split; [left; now repeat split | exact Hc].
Qed.

(** X27: the passages are numbered for the model in the order of the
    search results, but a citation number is looked up in the list of
    distinct source URLs.  The two numberings agree when each of the first
    twelve results has a source URL and these URLs are pairwise distinct:
    then the list of URLs is the list of the passages' URLs, position by
    position. *)
Theorem citation_numbers_aligned search_results
  (Hurl : forall r, In r (slice_to search_results 12) -> url_of r <> None)
  (Hdistinct : List.NoDup (map (fun r => default "" (url_of r))
                               (slice_to search_results 12))) :
  fst (collect search_results) = map passage_of (slice_to search_results 12)
  /\ snd (collect search_results)
     = map (fun r => default "" (url_of r)) (slice_to search_results 12)
  /\ (forall n r, nth_error (slice_to search_results 12) n = Some r ->
        nth_error (fst (collect search_results)) n = Some (passage_of r)
        /\ url_of r = nth_error (snd (collect search_results)) n).
Proof.
  unfold collect.
  destruct (collect_fold (slice_to search_results 12) [] [] ltac:(constructor))
    as (Hp & _ & _ & Ha).
  cbn [app] in *. specialize (Ha Hdistinct Hurl).
  split; [exact Hp|]. split; [exact Ha|].
  intros n r Hn. rewrite Hp, Ha, !nth_error_map, Hn. cbn [option_map].
  split; [reflexivity|].
  destruct (url_of r) as [u|] eqn:Eu; [reflexivity|].
  exfalso. apply (Hurl r); [eapply nth_error_In, Hn | exact Eu].
Qed.

End AskFacts.

(** An instance, and what happens without distinct URLs: when the first two
    passages come from the same page, the mark [2] is looked up in the list
    of distinct URLs and yields the page of the third passage. *)
Lemma citation_numbers_aligned_witness :
  snd (Ask.collect [("id-a", "first", Some "https://docs.example/a");
                    ("id-b", "second", Some "https://docs.example/b")])
  = ["https://docs.example/a"; "https://docs.example/b"]
  /\ Ask.citations
       (Ask.ask_http true
          (fun _ => Updater.Got [("id-a", "first", Some "https://docs.example/a");
                                 ("id-b", "second", Some "https://docs.example/a");
                                 ("id-c", "third", Some "https://docs.example/c")])
          (fun _ _ => Updater.Got "See [2].") "question")
     = ["https://docs.example/c"].
Proof.
  split; [|vm_compute; reflexivity].
  apply (citation_numbers_aligned
           [("id-a", "first", Some "https://docs.example/a");
            ("id-b", "second", Some "https://docs.example/b")]).
  - intros r [<-|[<-|[]]]; discriminate.
  - vm_compute. repeat constructor; cbn; intuition discriminate.
Defined.

(** ** Merging a profile's configuration into the defaults *)

Section ConfigFacts.
Import Config.

Lemma merge_value_cons a k v entries :
  merge_value a (VDict ((k, v) :: entries))
  = merge_value (set k (match v, get k a with
                        | VDict _, Some (VDict o) => VDict (merge_value o v)
                        | _, _ => v
                        end) a)
                (VDict entries).
Proof. reflexivity. Qed.

Lemma get_set_eq k v d : get k (set k v d) = Some v.
Proof.
  induction d as [|[k' v'] d IH]; cbn [set get].
  - now rewrite String.eqb_refl.
  - destruct (String.eqb k' k) eqn:E; cbn [get]; [now rewrite String.eqb_refl|].
    now rewrite E.
Qed.

Lemma get_set_ne k k' v d : k <> k' -> get k' (set k v d) = get k' d.
Proof.
  intros Hne. induction d as [|[k0 v0] d IH]; cbn [set get].
  - now replace (String.eqb k k') with false by (symmetry; now apply String.eqb_neq).
  - destruct (String.eqb_spec k0 k) as [->|Hk]; cbn [get]; [|now rewrite IH].
    now replace (String.eqb k k') with false by (symmetry; now apply String.eqb_neq).
Qed.

Lemma get_absent k d : get k d = None <-> ~ In k (map fst d).
Proof.
  induction d as [|[k' v] d IH]; cbn [get map fst]; [tauto|].
  destruct (String.eqb_spec k' k) as [->|Hne].
  - split; [discriminate | intros H; exfalso; apply H; now left].
  - rewrite IH. cbn. tauto.
Qed.

(** A key the profile does not mention keeps the value it had. *)
Lemma merge_get_other b : forall a k,
  ~ In k (map fst b) -> get k (_merge a b) = get k a.
Proof.
  unfold _merge. induction b as [|[k0 v0] b IH]; intros a k Hk; [reflexivity|].
  rewrite merge_value_cons, IH by (intros H; apply Hk; now right).
  apply get_set_ne. intros ->. apply Hk. now left.
Qed.

(** A key the profile mentions gets the profile's value, merged with the
    former value when both are dictionaries. *)
Lemma merge_get_here b : forall a k v,
  List.NoDup (map fst b) -> get k b = Some v ->
  get k (_merge a b)
  = Some (match v, get k a with
          | VDict _, Some (VDict o) => VDict (merge_value o v)
          | _, _ => v
          end).
Proof.
  unfold _merge. induction b as [|[k0 v0] b IH]; intros a k v Hnd Hget; [discriminate|].
  cbn [map fst] in Hnd. inversion Hnd as [|? ? Hk0 Hnd']; subst.
  rewrite merge_value_cons. cbn [get] in Hget.
  destruct (String.eqb_spec k0 k) as [->|Hne].
  - injection Hget as ->. fold (_merge (set k (match v, get k a with
                                                 | VDict _, Some (VDict o) => VDict (merge_value o v)
                                                 | _, _ => v
                                                 end) a) b).
    rewrite merge_get_other by exact Hk0. apply get_set_eq.
  - rewrite (IH _ k v Hnd' Hget). now rewrite get_set_ne by exact Hne.
Qed.

(** X28: [_merge] keeps a default [a[section][key]] unless the profile
    says otherwise.  If the profile does not mention the section, or gives a
    dictionary for it that does not mention the key, the merged
    configuration has the default value there; if the profile's section
    gives the key a value that is not a dictionary, that value wins; but if
    the profile gives the section itself a value that is not a dictionary,
    the section is replaced and every default under it is lost. *)
Theorem merge_keeps_defaults a b section key d v
  (Hb : List.NoDup (map fst b))
  (Hsection : get section a = Some (VDict d))
  (Hkey : get key d = Some v) :
  (get section b = None -> lookup2 section key (_merge a b) = Some v)
  /\ (forall user, get section b = Some (VDict user) -> List.NoDup (map fst user) ->
        (get key user = None -> lookup2 section key (_merge a b) = Some v)
        /\ (forall x, get key user = Some x -> (forall e, x <> VDict e) ->
                      lookup2 section key (_merge a b) = Some x))
  /\ (forall x, get section b = Some x -> (forall e, x <> VDict e) ->
                lookup2 section key (_merge a b) = None).
Proof.
  unfold lookup2. split; [|split].
  - intros Hnone. rewrite merge_get_other by now apply get_absent.
    now rewrite Hsection.
  - intros user Huser Hnd.
    rewrite (merge_get_here b a section (VDict user) Hb Huser), Hsection.
    change (merge_value d (VDict user)) with (_merge d user). split.
    + intros Hnone. rewrite merge_get_other by now apply get_absent. exact Hkey.
    + intros x Hx Hleaf. rewrite (merge_get_here user d key x Hnd Hx).
      destruct x as [z|s|l|e]; try reflexivity. now destruct (Hleaf e).
  - intros x Hx Hleaf. rewrite (merge_get_here b a section x Hb Hx).
    destruct x as [z|s|l|e]; try reflexivity. now destruct (Hleaf e).
Qed.

(** An instance: a profile that only sets [k_bm25]. *)
Lemma merge_keeps_defaults_witness :
  lookup2 "retrieval" "combine_top_k"
          (load_config [("retrieval", VDict [("k_bm25", VInt 5)])]) = Some (VInt 10)
  /\ lookup2 "retrieval" "k_bm25"
             (load_config [("retrieval", VDict [("k_bm25", VInt 5)])]) = Some (VInt 5).
Proof.
  split.
  - apply (proj1 (proj1 (proj2 (merge_keeps_defaults _DEFAULTS
                                  [("retrieval", VDict [("k_bm25", VInt 5)])]
                                  "retrieval" "combine_top_k"
                                  [("k_bm25", VInt 40); ("k_embed", VInt 40);
                                   ("combine_top_k", VInt 10)]
                                  (VInt 10)
                                  ltac:(repeat constructor; cbn; tauto) eq_refl eq_refl))
                        [("k_bm25", VInt 5)] eq_refl
                        ltac:(repeat constructor; cbn; tauto))).
    reflexivity.
  - reflexivity.
Defined.

End ConfigFacts.

(** ** What [start_ingestion] returns *)

Section StartFacts.
Import Manager Registry.

Variable uuid4 : nat -> string.

(** Every task is registered under its own identifier. *)
Abbreviation keyed m := (forall j t, tasks m !! j = Some t -> id t = j).

Lemma apply_event_keyed m e m' :
  Registry.apply_event uuid4 m e = Some m' -> keyed m -> keyed m'.
Proof.
  intros He Hk. destruct e as [q|i|i s']; cbn in He.
  - injection He as <-. unfold start_ingestion.
    assert (Hcreate : keyed (Manager_ (<[uuid4 (drawn m)
                                         := Task (uuid4 (drawn m)) q PREPARING false]> (tasks m))
                                      (Some (uuid4 (drawn m))) (S (drawn m)))).
    { intros j t Hj. cbn [tasks] in Hj.
      destruct (decide (j = uuid4 (drawn m))) as [->|Hne].
      - rewrite lookup_insert_eq in Hj. now injection Hj as <-.
      - rewrite lookup_insert_ne in Hj by congruence. now apply Hk. }
    destruct (active m) as [t|]; [|exact Hcreate].
    destruct (_ && _); [exact Hk | exact Hcreate].
  - injection He as <-.
    destruct (cancel_task_cases m i) as [(t & Ht & _ & ->)|(_ & ->)]; [|exact Hk].
    intros j t' Hj. cbn [snd tasks] in Hj.
    destruct (decide (j = i)) as [->|Hne].
    + rewrite lookup_insert_eq in Hj. injection Hj as <-. cbn [id]. now apply Hk.
    + rewrite lookup_insert_ne in Hj by congruence. now apply Hk.
  - unfold set_status in He. destruct (tasks m !! i) as [t|] eqn:Ht; [|discriminate].
    destruct (_ && _); [|discriminate]. injection He as <-.
    intros j t' Hj. cbn [tasks] in Hj.
    destruct (decide (j = i)) as [->|Hne].
    + rewrite lookup_insert_eq in Hj. injection Hj as <-. cbn [id]. now apply Hk.
    + rewrite lookup_insert_ne in Hj by congruence. now apply Hk.
Qed.

Lemma run_keyed events : forall m m',
  Registry.run uuid4 events m = Some m' -> keyed m -> keyed m'.
Proof.
  induction events as [|e events IH]; intros m m' Hrun Hk; cbn in Hrun.
  - now injection Hrun as <-.
  - destruct (Registry.apply_event uuid4 m e) as [m1|] eqn:He; [|discriminate].
    apply (IH m1 m' Hrun). eapply apply_event_keyed; [exact He | exact Hk].
Qed.

(** X29: after any sequence of calls and worker steps, the identifier
    [start_ingestion] returns designates, in the registry as the call leaves
    it, a task of the requested profile that is not terminal, registered
    under that identifier, and this task is the active one. *)
Theorem start_ingestion_returns events m profile
  (Hrun : Registry.run uuid4 events fresh = Some m) :
  exists t,
    tasks (snd (start_ingestion uuid4 m profile)) !! fst (start_ingestion uuid4 m profile)
    = Some t
    /\ id t = fst (start_ingestion uuid4 m profile)
    /\ profile_name t = profile
    /\ terminal (status t) = false
    /\ active_task (snd (start_ingestion uuid4 m profile))
       = Some (fst (start_ingestion uuid4 m profile)).
Proof.
  assert (Hk : keyed m).
  { apply (run_keyed events fresh m Hrun). intros j t Hj. cbn in Hj.
    rewrite lookup_empty in Hj. discriminate. }
  assert (Hcreate : exists t,
             <[uuid4 (drawn m) := Task (uuid4 (drawn m)) profile PREPARING false]> (tasks m)
               !! uuid4 (drawn m) = Some t
             /\ id t = uuid4 (drawn m) /\ profile_name t = profile
             /\ terminal (status t) = false
             /\ Some (uuid4 (drawn m)) = Some (uuid4 (drawn m))).
  { eexists. rewrite lookup_insert_eq. now repeat split. }
  unfold start_ingestion. destruct (active m) as [t|] eqn:Ha; [|exact Hcreate].
  destruct (String.eqb (profile_name t) profile && negb (terminal (status t))) eqn:E;
    [|exact Hcreate].
  apply andb_true_iff in E as [Ep Et]. apply String.eqb_eq in Ep.
  apply negb_true_iff in Et. cbn [fst snd].
  unfold active in Ha. destruct (active_task m) as [i|] eqn:Hi; [|discriminate].
  exists t. rewrite (Hk i t Ha). now repeat split.
Qed.

End StartFacts.

(** An instance: the second request for the profile finds its task still
    scanning and is answered with the same identifier. *)
Lemma start_ingestion_returns_witness :
  fst (Manager.start_ingestion Fixture.uuid4
         (default Manager.fresh
            (Registry.run Fixture.uuid4
               [Registry.Start "alpha"; Registry.Work "task-0" Manager.SCANNING]
               Manager.fresh))
         "alpha") = "task-0"
  /\ exists m t,
       Registry.run Fixture.uuid4
         [Registry.Start "alpha"; Registry.Work "task-0" Manager.SCANNING] Manager.fresh
       = Some m
       /\ Manager.tasks (snd (Manager.start_ingestion Fixture.uuid4 m "alpha"))
            !! fst (Manager.start_ingestion Fixture.uuid4 m "alpha") = Some t
       /\ Manager.profile_name t = "alpha".
Proof.
  split; [vm_compute; reflexivity|].
  eexists. 
  assert (Hrun : Registry.run Fixture.uuid4
                   [Registry.Start "alpha"; Registry.Work "task-0" Manager.SCANNING]
                   Manager.fresh
                 = Some (default Manager.fresh
                           (Registry.run Fixture.uuid4
                              [Registry.Start "alpha"; Registry.Work "task-0" Manager.SCANNING]
                              Manager.fresh)))
    by (vm_compute; reflexivity).
  destruct (start_ingestion_returns Fixture.uuid4
              [Registry.Start "alpha"; Registry.Work "task-0" Manager.SCANNING]
              _ "alpha" Hrun) as (t & Ht & _ & Hp & _).
  exists t. split; [exact Hrun|]. split; [exact Ht | exact Hp].
Defined.
